(** * MySQL backup automation: a shallow embedding of [mysql_backup.py]

    The script dumps each configured database, compresses the dump,
    uploads it to S3, prunes old remote copies, removes the local file and
    mails one report.  This development embeds [MySQLBackupManager] and
    [main] as state-passing functions over an explicit world (local files,
    the bucket, the log, the outgoing mail) and proves properties of the
    per-database pipeline, of the retention rule and of the exit code. *)

From Stdlib Require Import ZArith NArith List String Ascii Bool Lia.
Import ListNotations.

Open Scope Z_scope.

(** ** Python strings

    A Python [str] is a sequence of Unicode code points; it is modelled as
    a list of code points so that [strip], [split] and [basename] act on
    the same units as the interpreter.  Literals of the source are written
    with [lit], which decodes the UTF-8 bytes of a Rocq string literal. *)

Module PyStr.

Definition str := list N.

Fixpoint utf8_decode (bs : list N) : str :=
  match bs with
  | [] => []
  | b0 :: r0 =>
    if (b0 <? 128)%N then b0 :: utf8_decode r0
    else match r0 with
    | [] => []
    | b1 :: r1 =>
      if (b0 <? 224)%N then ((b0 mod 32) * 64 + b1 mod 64)%N :: utf8_decode r1
      else match r1 with
      | [] => []
      | b2 :: r2 =>
        if (b0 <? 240)%N
        then ((b0 mod 16) * 4096 + (b1 mod 64) * 64 + b2 mod 64)%N
               :: utf8_decode r2
        else match r2 with
        | [] => []
        | b3 :: r3 =>
          ((b0 mod 8) * 262144 + (b1 mod 64) * 4096
           + (b2 mod 64) * 64 + b3 mod 64)%N :: utf8_decode r3
        end
      end
    end
  end.

Definition lit (s : string) : str :=
  utf8_decode (map N_of_ascii (list_ascii_of_string s)).

Fixpoint str_eqb (a b : str) : bool :=
  match a, b with
  | [], [] => true
  | x :: a', y :: b' => (x =? y)%N && str_eqb a' b'
  | _, _ => false
  end.

(** Code points for which [str.isspace] holds; [str.strip()] without
    argument removes exactly these. *)
Definition isspace (c : N) : bool :=
  (((9 <=? c) && (c <=? 13)) || ((28 <=? c) && (c <=? 32))
   || (c =? 133) || (c =? 160) || (c =? 5760)
   || ((8192 <=? c) && (c <=? 8202)) || (c =? 8232) || (c =? 8233)
   || (c =? 8239) || (c =? 8287) || (c =? 12288))%N.

Fixpoint dropwhile (p : N -> bool) (s : str) : str :=
  match s with
  | [] => []
  | c :: r => if p c then dropwhile p r else s
  end.

Fixpoint takewhile (p : N -> bool) (s : str) : str :=
  match s with
  | [] => []
  | c :: r => if p c then c :: takewhile p r else []
  end.

Definition lstrip (s : str) : str := dropwhile isspace s.
Definition rstrip (s : str) : str := rev (dropwhile isspace (rev s)).

(** [s.strip()] *)
Definition strip (s : str) : str := rstrip (lstrip s).

(** [s.split(sep)] for a one-character separator: never the empty list. *)
Fixpoint split (sep : N) (s : str) : list str :=
  match s with
  | [] => [[]]
  | c :: r =>
    if (c =? sep)%N then [] :: split sep r
    else match split sep r with
         | h :: t => (c :: h) :: t
         | [] => [[c]]
         end
  end.

Definition slash : N := 47.

(** [os.path.basename(p)] on POSIX: what follows the last ['/']. *)
Definition basename (p : str) : str :=
  rev (takewhile (fun c => negb (c =? slash)%N) (rev p)).

(** [chr(10).join(lines)] and friends. *)
Fixpoint join (sep : str) (l : list str) : str :=
  match l with
  | [] => []
  | [x] => x
  | x :: r => x ++ sep ++ join sep r
  end.

(** Decimal rendering of integers, as [str(n)] and ["%d" % n] do. *)
Fixpoint dec_digits (fuel : nat) (n : N) (acc : str) : str :=
  match fuel with
  | O => acc
  | S f =>
    let acc' := (48 + n mod 10)%N :: acc in
    if (n / 10 =? 0)%N then acc' else dec_digits f (n / 10)%N acc'
  end.

Definition str_of_N (n : N) : str :=
  dec_digits (S (N.to_nat (N.log2 n))) n [].

Definition str_of_int (z : Z) : str :=
  if z <? 0 then 45%N :: str_of_N (Z.abs_N z) else str_of_N (Z.to_N z).

(** ["%0wd" % z] for [0 <= z]. *)
Definition zfill (w : nat) (z : Z) : str :=
  let s := str_of_int z in
  repeat 48%N (w - List.length s) ++ s.

Definition isdigit (c : N) : bool := ((48 <=? c) && (c <=? 57))%N.

End PyStr.

Import PyStr.

(** ** Results and exceptions

    An exception is represented by its message, the value of [str(e)];
    every handler of the script catches [Exception] and only uses that. *)

Inductive result (A : Type) : Type :=
| Ok (a : A)
| Raise (e : str).

Arguments Ok {A} a.
Arguments Raise {A} e.

(** ** Naive date-times

    A naive [datetime] is the number of microseconds since
    0001-01-01T00:00:00; the interpreter supports the years 1 to 9999 and
    raises [OverflowError] outside.  A [timedelta] is a number of
    microseconds. *)

Module DateTime.

Definition datetime := Z.
Definition timedelta := Z.

Definition us_per_second : Z := 1000000.
Definition us_per_day : Z := 86400 * us_per_second.

(** [date.max.toordinal()] *)
Definition max_ordinal : Z := 3652059.
(** [timedelta.max.days] *)
Definition max_delta_days : Z := 999999999.

Definition in_range (t : Z) : bool :=
  (0 <=? t) && (t <? max_ordinal * us_per_day).

(** Days between 0001-01-01 and the civil date [y]-[m]-[d]. *)
Definition days_from_civil (y m d : Z) : Z :=
  let y' := if m <=? 2 then y - 1 else y in
  let era := y' / 400 in
  let yoe := y' - era * 400 in
  let mp := if 2 <? m then m - 3 else m + 9 in
  let doy := (153 * mp + 2) / 5 + d - 1 in
  let doe := yoe * 365 + yoe / 4 - yoe / 100 + doy in
  era * 146097 + doe - 306.

(** [datetime(y, m, d, hh, mm, ss, us)] *)
Definition mk_datetime (y m d hh mm ss us : Z) : datetime :=
  days_from_civil y m d * us_per_day
  + ((hh * 60 + mm) * 60 + ss) * us_per_second + us.

(** The civil date of a day count, as (year, month, day). *)
Definition civil_from_days (z0 : Z) : Z * Z * Z :=
  let z := z0 + 306 in
  let era := z / 146097 in
  let doe := z - era * 146097 in
  let yoe := (doe - doe / 1460 + doe / 36524 - doe / 146096) / 365 in
  let doy := doe - (365 * yoe + yoe / 4 - yoe / 100) in
  let mp := (5 * doy + 2) / 153 in
  let d := doy - (153 * mp + 2) / 5 + 1 in
  let m := if mp <? 10 then mp + 3 else mp - 9 in
  let y := yoe + era * 400 in
  (if m <=? 2 then y + 1 else y, m, d).

Definition year (t : datetime) : Z := fst (fst (civil_from_days (t / us_per_day))).
Definition month (t : datetime) : Z := snd (fst (civil_from_days (t / us_per_day))).
Definition day (t : datetime) : Z := snd (civil_from_days (t / us_per_day)).
Definition hour (t : datetime) : Z := (t mod us_per_day) / (3600 * us_per_second).
Definition minute (t : datetime) : Z := ((t mod us_per_day) / (60 * us_per_second)) mod 60.
Definition second (t : datetime) : Z := ((t mod us_per_day) / us_per_second) mod 60.

Definition underscore : N := 95.
Definition colon : N := 58.
Definition hyphen : N := 45.

(** [t.strftime('%Y%m%d_%H%M%S')] *)
Definition strftime_stamp (t : datetime) : str :=
  str_of_int (year t) ++ zfill 2 (month t) ++ zfill 2 (day t)
  ++ [underscore]
  ++ zfill 2 (hour t) ++ zfill 2 (minute t) ++ zfill 2 (second t).

(** [t.strftime('%Y-%m-%d')] *)
Definition strftime_date (t : datetime) : str :=
  str_of_int (year t) ++ [hyphen] ++ zfill 2 (month t)
  ++ [hyphen] ++ zfill 2 (day t).

(** [t.strftime('%d/%m/%Y %H:%M:%S')] *)
Definition strftime_report (t : datetime) : str :=
  zfill 2 (day t) ++ [slash] ++ zfill 2 (month t) ++ [slash]
  ++ str_of_int (year t) ++ [32%N]
  ++ zfill 2 (hour t) ++ [colon] ++ zfill 2 (minute t)
  ++ [colon] ++ zfill 2 (second t).

(** [str(d)] for a [timedelta]. *)
Definition str_of_timedelta (d : timedelta) : str :=
  let days := d / us_per_day in
  let seconds := (d mod us_per_day) / us_per_second in
  let micros := d mod us_per_second in
  let mm := seconds / 60 in
  let s := str_of_int (mm / 60) ++ [colon] ++ zfill 2 (mm mod 60)
           ++ [colon] ++ zfill 2 (seconds mod 60) in
  let s := if days =? 0 then s
           else str_of_int days ++ lit " day"
                ++ (if Z.abs days =? 1 then [] else lit "s")
                ++ lit ", " ++ s in
  if micros =? 0 then s else s ++ lit "." ++ zfill 6 micros.

(** [timedelta(days=n)] *)
Definition timedelta_days (n : Z) : result timedelta :=
  if Z.abs n <=? max_delta_days then Ok (n * us_per_day)
  else Raise (lit "days=" ++ str_of_int n
              ++ lit "; must have magnitude <= 999999999").

(** [t - d] for a [datetime] and a [timedelta]. *)
Definition datetime_sub (t : datetime) (d : timedelta) : result datetime :=
  if in_range (t - d) then Ok (t - d)
  else Raise (lit "date value out of range").

End DateTime.

Import DateTime.

(** ** The world the script acts on *)

Record RemoteObject : Type := {
  Key : str;
  LastModified : datetime;
  TagSet : list (str * str)
}.

Inductive Level : Type := INFO | ERROR.

Record Mail : Type := {
  From : str;
  To : str;
  Subject : str;
  Body : str
}.

(** Entries into the methods of the manager, processes started and
    requests sent to the bucket, in the order they happen.  The trace is bookkeeping of the
    model: the script keeps no such list. *)
Inductive Call : Type :=
| CallDump (database : str)
| CallUpload (local_file database : str)
| CallCleanup (database : str)
| CallNotify (subject : str) (is_error : bool)
| Exec (argv : list str)
| ReqPut (key : str)
| ReqTag (key : str)
| ReqList (prefix : str)
| ReqDelete (key : str).

Record World : Type := {
  files : list str;             (* regular files on the local disk *)
  bucket : list RemoteObject;   (* the objects of [s3_bucket], in key order *)
  log : list (Level * str);     (* records the script hands to [logging] *)
  outbox : list Mail;           (* messages accepted by the SMTP server *)
  trace : list Call
}.

Definition set_files (f : list str) (w : World) : World :=
  {| files := f; bucket := bucket w; log := log w;
     outbox := outbox w; trace := trace w |}.
Definition set_bucket (b : list RemoteObject) (w : World) : World :=
  {| files := files w; bucket := b; log := log w;
     outbox := outbox w; trace := trace w |}.
Definition set_log (l : list (Level * str)) (w : World) : World :=
  {| files := files w; bucket := bucket w; log := l;
     outbox := outbox w; trace := trace w |}.
Definition set_outbox (o : list Mail) (w : World) : World :=
  {| files := files w; bucket := bucket w; log := log w;
     outbox := o; trace := trace w |}.
Definition set_trace (t : list Call) (w : World) : World :=
  {| files := files w; bucket := bucket w; log := log w;
     outbox := outbox w; trace := t |}.

(** ** Computations: state passing with exceptions

    The world is kept when an exception is raised: a file created before a
    failing step is still there in the handler. *)

Definition M (A : Type) : Type := World -> result A * World.

Definition ret {A} (a : A) : M A := fun w => (Ok a, w).

Definition bind {A B} (m : M A) (f : A -> M B) : M B :=
  fun w => match m w with
           | (Ok a, w') => f a w'
           | (Raise e, w') => (Raise e, w')
           end.

Definition raise {A} (e : str) : M A := fun w => (Raise e, w).

(** [try: m except Exception as e: h e] *)
Definition try_except {A} (m : M A) (h : str -> M A) : M A :=
  fun w => match m w with
           | (Ok a, w') => (Ok a, w')
           | (Raise e, w') => h e w'
           end.

Definition lift {A} (r : result A) : M A := fun w => (r, w).

Notation "x <- m ;; k" := (bind m (fun x => k))
  (at level 61, m at next level, right associativity).
Notation "m ;;; k" := (bind m (fun _ => k))
  (at level 61, right associativity).

Definition logging_info (msg : str) : M unit :=
  fun w => (Ok tt, set_log (log w ++ [(INFO, msg)]) w).
Definition logging_error (msg : str) : M unit :=
  fun w => (Ok tt, set_log (log w ++ [(ERROR, msg)]) w).
Definition record (c : Call) : M unit :=
  fun w => (Ok tt, set_trace (trace w ++ [c]) w).

(** *** Local files *)

Definition file_exists (p : str) (fs : list str) : bool :=
  existsb (str_eqb p) fs.
Definition file_remove (p : str) (fs : list str) : list str :=
  filter (fun q => negb (str_eqb p q)) fs.
Definition file_add (p : str) (fs : list str) : list str :=
  if file_exists p fs then fs else fs ++ [p].

(** *** The bucket *)

Fixpoint str_ltb (a b : str) : bool :=
  match a, b with
  | [], [] => false
  | [], _ :: _ => true
  | _ :: _, [] => false
  | x :: a', y :: b' =>
    if (x <? y)%N then true
    else if (y <? x)%N then false else str_ltb a' b'
  end.

Fixpoint startswith (s prefix : str) : bool :=
  match prefix, s with
  | [], _ => true
  | _ :: _, [] => false
  | p :: prefix', c :: s' => (c =? p)%N && startswith s' prefix'
  end.

Fixpoint put_object (o : RemoteObject) (b : list RemoteObject)
  : list RemoteObject :=
  match b with
  | [] => [o]
  | x :: r =>
    if str_eqb (Key x) (Key o) then o :: r
    else if str_ltb (Key o) (Key x) then o :: b
    else x :: put_object o r
  end.

Definition remove_object (k : str) (b : list RemoteObject)
  : list RemoteObject :=
  filter (fun o => negb (str_eqb k (Key o))) b.

Definition has_object (k : str) (b : list RemoteObject) : bool :=
  existsb (fun o => str_eqb k (Key o)) b.

Definition set_tags (k : str) (tags : list (str * str))
  (b : list RemoteObject) : list RemoteObject :=
  map (fun o => if str_eqb k (Key o)
                then {| Key := Key o; LastModified := LastModified o;
                        TagSet := tags |}
                else o) b.

(** One [ListObjectsV2] request returns at most this many keys. *)
Definition max_keys : nat := 1000.

(** The response of [list_objects_v2]: the key ['Contents'] is absent when
    no object matches. *)
Record ListResponse : Type := {
  Contents : option (list RemoteObject);
  IsTruncated : bool
}.

Definition matching (prefix : str) (b : list RemoteObject)
  : list RemoteObject :=
  filter (fun o => startswith (Key o) prefix) b.

Definition first_page (prefix : str) (b : list RemoteObject)
  : list RemoteObject :=
  firstn max_keys (matching prefix b).

Definition list_response (prefix : str) (b : list RemoteObject)
  : ListResponse :=
  let all := matching prefix b in
  {| Contents := match all with
                 | [] => None
                 | _ :: _ => Some (firstn max_keys all)
                 end;
     IsTruncated := (max_keys <? List.length all)%nat |}.

(** ** What the outside does

    The script calls [mysqldump], [gzip], S3, the local file system, the
    clock and an SMTP server.  Their answers are inputs of the model: a
    [Pipe] holds what they answer while one entry of the database list is
    processed, a [RunEnv] what concerns the run as a whole.  An error is
    given by the message of the exception the call raises. *)

Record Pipe : Type := {
  now_dump : datetime;             (* [datetime.now()] in [create_mysql_dump] *)
  open_error : option str;         (* [open(dump_file, 'w')] *)
  mysqldump : result (Z * str);    (* return code and stderr, or no process *)
  gzip_error : option str;         (* [subprocess.run(..., check=True)] *)
  transfer_error : option str;     (* [upload_file] *)
  upload_time : datetime;          (* the [LastModified] S3 assigns *)
  now_tag : datetime;              (* [datetime.now()] in [upload_to_s3] *)
  tagging_error : option str;      (* [put_object_tagging] *)
  now_cleanup : datetime;          (* [datetime.now()] in [cleanup_old_backups] *)
  list_error : option str;         (* [list_objects_v2] *)
  delete_error : str -> option str;  (* [delete_object], per key *)
  remove_error : option str        (* [os.remove] *)
}.

Inductive SmtpOutcome : Type :=
| Delivered
| FailedBeforeSend (e : str)   (* connect, [starttls], [login] or [send_message] *)
| FailedAfterSend (e : str).   (* [quit] *)

Record RunEnv : Type := {
  start_time : datetime;
  end_time : datetime;
  smtp : SmtpOutcome
}.

Record Config : Type := {
  mysql_host : str;
  mysql_user : str;
  mysql_password : str;
  databases : list str;
  s3_bucket : str;
  aws_region : str;
  backup_dir : str;
  retention_days : Z;
  smtp_server : str;
  smtp_port : Z;
  email_user : str;
  email_password : str;
  notification_email : str
}.

Definition nl : str := [10%N].

Definition enoent (path : str) : str :=
  lit "[Errno 2] No such file or directory: '" ++ path ++ lit "'".

(** *** Calls to the outside *)

Definition open_w (pe : Pipe) (path : str) : M unit :=
  match open_error pe with
  | Some e => raise e
  | None => fun w => (Ok tt, set_files (file_add path (files w)) w)
  end.

(** A successful [gzip f] replaces [f] by [f.gz]; a failing one leaves the
    directory as it was. *)
Definition run_gzip (pe : Pipe) (path : str) : M unit :=
  match gzip_error pe with
  | Some e => raise e
  | None =>
    fun w => (Ok tt,
              set_files (file_add (path ++ lit ".gz")
                                  (file_remove path (files w))) w)
  end.

Definition os_remove (pe : Pipe) (path : str) : M unit :=
  match remove_error pe with
  | Some e => raise e
  | None =>
    fun w => if file_exists path (files w)
             then (Ok tt, set_files (file_remove path (files w)) w)
             else (Raise (enoent path), w)
  end.

Definition upload_file (pe : Pipe) (local_file key : str) : M unit :=
  record (ReqPut key) ;;;
  match transfer_error pe with
  | Some e => raise e
  | None =>
    fun w => if file_exists local_file (files w)
             then (Ok tt,
                   set_bucket (put_object {| Key := key;
                                             LastModified := upload_time pe;
                                             TagSet := [] |} (bucket w)) w)
             else (Raise (enoent local_file), w)
  end.

Definition put_object_tagging (pe : Pipe) (key : str)
  (tags : list (str * str)) : M unit :=
  record (ReqTag key) ;;;
  match tagging_error pe with
  | Some e => raise e
  | None => fun w => (Ok tt, set_bucket (set_tags key tags (bucket w)) w)
  end.

Definition list_objects_v2 (pe : Pipe) (prefix : str) : M ListResponse :=
  record (ReqList prefix) ;;;
  match list_error pe with
  | Some e => raise e
  | None => fun w => (Ok (list_response prefix (bucket w)), w)
  end.

Definition delete_object (pe : Pipe) (key : str) : M unit :=
  record (ReqDelete key) ;;;
  match delete_error pe key with
  | Some e => raise e
  | None => fun w => (Ok tt, set_bucket (remove_object key (bucket w)) w)
  end.

Definition smtp_send (re : RunEnv) (msg : Mail) : M unit :=
  match smtp re with
  | Delivered => fun w => (Ok tt, set_outbox (outbox w ++ [msg]) w)
  | FailedBeforeSend e => raise e
  | FailedAfterSend e => fun w => (Raise e, set_outbox (outbox w ++ [msg]) w)
  end.

(** ** [MySQLBackupManager] *)

Section Manager.

Variable cfg : Config.

Definition mysqldump_cmd (database : str) : list str :=
  [ lit "mysqldump";
    lit "--host=" ++ mysql_host cfg;
    lit "--user=" ++ mysql_user cfg;
    lit "--password=" ++ mysql_password cfg;
    lit "--single-transaction";
    lit "--routines";
    lit "--triggers";
    database ].

Definition dump_path (database : str) (t : datetime) : str :=
  backup_dir cfg ++ lit "/" ++ database ++ lit "_" ++ strftime_stamp t
  ++ lit ".sql".

Definition create_mysql_dump (pe : Pipe) (database : str) : M str :=
  record (CallDump database) ;;;
  let dump_file := dump_path database (now_dump pe) in
  try_except
    (logging_info (lit "Criando backup do banco " ++ database ++ lit "...") ;;;
     open_w pe dump_file ;;;
     record (Exec (mysqldump_cmd database)) ;;;
     r <- lift (mysqldump pe) ;;
     (if negb (fst r =? 0)
      then raise (lit "Erro no mysqldump: " ++ snd r)
      else ret tt) ;;;
     let compressed_file := dump_file ++ lit ".gz" in
     record (Exec [lit "gzip"; dump_file]) ;;;
     run_gzip pe dump_file ;;;
     logging_info (lit "Backup criado: " ++ compressed_file) ;;;
     ret compressed_file)
    (fun e =>
       logging_error (lit "Erro ao criar backup de " ++ database
                      ++ lit ": " ++ e) ;;;
       raise e).

Definition s3_key_of (database file_name : str) : str :=
  lit "mysql_backups/" ++ database ++ lit "/" ++ file_name.

Definition upload_to_s3 (pe : Pipe) (local_file database : str) : M str :=
  record (CallUpload local_file database) ;;;
  try_except
    (let file_name := basename local_file in
     let s3_key := s3_key_of database file_name in
     logging_info (lit "Uploading " ++ file_name ++ lit " para S3...") ;;;
     upload_file pe local_file s3_key ;;;
     put_object_tagging pe s3_key
       [ (lit "Type", lit "mysql_backup");
         (lit "Database", database);
         (lit "Date", strftime_date (now_tag pe)) ] ;;;
     logging_info (lit "Upload concluído: s3://" ++ s3_bucket cfg
                   ++ lit "/" ++ s3_key) ;;;
     ret s3_key)
    (fun e =>
       logging_error (lit "Erro no upload para S3: " ++ e) ;;;
       raise e).

(** The test of the [if] in the loop of [cleanup_old_backups];
    [replace(tzinfo=None)] keeps the fields of the time stamp. *)
Definition is_old (cutoff_date : datetime) (obj : RemoteObject) : bool :=
  LastModified obj <? cutoff_date.

Fixpoint cleanup_loop (pe : Pipe) (cutoff_date : datetime)
  (contents : list RemoteObject) (deleted_count : Z) : M Z :=
  match contents with
  | [] => ret deleted_count
  | obj :: rest =>
    if is_old cutoff_date obj then
      delete_object pe (Key obj) ;;;
      logging_info (lit "Backup antigo removido: " ++ Key obj) ;;;
      cleanup_loop pe cutoff_date rest (deleted_count + 1)
    else cleanup_loop pe cutoff_date rest deleted_count
  end.

Definition cutoff (now : datetime) (days : Z) : result datetime :=
  match timedelta_days days with
  | Ok d => datetime_sub now d
  | Raise e => Raise e
  end.

Definition cleanup_old_backups (pe : Pipe) (database : str) : M unit :=
  record (CallCleanup database) ;;;
  try_except
    (cutoff_date <- lift (cutoff (now_cleanup pe) (retention_days cfg)) ;;
     let prefix := lit "mysql_backups/" ++ database ++ lit "/" in
     response <- list_objects_v2 pe prefix ;;
     match Contents response with
     | None => ret tt
     | Some contents =>
       deleted_count <- cleanup_loop pe cutoff_date contents 0 ;;
       if 0 <? deleted_count
       then logging_info (lit "Limpeza concluída: " ++ str_of_int deleted_count
                          ++ lit " backups antigos removidos")
       else ret tt
     end)
    (fun e => logging_error (lit "Erro na limpeza de backups antigos: " ++ e)).

Definition send_notification (re : RunEnv) (subject message : str)
  (is_error : bool) : M unit :=
  record (CallNotify subject is_error) ;;;
  try_except
    (let message :=
       if is_error then lit "❌ ERRO no backup:" ++ nl ++ nl ++ message
       else lit "✅ Backup concluído com sucesso:" ++ nl ++ nl ++ message in
     let msg := {| From := email_user cfg;
                   To := notification_email cfg;
                   Subject := lit "[MySQL Backup] " ++ subject;
                   Body := message |} in
     smtp_send re msg ;;;
     logging_info (lit "Notificação enviada por email"))
    (fun e => logging_error (lit "Erro ao enviar notificação: " ++ e)).

(** The counters and the detail lines [run_backup] accumulates. *)
Record Tally : Type := {
  success_count : Z;
  error_count : Z;
  backup_details : list str
}.

(** The body of [for database in self.databases], for one entry. *)
Definition backup_one (pe : Pipe) (database : str) (t : Tally) : M Tally :=
  let database := strip database in
  try_except
    (dump_file <- create_mysql_dump pe database ;;
     s3_key <- upload_to_s3 pe dump_file database ;;
     cleanup_old_backups pe database ;;;
     os_remove pe dump_file ;;;
     ret {| success_count := success_count t + 1;
            error_count := error_count t;
            backup_details :=
              backup_details t
              ++ [lit "✅ " ++ database ++ lit ": " ++ basename dump_file] |})
    (fun e =>
       logging_error (lit "Falha no backup de " ++ database
                      ++ lit ": " ++ e) ;;;
       ret {| success_count := success_count t;
              error_count := error_count t + 1;
              backup_details :=
                backup_details t
                ++ [lit "❌ " ++ database ++ lit ": " ++ e] |}).

(** The loop of [run_backup]; [i] is the position of the entry in the
    list, which selects the answers of the outside. *)
Fixpoint backup_loop (pipes : nat -> Pipe) (i : nat) (dbs : list str)
  (t : Tally) : M Tally :=
  match dbs with
  | [] => ret t
  | database :: rest =>
    t' <- backup_one (pipes i) database t ;;
    backup_loop pipes (S i) rest t'
  end.

Definition tally0 : Tally :=
  {| success_count := 0; error_count := 0; backup_details := [] |}.

Definition report_of (re : RunEnv) (t : Tally) : str :=
  let duration := end_time re - start_time re in
  nl ++ lit "Relatório de Backup MySQL"
  ++ nl ++ lit "========================"
  ++ nl ++ lit "Data/Hora: " ++ strftime_report (start_time re)
  ++ nl ++ lit "Duração: " ++ str_of_timedelta duration
  ++ nl ++ lit "Bancos processados: "
  ++ str_of_int (Z.of_nat (List.length (databases cfg)))
  ++ nl ++ lit "Sucessos: " ++ str_of_int (success_count t)
  ++ nl ++ lit "Erros: " ++ str_of_int (error_count t)
  ++ nl
  ++ nl ++ lit "Detalhes:"
  ++ nl ++ join nl (backup_details t)
  ++ nl
  ++ nl ++ lit "Configurações:"
  ++ nl ++ lit "- Bucket S3: " ++ s3_bucket cfg
  ++ nl ++ lit "- Retenção: " ++ str_of_int (retention_days cfg) ++ lit " dias"
  ++ nl ++ lit "- Diretório local: " ++ backup_dir cfg
  ++ nl ++ lit "        ".

Definition run_backup (pipes : nat -> Pipe) (re : RunEnv) : M bool :=
  logging_info (lit "=== Iniciando processo de backup MySQL ===") ;;;
  t <- backup_loop pipes 0 (databases cfg) tally0 ;;
  let report := report_of re t in
  logging_info report ;;;
  (if 0 <? error_count t
   then send_notification re
          (lit "Backup com " ++ str_of_int (error_count t) ++ lit " erro(s)")
          report true
   else send_notification re (lit "Backup concluído") report false) ;;;
  ret (success_count t =? Z.of_nat (List.length (databases cfg))).

End Manager.

(** ** Construction of the manager and [main] *)

(** What [config.get(section, option)] finds in [backup_config.ini]. *)
Inductive Lookup : Type :=
| Found (v : str)
| NoSection
| NoOption
| Broken (e : str).   (* any other error, such as a failed interpolation *)

Record InitEnv : Type := {
  ini : str -> str -> Lookup;
  py_int : str -> result Z;          (* the builtin [int] on a [str] *)
  boto3_error : option str;          (* [boto3.client('s3', ...)] *)
  mkdir_error : option str           (* [Path(...).mkdir(...)] *)
}.

Definition config_get (ie : InitEnv) (section name : str)
  (fallback : option str) : result str :=
  match ini ie section name, fallback with
  | Found v, _ => Ok v
  | Broken e, _ => Raise e
  | _, Some d => Ok d
  | NoSection, None => Raise (lit "No section: '" ++ section ++ lit "'")
  | NoOption, None =>
    Raise (lit "No option '" ++ name ++ lit "' in section: '" ++ section
           ++ lit "'")
  end.

Definition comma : N := 44.

Definition check (e : option str) : M unit :=
  match e with
  | Some msg => raise msg
  | None => ret tt
  end.

Definition get (ie : InitEnv) (section name : string)
  (fallback : option str) : M str :=
  lift (config_get ie (lit section) (lit name) fallback).

(** [MySQLBackupManager.__init__] *)
Definition init (ie : InitEnv) : M Config :=
  host <- get ie "mysql" "host" (Some (lit "localhost")) ;;
  user <- get ie "mysql" "user" None ;;
  password <- get ie "mysql" "password" None ;;
  dbs <- get ie "mysql" "databases" None ;;
  s3b <- get ie "aws" "s3_bucket" None ;;
  region <- get ie "aws" "region" (Some (lit "us-east-1")) ;;
  dir <- get ie "backup" "local_dir" (Some (lit "/tmp/mysql_backups")) ;;
  days_s <- get ie "backup" "retention_days" (Some (lit "30")) ;;
  days <- lift (py_int ie days_s) ;;
  server <- get ie "email" "smtp_server" (Some (lit "smtp.gmail.com")) ;;
  port_s <- get ie "email" "smtp_port" (Some (lit "587")) ;;
  port <- lift (py_int ie port_s) ;;
  euser <- get ie "email" "user" None ;;
  epassword <- get ie "email" "password" None ;;
  nemail <- get ie "email" "notification_email" None ;;
  check (boto3_error ie) ;;;
  check (mkdir_error ie) ;;;
  ret {| mysql_host := host; mysql_user := user; mysql_password := password;
         databases := split comma dbs;
         s3_bucket := s3b; aws_region := region;
         backup_dir := dir; retention_days := days;
         smtp_server := server; smtp_port := port;
         email_user := euser; email_password := epassword;
         notification_email := nemail |}.

(** The body of [main]; the value is the argument of [sys.exit], which the
    handler for [Exception] does not intercept. *)
Definition main_body (ie : InitEnv) (pipes : nat -> Pipe) (re : RunEnv)
  : M Z :=
  try_except
    (backup_manager <- init ie ;;
     success <- run_backup backup_manager pipes re ;;
     if success : bool
     then logging_info (lit "Todos os backups foram concluídos com sucesso!") ;;;
          ret 0
     else logging_error (lit "Alguns backups falharam. Verifique os logs.") ;;;
          ret 1)
    (fun e =>
       logging_error (lit "Erro crítico no processo de backup: " ++ e) ;;;
       ret 1).

(** The exit status of the process: an exception that leaves [main] ends
    the interpreter with status 1. *)
Definition main (ie : InitEnv) (pipes : nat -> Pipe) (re : RunEnv)
  (w : World) : Z * World :=
  match main_body ie pipes re w with
  | (Ok code, w') => (code, w')
  | (Raise _, w') => (1, w')
  end.

(** ** Concrete inputs used by the examples *)

Module Fixture.

Definition t_run : datetime := mk_datetime 2024 3 1 2 0 0 0.

Definition cfg0 : Config :=
  {| mysql_host := lit "localhost"; mysql_user := lit "backup";
     mysql_password := lit "secret";
     databases := split comma (lit "orders, users");
     s3_bucket := lit "acme-backups"; aws_region := lit "us-east-1";
     backup_dir := lit "/tmp/mysql_backups"; retention_days := 30;
     smtp_server := lit "smtp.gmail.com"; smtp_port := 587;
     email_user := lit "ops@example.com"; email_password := lit "pw";
     notification_email := lit "dba@example.com" |}.

(** Every call to the outside succeeds. *)
Definition fine : Pipe :=
  {| now_dump := t_run; open_error := None; mysqldump := Ok (0, []);
     gzip_error := None; transfer_error := None; upload_time := t_run;
     now_tag := t_run; tagging_error := None; now_cleanup := t_run;
     list_error := None; delete_error := fun _ => None;
     remove_error := None |}.

Definition with_mysqldump (r : result (Z * str)) (p : Pipe) : Pipe :=
  {| now_dump := now_dump p; open_error := open_error p; mysqldump := r;
     gzip_error := gzip_error p; transfer_error := transfer_error p;
     upload_time := upload_time p; now_tag := now_tag p;
     tagging_error := tagging_error p; now_cleanup := now_cleanup p;
     list_error := list_error p; delete_error := delete_error p;
     remove_error := remove_error p |}.

Definition with_gzip_error (e : option str) (p : Pipe) : Pipe :=
  {| now_dump := now_dump p; open_error := open_error p;
     mysqldump := mysqldump p;
     gzip_error := e; transfer_error := transfer_error p;
     upload_time := upload_time p; now_tag := now_tag p;
     tagging_error := tagging_error p; now_cleanup := now_cleanup p;
     list_error := list_error p; delete_error := delete_error p;
     remove_error := remove_error p |}.

Definition with_transfer_error (e : option str) (p : Pipe) : Pipe :=
  {| now_dump := now_dump p; open_error := open_error p;
     mysqldump := mysqldump p;
     gzip_error := gzip_error p; transfer_error := e;
     upload_time := upload_time p; now_tag := now_tag p;
     tagging_error := tagging_error p; now_cleanup := now_cleanup p;
     list_error := list_error p; delete_error := delete_error p;
     remove_error := remove_error p |}.

Definition with_tagging_error (e : option str) (p : Pipe) : Pipe :=
  {| now_dump := now_dump p; open_error := open_error p;
     mysqldump := mysqldump p;
     gzip_error := gzip_error p; transfer_error := transfer_error p;
     upload_time := upload_time p; now_tag := now_tag p;
     tagging_error := e; now_cleanup := now_cleanup p;
     list_error := list_error p; delete_error := delete_error p;
     remove_error := remove_error p |}.

Definition with_delete_error (f : str -> option str) (p : Pipe) : Pipe :=
  {| now_dump := now_dump p; open_error := open_error p;
     mysqldump := mysqldump p;
     gzip_error := gzip_error p; transfer_error := transfer_error p;
     upload_time := upload_time p; now_tag := now_tag p;
     tagging_error := tagging_error p; now_cleanup := now_cleanup p;
     list_error := list_error p; delete_error := f;
     remove_error := remove_error p |}.

Definition with_list_error (e : option str) (p : Pipe) : Pipe :=
  {| now_dump := now_dump p; open_error := open_error p;
     mysqldump := mysqldump p;
     gzip_error := gzip_error p; transfer_error := transfer_error p;
     upload_time := upload_time p; now_tag := now_tag p;
     tagging_error := tagging_error p; now_cleanup := now_cleanup p;
     list_error := e; delete_error := delete_error p;
     remove_error := remove_error p |}.

Definition re0 : RunEnv :=
  {| start_time := t_run;
     end_time := t_run + 95 * us_per_second;
     smtp := Delivered |}.

Definition w0 : World :=
  {| files := []; bucket := []; log := []; outbox := []; trace := [] |}.

Definition obj (key : string) (t : datetime) : RemoteObject :=
  {| Key := lit key; LastModified := t; TagSet := [] |}.

(** A bucket with two earlier backups of [orders]: one of 2024-01-01
    and one of 2024-02-05. *)
Definition bucket0 : list RemoteObject :=
  [ obj "mysql_backups/orders/orders_20240101_020000.sql.gz"
        (mk_datetime 2024 1 1 2 0 0 0);
    obj "mysql_backups/orders/orders_20240205_020000.sql.gz"
        (mk_datetime 2024 2 5 2 0 0 0) ].

Definition w1 : World := set_bucket bucket0 w0.

Definition orders_gz : str :=
  lit "/tmp/mysql_backups/orders_20240301_020000.sql.gz".
Definition orders_sql : str :=
  lit "/tmp/mysql_backups/orders_20240301_020000.sql".

(** The [i]-th of many old backups of [orders], named by a number. *)
Definition numbered (i : nat) : RemoteObject :=
  {| Key := lit "mysql_backups/orders/orders_" ++ zfill 4 (Z.of_nat i)
            ++ lit ".sql.gz";
     LastModified := mk_datetime 2023 1 1 0 0 0 0;
     TagSet := [] |}.

Definition crowded : list RemoteObject := map numbered (seq 0 1001).

(** Two backups of [orders] older than 30 days on 2024-03-01, and a pipe
    in which the delete of the first one is refused. *)
Definition stale : list RemoteObject :=
  [ obj "mysql_backups/orders/orders_20231201_020000.sql.gz"
        (mk_datetime 2023 12 1 2 0 0 0);
    obj "mysql_backups/orders/orders_20240101_020000.sql.gz"
        (mk_datetime 2024 1 1 2 0 0 0) ].

Definition refused (k : str) : option str :=
  if str_eqb k (lit "mysql_backups/orders/orders_20231201_020000.sql.gz")
  then Some (lit "AccessDenied")
  else None.

(** A backup of [orders] that the store stamped 29 days, 23 hours and 30
    minutes before 2024-03-01 02:00. *)
Definition recent : RemoteObject :=
  obj "mysql_backups/orders/orders_20240131_023000.sql.gz"
      (mk_datetime 2024 1 31 2 30 0 0).

End Fixture.

(** ** Vocabulary of the statements

    The definitions below are not part of the script: they name what
    the lemmas and theorems talk about. *)

(** A string without leading and trailing white space. *)
Definition stripped (s : str) : Prop :=
  (forall c r, s = c :: r -> isspace c = false)
  /\ (forall c r, s = r ++ [c] -> isspace c = false).

(** No decimal rendering holds a ['/']. *)
Definition no_slash (s : str) : Prop := Forall (fun c => c <> slash) s.

(** The first step of the dump that fails, if any. *)
Definition dump_failure (pe : Pipe) : option str :=
  match open_error pe with
  | Some e => Some e
  | None =>
    match mysqldump pe with
    | Raise e => Some e
    | Ok (rc, err) =>
      if negb (rc =? 0) then Some (lit "Erro no mysqldump: " ++ err)
      else gzip_error pe
    end
  end.

(** The first step of the upload that fails, if any. *)
Definition upload_failure (pe : Pipe) : option str :=
  match transfer_error pe with
  | Some e => Some e
  | None => tagging_error pe
  end.

(** The first step of the pipeline that fails, if any.  The retention
    step is not among them: [cleanup_old_backups] handles its errors. *)
Definition first_failure (pe : Pipe) : option str :=
  match dump_failure pe with
  | Some e => Some e
  | None =>
    match upload_failure pe with
    | Some e => Some e
    | None => remove_error pe
    end
  end.

(** An entry is healthy when none of its steps fails: opening the dump
    file, [mysqldump], [gzip], the transfer, the tagging and the removal
    of the local file. *)
Definition healthy (pe : Pipe) : bool :=
  match first_failure pe with
  | None => true
  | Some _ => false
  end.

(** [emits P m]: running [m] appends calls that all satisfy [P]. *)
Definition emits {A} (P : Call -> Prop) (m : M A) : Prop :=
  forall w, exists tr,
    trace (snd (m w)) = trace w ++ tr /\ Forall P tr.

(** [emits_first c P m]: running [m] appends [c] and then calls that all
    satisfy [P]. *)
Definition emits_first {A} (c : Call) (P : Call -> Prop) (m : M A) : Prop :=
  forall w, exists tr,
    trace (snd (m w)) = trace w ++ c :: tr /\ Forall P tr.

(** What the loop of [cleanup_old_backups] does with a listing: the keys
    it deletes, in order, and the key and error of the delete that stops
    it, if one fails. *)
Fixpoint sweep (pe : Pipe) (cutoff_date : datetime)
  (contents : list RemoteObject) : list str * option (str * str) :=
  match contents with
  | [] => ([], None)
  | o :: rest =>
    if is_old cutoff_date o then
      match delete_error pe (Key o) with
      | Some e => ([], Some (Key o, e))
      | None =>
        let s := sweep pe cutoff_date rest in (Key o :: fst s, snd s)
      end
    else sweep pe cutoff_date rest
  end.

(** The keys for which a delete request is sent. *)
Definition requested (s : list str * option (str * str)) : list str :=
  fst s ++ match snd s with
           | Some (k, _) => [k]
           | None => []
           end.

(** The bucket after the deletion of the keys [ks]. *)
Definition remove_objects (ks : list str) (b : list RemoteObject)
  : list RemoteObject :=
  fold_left (fun b k => remove_object k b) ks b.

(** The log record written after the deletion of [k]. *)
Definition removed_line (k : str) : Level * str :=
  (INFO, lit "Backup antigo removido: " ++ k).

(** The prefix [cleanup_old_backups] lists for [database]. *)
Definition retention_prefix (database : str) : str :=
  lit "mysql_backups/" ++ database ++ lit "/".

Section Vocabulary.

Variable cfg : Config.

(** The log records that end the retention step. *)
Definition cleanup_error_line (e : str) : Level * str :=
  (ERROR, lit "Erro na limpeza de backups antigos: " ++ e).

Definition cleanup_done_line (n : Z) : Level * str :=
  (INFO, lit "Limpeza concluída: " ++ str_of_int n
         ++ lit " backups antigos removidos").

(** The calls that processing database [d] may make. *)
Definition concerns (d : str) (c : Call) : Prop :=
  match c with
  | CallDump x => x = d
  | CallUpload _ x => x = d
  | CallCleanup x => x = d
  | CallNotify _ _ => False
  | Exec argv => argv = mysqldump_cmd cfg d \/ exists f, argv = [lit "gzip"; f]
  | ReqPut k | ReqTag k => exists f, k = s3_key_of d f
  | ReqList p => p = retention_prefix d
  | ReqDelete k => startswith k (retention_prefix d) = true
  end.

(** Any call but the entry into [create_mysql_dump]. *)
Definition not_dump (c : Call) : Prop :=
  match c with
  | CallDump _ => False
  | _ => True
  end.

Definition within (d : str) (c : Call) : Prop := concerns d c /\ not_dump c.

(** The detail line of an entry, from what the outside answered. *)
Definition success_line (pe : Pipe) (database : str) : str :=
  lit "✅ " ++ strip database ++ lit ": "
  ++ basename (dump_path cfg (strip database) (now_dump pe) ++ lit ".gz").

Definition failure_line (database e : str) : str :=
  lit "❌ " ++ strip database ++ lit ": " ++ e.

Definition detail_line (pe : Pipe) (database : str) : str :=
  match first_failure pe with
  | None => success_line pe database
  | Some e => failure_line database e
  end.

(** The tally after one entry. *)
Definition tally_step (pe : Pipe) (database : str) (t : Tally) : Tally :=
  {| success_count := success_count t + (if healthy pe then 1 else 0);
     error_count := error_count t + (if healthy pe then 0 else 1);
     backup_details := backup_details t ++ [detail_line pe database] |}.

(** The tally after the whole list. *)
Fixpoint tally_loop (pipes : nat -> Pipe) (i : nat) (dbs : list str)
  (t : Tally) : Tally :=
  match dbs with
  | [] => t
  | database :: rest =>
    tally_loop pipes (S i) rest (tally_step (pipes i) database t)
  end.

(** The number of entries with a failing step among the [n] entries
    from position [i]. *)
Definition failures (pipes : nat -> Pipe) (i n : nat) : nat :=
  List.length (filter (fun j => negb (healthy (pipes j))) (seq i n)).

(** The databases of the dumps started in a trace, and the subjects and
    flags of the notifications. *)
Definition dumps_of (tr : list Call) : list str :=
  flat_map (fun c => match c with CallDump d => [d] | _ => [] end) tr.

Definition notifies_of (tr : list Call) : list (str * bool) :=
  flat_map (fun c => match c with CallNotify s b => [(s, b)] | _ => [] end) tr.

(** A call made for the stripped name of an entry of [dbs]. *)
Definition from_list (dbs : list str) (c : Call) : Prop :=
  exists d, In d dbs /\ concerns (strip d) c.

(** The subject line [run_backup] passes to the notifier. *)
Definition subject_of (t : Tally) : str :=
  if 0 <? error_count t
  then lit "Backup com " ++ str_of_int (error_count t) ++ lit " erro(s)"
  else lit "Backup concluído".

End Vocabulary.

(** The keys of the delete requests in a trace. *)
Definition delete_requests (tr : list Call) : list str :=
  flat_map (fun c => match c with ReqDelete k => [k] | _ => [] end) tr.

(** The prefixes of the list requests in a trace. *)
Definition list_requests (tr : list Call) : list str :=
  flat_map (fun c => match c with ReqList p => [p] | _ => [] end) tr.

(** The keys the retention step for [database] selects for deletion in
    world [w]: those of the delete requests it sends. *)
Definition selected (cfg : Config) (pe : Pipe) (database : str) (w : World)
  : list str :=
  skipn (List.length (delete_requests (trace w)))
        (delete_requests
           (trace (snd (cleanup_old_backups cfg pe database w)))).

(** The difference the retention step compares with the window, in
    microseconds: the reading of the host's local clock ([datetime.now()])
    minus the time stamp of the store read without its time zone
    ([replace(tzinfo=None)]).  The store stamps in UTC: the difference is
    the age of the object on a host whose clock shows UTC, and the age
    shifted by the offset of the host's time zone elsewhere. *)
Definition apparent_age (pe : Pipe) (o : RemoteObject) : Z :=
  now_cleanup pe - LastModified o.

(** The age of an object at the instant [utc_now], read on the clock of
    the store. *)
Definition age_at (utc_now : datetime) (o : RemoteObject) : Z :=
  utc_now - LastModified o.

(** The prefixes of the list requests the retention step for [database]
    sends in world [w]. *)
Definition listings (cfg : Config) (pe : Pipe) (database : str) (w : World)
  : list str :=
  skipn (List.length (list_requests (trace w)))
        (list_requests
           (trace (snd (cleanup_old_backups cfg pe database w)))).

(** Keys in strictly increasing order, as the store lists them. *)
Fixpoint key_sorted (ks : list str) : bool :=
  match ks with
  | k :: ((k' :: _) as rest) => str_ltb k k' && key_sorted rest
  | _ => true
  end.

(** The compressed dump of database [d] in the entry answered by [pe]. *)
Definition dump_gz (cfg : Config) (pe : Pipe) (d : str) : str :=
  dump_path cfg d (now_dump pe) ++ lit ".gz".

(** The key under which the entry answered by [pe] stores the dump of
    database [d]. *)
Definition entry_key (cfg : Config) (pe : Pipe) (d : str) : str :=
  s3_key_of d (basename (dump_gz cfg pe d)).

(** The calls the entry answered by [pe] may make for database [d], with
    every argument they carry: the command line, the local file, the
    remote key and the prefix are those of [d]. *)
Definition drives (cfg : Config) (pe : Pipe) (d : str) (c : Call) : Prop :=
  match c with
  | CallDump x => x = d
  | Exec argv =>
    argv = mysqldump_cmd cfg d
    \/ argv = [lit "gzip"; dump_path cfg d (now_dump pe)]
  | CallUpload f x => f = dump_gz cfg pe d /\ x = d
  | ReqPut k | ReqTag k => k = entry_key cfg pe d
  | CallCleanup x => x = d
  | ReqList p => p = retention_prefix d
  | ReqDelete k => startswith k (retention_prefix d) = true
  | CallNotify _ _ => False
  end.

(** A call of the entry at some position of the list, made for the
    stripped name at that position; the entries are numbered from [i]. *)
Definition from_entry (cfg : Config) (pipes : nat -> Pipe) (i : nat)
  (dbs : list str) (c : Call) : Prop :=
  exists j database,
    nth_error dbs j = Some database
    /\ drives cfg (pipes (i + j)%nat) (strip database) c.

(** The requests of the retention step for database [d]. *)
Definition retention_request (d : str) (c : Call) : Prop :=
  match c with
  | ReqList p => p = retention_prefix d
  | ReqDelete k => startswith k (retention_prefix d) = true
  | _ => False
  end.

(** The calls of an entry whose dump and upload succeed, up to the
    requests of the retention step. *)
Definition entry_calls (cfg : Config) (pe : Pipe) (d : str) : list Call :=
  [ CallDump d;
    Exec (mysqldump_cmd cfg d);
    Exec [lit "gzip"; dump_path cfg d (now_dump pe)];
    CallUpload (dump_gz cfg pe d) d;
    ReqPut (entry_key cfg pe d);
    ReqTag (entry_key cfg pe d);
    CallCleanup d ].

(** The log record [upload_to_s3] writes before it re-raises. *)
Definition upload_error_line (e : str) : Level * str :=
  (ERROR, lit "Erro no upload para S3: " ++ e).

(** [needle in hay] *)
Fixpoint contains (hay needle : str) : bool :=
  startswith hay needle
  || match hay with
     | [] => false
     | _ :: rest => contains rest needle
     end.

(** *** Vocabulary of the further properties *)

(** [keeps f m]: running [m] leaves the component [f] of the world as it
    was. *)
Definition keeps {X A} (f : World -> X) (m : M A) : Prop :=
  forall w, f (snd (m w)) = f w.

(** The value of an option of the configuration file, or [d] when the
    option is not there. *)
Definition option_or (ie : InitEnv) (section name d : string) : str :=
  match ini ie (lit section) (lit name) with
  | Found v => v
  | _ => lit d
  end.

(** The lookup of an option with a fallback raises nothing. *)
Definition usable (ie : InitEnv) (section name : string) : Prop :=
  forall e, ini ie (lit section) (lit name) <> Broken e.

(** The number of occurrences of a character. *)
Fixpoint count_char (c : N) (s : str) : nat :=
  match s with
  | [] => O
  | x :: r => if (x =? c)%N then S (count_char c r) else count_char c r
  end.

(** The object stored under a key, if any. *)
Definition lookup (k : str) (b : list RemoteObject) : option RemoteObject :=
  find (fun o => str_eqb k (Key o)) b.

(** The tags [upload_to_s3] attaches. *)
Definition backup_tags (pe : Pipe) (database : str) : list (str * str) :=
  [ (lit "Type", lit "mysql_backup");
    (lit "Database", database);
    (lit "Date", strftime_date (now_tag pe)) ].

(** The start of a process. *)
Definition is_exec (c : Call) : Prop :=
  match c with
  | Exec _ => True
  | _ => False
  end.

(** A call that belongs neither to the retention step nor to the
    notification. *)
Definition before_cleanup (c : Call) : Prop :=
  match c with
  | CallCleanup _ | ReqList _ | ReqDelete _ | CallNotify _ _ => False
  | _ => True
  end.

(** The records [create_mysql_dump] writes. *)
Definition dump_start_line (d : str) : Level * str :=
  (INFO, lit "Criando backup do banco " ++ d ++ lit "...").

Definition dump_error_line (d e : str) : Level * str :=
  (ERROR, lit "Erro ao criar backup de " ++ d ++ lit ": " ++ e).

(** The record with which the loop of [run_backup] reports a failed
    entry. *)
Definition entry_error_line (database e : str) : Level * str :=
  (ERROR, lit "Falha no backup de " ++ strip database ++ lit ": " ++ e).

(** The message [send_notification] builds. *)
Definition mail_of (cfg : Config) (subject message : str) (is_error : bool)
  : Mail :=
  {| From := email_user cfg;
     To := notification_email cfg;
     Subject := lit "[MySQL Backup] " ++ subject;
     Body := (if is_error then lit "❌ ERRO no backup:"
              else lit "✅ Backup concluído com sucesso:")
             ++ nl ++ nl ++ message |}.

(** A configuration file that is not there: [config.read] ignores the
    missing file and every lookup finds no section. *)
Definition no_file : InitEnv :=
  {| ini := fun _ _ => NoSection;
     py_int := fun _ => Raise (lit "invalid literal for int()");
     boto3_error := None;
     mkdir_error := None |}.

(** [int] on a string of ASCII digits. *)
Fixpoint digits_value (s : str) (acc : Z) : result Z :=
  match s with
  | [] => Ok acc
  | c :: r =>
    if isdigit c then digits_value r (acc * 10 + Z.of_N (c - 48))
    else Raise (lit "invalid literal for int() with base 10")
  end.

(** A configuration file with the required options only. *)
Definition sample_ini (section name : str) : Lookup :=
  if str_eqb section (lit "mysql") then
    if str_eqb name (lit "user") then Found (lit "backup")
    else if str_eqb name (lit "password") then Found (lit "secret")
    else if str_eqb name (lit "databases") then Found (lit "orders, users")
    else NoOption
  else if str_eqb section (lit "aws") then
    if str_eqb name (lit "s3_bucket") then Found (lit "acme-backups")
    else NoOption
  else if str_eqb section (lit "email") then
    if str_eqb name (lit "user") then Found (lit "ops@example.com")
    else if str_eqb name (lit "password") then Found (lit "pw")
    else if str_eqb name (lit "notification_email")
    then Found (lit "dba@example.com")
    else NoOption
  else NoSection.

Definition sample_file : InitEnv :=
  {| ini := sample_ini;
     py_int := fun s => match s with
                        | [] => Raise (lit "invalid literal for int() with base 10")
                        | _ => digits_value s 0
                        end;
     boto3_error := None;
     mkdir_error := None |}.

(** The record [upload_to_s3] writes first. *)
Definition upload_start_line (f : str) : Level * str :=
  (INFO, lit "Uploading " ++ basename f ++ lit " para S3...").

(** The object a successful transfer stores, before it is tagged. *)
Definition stored_object (pe : Pipe) (key : str) : RemoteObject :=
  {| Key := key; LastModified := upload_time pe; TagSet := [] |}.

(** A configuration with another retention window. *)
Definition with_retention (days : Z) (c : Config) : Config :=
  {| mysql_host := mysql_host c; mysql_user := mysql_user c;
     mysql_password := mysql_password c; databases := databases c;
     s3_bucket := s3_bucket c; aws_region := aws_region c;
     backup_dir := backup_dir c; retention_days := days;
     smtp_server := smtp_server c; smtp_port := smtp_port c;
     email_user := email_user c; email_password := email_password c;
     notification_email := notification_email c |}.

(** The object of a backup once it is stored and tagged. *)
Definition backup_object (pe : Pipe) (database key : str) : RemoteObject :=
  {| Key := key; LastModified := upload_time pe;
     TagSet := backup_tags pe database |}.

(** A pipe whose retention step reads the clock one hour after the store
    stamped the upload, as on a host whose local time is ahead of UTC. *)
Definition ahead (p : Pipe) : Pipe :=
  {| now_dump := now_dump p; open_error := open_error p;
     mysqldump := mysqldump p;
     gzip_error := gzip_error p; transfer_error := transfer_error p;
     upload_time := upload_time p; now_tag := now_tag p;
     tagging_error := tagging_error p;
     now_cleanup := upload_time p + 3600 * us_per_second;
     list_error := list_error p; delete_error := delete_error p;
     remove_error := remove_error p |}.

(** The record that closes [send_notification]. *)
Definition notify_line (re : RunEnv) : Level * str :=
  match smtp re with
  | Delivered => (INFO, lit "Notificação enviada por email")
  | FailedBeforeSend e | FailedAfterSend e =>
    (ERROR, lit "Erro ao enviar notificação: " ++ e)
  end.

(** The record that closes [main] after a run. *)
Definition verdict_line (t : Tally) : Level * str :=
  if error_count t =? 0
  then (INFO, lit "Todos os backups foram concluídos com sucesso!")
  else (ERROR, lit "Alguns backups falharam. Verifique os logs.").

(** A run whose notification cannot be sent. *)
Definition no_smtp (re : RunEnv) : RunEnv :=
  {| start_time := start_time re; end_time := end_time re;
     smtp := FailedBeforeSend (lit "Connection refused") |}.

(** A pipe whose local file cannot be removed. *)
Definition with_remove_error (e : option str) (p : Pipe) : Pipe :=
  {| now_dump := now_dump p; open_error := open_error p;
     mysqldump := mysqldump p;
     gzip_error := gzip_error p; transfer_error := transfer_error p;
     upload_time := upload_time p; now_tag := now_tag p;
     tagging_error := tagging_error p; now_cleanup := now_cleanup p;
     list_error := list_error p; delete_error := delete_error p;
     remove_error := e |}.

(** * Properties *)

(** ** The model on concrete inputs *)
Example lit_ascii : lit "a/b" = [97; 47; 98]%N.
Proof. reflexivity. Qed.

Example lit_accent : lit "concluído" = [99; 111; 110; 99; 108; 117; 237; 100; 111]%N.
Proof. reflexivity. Qed.

Example lit_check_mark : lit "✅ " = [9989; 32]%N.
Proof. reflexivity. Qed.

Example split_example :
  split 44 (lit "orders, users") = [lit "orders"; lit " users"].
Proof. reflexivity. Qed.

Example split_empty : split 44 [] = [[]].
Proof. reflexivity. Qed.

Example strip_example : strip (lit "  users" ++ [9; 160; 10]%N) = lit "users".
Proof. reflexivity. Qed.

Example basename_example :
  basename (lit "/tmp/mysql_backups/orders_20240301_020000.sql.gz")
  = lit "orders_20240301_020000.sql.gz".
Proof. reflexivity. Qed.

Example str_of_int_examples :
  str_of_int 0 = lit "0" /\ str_of_int 1203 = lit "1203"
  /\ str_of_int (-45) = lit "-45" /\ zfill 2 7 = lit "07".
Proof. repeat split; reflexivity. Qed.

Example calendar_examples :
  mk_datetime 1 1 1 0 0 0 0 = 0
  /\ days_from_civil 9999 12 31 = max_ordinal - 1
  /\ civil_from_days (days_from_civil 2024 2 29) = (2024, 2, 29)
  /\ civil_from_days (days_from_civil 1900 3 1 - 1) = (1900, 2, 28)
  /\ strftime_stamp Fixture.t_run = lit "20240301_020000"
  /\ strftime_date Fixture.t_run = lit "2024-03-01"
  /\ strftime_report Fixture.t_run = lit "01/03/2024 02:00:00".
Proof. repeat split; reflexivity. Qed.

Example timedelta_examples :
  str_of_timedelta (95 * us_per_second) = lit "0:01:35"
  /\ str_of_timedelta (us_per_day + 3723 * us_per_second + 5)
     = lit "1 day, 1:02:03.000005"
  /\ str_of_timedelta (-1) = lit "-1 day, 23:59:59.999999".
Proof. repeat split; reflexivity. Qed.

(** ** Strings *)

Lemma str_eqb_eq (a b : str) : str_eqb a b = true <-> a = b.
Proof.
  revert b; induction a as [|x a IH]; intros [|y b]; simpl;
    try (split; [discriminate | discriminate]); try tauto.
  rewrite andb_true_iff, N.eqb_eq, IH.
  split; [intros [-> ->]; reflexivity | intros H; inversion H; auto].
Qed.

Lemma str_eqb_refl (a : str) : str_eqb a a = true.
Proof. apply str_eqb_eq; reflexivity. Qed.

Lemma str_eqb_neq (a b : str) : str_eqb a b = false <-> a <> b.
Proof.
  rewrite <- str_eqb_eq. destruct (str_eqb a b); split; congruence.
Qed.

Lemma takewhile_app_stop (p : N -> bool) (l r : str) (x : N) :
  Forall (fun c => p c = true) l -> p x = false ->
  takewhile p (l ++ x :: r) = l.
Proof.
  induction 1 as [|c l Hc _ IH]; intros Hx; simpl.
  - now rewrite Hx.
  - rewrite Hc, IH; auto.
Qed.

Lemma dropwhile_split (p : N -> bool) (s : str) :
  exists x, s = x ++ dropwhile p s /\ Forall (fun c => p c = true) x.
Proof.
  induction s as [|c s [x [E F]]]; simpl.
  - exists []; auto.
  - destruct (p c) eqn:Hc.
    + exists (c :: x); split; [simpl; congruence | auto].
    + exists []; auto.
Qed.

Lemma dropwhile_head (p : N -> bool) (s : str) (c : N) (r : str) :
  dropwhile p s = c :: r -> p c = false.
Proof.
  induction s as [|d s IH]; simpl; [discriminate|].
  destruct (p d) eqn:Hd; [exact IH|].
  intros E; inversion E; subst; exact Hd.
Qed.

(** What follows the last ['/'] of [a/b] is [b] when [b] holds none. *)
Lemma basename_app (a b : str) :
  Forall (fun c => c <> slash) b ->
  basename (a ++ slash :: b) = b.
Proof.
  intros Hb. unfold basename.
  rewrite rev_app_distr. simpl. rewrite <- app_assoc. simpl.
  rewrite takewhile_app_stop.
  - apply rev_involutive.
  - apply Forall_forall. intros c Hc. apply in_rev in Hc.
    rewrite Forall_forall in Hb. specialize (Hb c Hc).
    apply negb_true_iff, N.eqb_neq; exact Hb.
  - now rewrite N.eqb_refl.
Qed.

Lemma strip_stripped (s : str) : stripped (strip s).
Proof.
  unfold strip, rstrip, lstrip.
  set (u := dropwhile isspace s).
  destruct (dropwhile_split isspace (rev u)) as [x [E _]].
  set (v := dropwhile isspace (rev u)) in *.
  assert (Eu : u = rev v ++ rev x).
  { rewrite <- (rev_involutive u), E, rev_app_distr; reflexivity. }
  split.
  - intros c r Hr. rewrite Hr in Eu. simpl in Eu.
    apply (dropwhile_head isspace s c (r ++ rev x)). exact Eu.
  - intros c r Hr.
    assert (Ev : v = c :: rev r).
    { rewrite <- (rev_involutive v), Hr, rev_app_distr; reflexivity. }
    apply (dropwhile_head isspace (rev u) c (rev r)). exact Ev.
Qed.

(** [strip] is the identity on a string that is already stripped. *)
Lemma dropwhile_id (p : N -> bool) (s : str) :
  (forall c r, s = c :: r -> p c = false) -> dropwhile p s = s.
Proof.
  destruct s as [|c r]; simpl; auto.
  intros H. now rewrite (H c r eq_refl).
Qed.

Lemma strip_idem (s : str) : strip (strip s) = strip s.
Proof.
  destruct (strip_stripped s) as [Hh Hl].
  set (t := strip s) in *.
  unfold strip, rstrip, lstrip.
  rewrite (dropwhile_id isspace t Hh).
  rewrite dropwhile_id; [apply rev_involutive|].
  intros c r Hr. apply (Hl c (rev r)).
  rewrite <- (rev_involutive t), Hr. reflexivity.
Qed.

Lemma no_slash_app (a b : str) : no_slash a -> no_slash b -> no_slash (a ++ b).
Proof. intros; apply Forall_app; auto. Qed.

Lemma digit_not_slash (n : N) : (48 + n mod 10)%N <> slash.
Proof.
  intros H. pose proof (N.le_add_r 48 (n mod 10)) as L.
  rewrite H in L. revert L. apply N.lt_nge. reflexivity.
Qed.

Lemma dec_digits_no_slash (fuel : nat) :
  forall n acc, no_slash acc -> no_slash (dec_digits fuel n acc).
Proof.
  induction fuel as [|f IH]; intros n acc Hacc; simpl; auto.
  assert (H : no_slash ((48 + n mod 10)%N :: acc)).
  { constructor; auto. apply digit_not_slash. }
  destruct (n / 10 =? 0)%N; auto.
Qed.

Lemma str_of_int_no_slash (z : Z) : no_slash (str_of_int z).
Proof.
  unfold str_of_int, str_of_N.
  destruct (z <? 0).
  - constructor; [cbv beta; unfold slash; lia|]. apply dec_digits_no_slash; constructor.
  - apply dec_digits_no_slash; constructor.
Qed.

Lemma zfill_no_slash (w : nat) (z : Z) : no_slash (zfill w z).
Proof.
  unfold zfill. apply no_slash_app; [|apply str_of_int_no_slash].
  apply Forall_forall. intros c Hc. apply repeat_spec in Hc. subst.
  unfold slash; lia.
Qed.

Lemma strftime_stamp_no_slash (t : datetime) : no_slash (strftime_stamp t).
Proof.
  unfold strftime_stamp.
  assert (U : no_slash [underscore]).
  { constructor; [cbv beta; unfold slash, underscore; lia | constructor]. }
  repeat first [ exact U | apply zfill_no_slash | apply str_of_int_no_slash
               | apply no_slash_app ].
Qed.

Lemma lit_no_slash_sql_gz : no_slash (lit ".sql.gz").
Proof.
  apply Forall_forall; intros c Hc; vm_compute in Hc; unfold slash.
  intuition (subst; discriminate).
Qed.

(** The name of the compressed dump inside [backup_dir]. *)
Lemma basename_dump_path (cfg : Config) (database : str) (t : datetime) :
  no_slash database ->
  basename (dump_path cfg database t ++ lit ".gz")
  = database ++ lit "_" ++ strftime_stamp t ++ lit ".sql.gz".
Proof.
  intros Hd. unfold dump_path.
  replace ((backup_dir cfg ++ lit "/" ++ database ++ lit "_"
            ++ strftime_stamp t ++ lit ".sql") ++ lit ".gz")
    with (backup_dir cfg
          ++ slash :: (database ++ lit "_" ++ strftime_stamp t
                       ++ lit ".sql.gz")).
  - apply basename_app.
    apply no_slash_app; [exact Hd|].
    apply no_slash_app;
      [constructor; [cbv beta; discriminate | constructor]|].
    apply no_slash_app;
      [apply strftime_stamp_no_slash | apply lit_no_slash_sql_gz].
  - change (lit "/") with [slash]. change (lit ".sql.gz") with (lit ".sql" ++ lit ".gz").
    repeat rewrite <- app_assoc. reflexivity.
Qed.

(** ** Local files *)

Lemma file_exists_add (p : str) (fs : list str) :
  file_exists p (file_add p fs) = true.
Proof.
  unfold file_add. destruct (file_exists p fs) eqn:E; [exact E|].
  unfold file_exists. rewrite existsb_app. simpl.
  now rewrite str_eqb_refl, orb_true_r.
Qed.

Lemma file_exists_remove (p : str) (fs : list str) :
  file_exists p (file_remove p fs) = false.
Proof.
  unfold file_exists, file_remove.
  induction fs as [|q fs IH]; simpl; auto.
  destruct (str_eqb p q) eqn:E; simpl; auto. now rewrite E.
Qed.

(** ** Running the methods

    [munfold] exposes the state passing behind the monadic notation. *)

Arguments lit : simpl never.

Ltac munfold :=
  unfold bind, ret, raise, try_except, lift, check,
    logging_info, logging_error, record in *.

Section Methods.

Variable cfg : Config.

Lemma create_mysql_dump_result (pe : Pipe) (database : str) (w : World) :
  fst (create_mysql_dump cfg pe database w)
  = match dump_failure pe with
    | Some e => Raise e
    | None => Ok (dump_path cfg database (now_dump pe) ++ lit ".gz")
    end.
Proof.
  unfold create_mysql_dump, dump_failure, open_w, run_gzip. munfold.
  destruct (open_error pe); simpl; auto.
  destruct (mysqldump pe) as [[rc err]|e]; simpl; auto.
  destruct (rc =? 0); simpl; auto.
  destruct (gzip_error pe); simpl; auto.
Qed.

Lemma create_mysql_dump_files (pe : Pipe) (database : str) (w : World) :
  dump_failure pe = None ->
  file_exists (dump_path cfg database (now_dump pe) ++ lit ".gz")
              (files (snd (create_mysql_dump cfg pe database w))) = true.
Proof.
  unfold create_mysql_dump, dump_failure, open_w, run_gzip. munfold.
  destruct (open_error pe); simpl; try discriminate.
  destruct (mysqldump pe) as [[rc err]|e]; simpl; try discriminate.
  destruct (rc =? 0); simpl; try discriminate.
  destruct (gzip_error pe); simpl; try discriminate.
  intros _. apply file_exists_add.
Qed.

Lemma upload_to_s3_result (pe : Pipe) (local_file database : str) (w : World) :
  file_exists local_file (files w) = true ->
  fst (upload_to_s3 cfg pe local_file database w)
  = match upload_failure pe with
    | Some e => Raise e
    | None => Ok (s3_key_of database (basename local_file))
    end.
Proof.
  intros Hf.
  unfold upload_to_s3, upload_failure, upload_file, put_object_tagging.
  munfold. simpl.
  destruct (transfer_error pe); simpl; auto.
  rewrite Hf; simpl.
  destruct (tagging_error pe); simpl; auto.
Qed.

Lemma upload_to_s3_files (pe : Pipe) (local_file database : str) (w : World) :
  files (snd (upload_to_s3 cfg pe local_file database w)) = files w.
Proof.
  unfold upload_to_s3, upload_file, put_object_tagging. munfold. simpl.
  destruct (transfer_error pe); simpl; auto.
  destruct (file_exists local_file (files w)); simpl; auto.
  destruct (tagging_error pe); simpl; auto.
Qed.

End Methods.

(** ** What a computation adds to the trace *)

Section Emits.

Context {A B : Type} (P : Call -> Prop).

Lemma emits_ret (a : A) : emits P (ret a).
Proof. intros w; exists []; simpl; rewrite app_nil_r; auto. Qed.

Lemma emits_raise (e : str) : emits P (@raise A e).
Proof. intros w; exists []; simpl; rewrite app_nil_r; auto. Qed.

Lemma emits_lift (r : result A) : emits P (lift r).
Proof. intros w; exists []; simpl; rewrite app_nil_r; auto. Qed.

Lemma emits_bind (m : M A) (f : A -> M B) :
  emits P m -> (forall a, emits P (f a)) -> emits P (bind m f).
Proof.
  intros Hm Hf w. unfold bind.
  destruct (Hm w) as [tr [E F]].
  destruct (m w) as [[a|e] w1]; simpl in *.
  - destruct (Hf a w1) as [tr' [E' F']].
    exists (tr ++ tr'). rewrite E', E, app_assoc.
    split; [reflexivity | apply Forall_app; auto].
  - exists tr; auto.
Qed.

Lemma emits_try_except (m : M A) (h : str -> M A) :
  emits P m -> (forall e, emits P (h e)) -> emits P (try_except m h).
Proof.
  intros Hm Hh w. unfold try_except.
  destruct (Hm w) as [tr [E F]].
  destruct (m w) as [[a|e] w1]; simpl in *.
  - exists tr; auto.
  - destruct (Hh e w1) as [tr' [E' F']].
    exists (tr ++ tr'). rewrite E', E, app_assoc.
    split; [reflexivity | apply Forall_app; auto].
Qed.

Lemma emits_first_bind (c : Call) (m : M A) (f : A -> M B) :
  emits_first c P m -> (forall a, emits P (f a)) ->
  emits_first c P (bind m f).
Proof.
  intros Hm Hf w. unfold bind.
  destruct (Hm w) as [tr [E F]].
  destruct (m w) as [[a|e] w1]; simpl in *.
  - destruct (Hf a w1) as [tr' [E' F']].
    exists (tr ++ tr'). rewrite E', E, <- app_assoc.
    split; [reflexivity | apply Forall_app; auto].
  - exists tr; auto.
Qed.

Lemma emits_first_try_except (c : Call) (m : M A) (h : str -> M A) :
  emits_first c P m -> (forall e, emits P (h e)) ->
  emits_first c P (try_except m h).
Proof.
  intros Hm Hh w. unfold try_except.
  destruct (Hm w) as [tr [E F]].
  destruct (m w) as [[a|e] w1]; simpl in *.
  - exists tr; auto.
  - destruct (Hh e w1) as [tr' [E' F']].
    exists (tr ++ tr'). rewrite E', E, <- app_assoc.
    split; [reflexivity | apply Forall_app; auto].
Qed.

End Emits.

Section EmitsBasic.

Context (P : Call -> Prop).

Lemma emits_record (c : Call) : P c -> emits P (record c).
Proof. intros Hc w; exists [c]; simpl; auto. Qed.

Lemma emits_first_record {B} (c : Call) (f : unit -> M B) :
  emits P (f tt) -> emits_first c P (bind (record c) f).
Proof.
  intros Hf w. unfold bind, record.
  destruct (Hf (set_trace (trace w ++ [c]) w)) as [tr [E F]].
  exists tr. rewrite E. simpl. rewrite <- app_assoc. auto.
Qed.

Lemma emits_logging_info (msg : str) : emits P (logging_info msg).
Proof. intros w; exists []; simpl; rewrite app_nil_r; auto. Qed.

Lemma emits_logging_error (msg : str) : emits P (logging_error msg).
Proof. intros w; exists []; simpl; rewrite app_nil_r; auto. Qed.

Lemma emits_check (e : option str) : emits P (check e).
Proof. destruct e; [apply emits_raise | apply emits_ret]. Qed.

(** A computation that leaves the trace alone emits nothing. *)
Lemma emits_silent {A} (m : M A) :
  (forall w, trace (snd (m w)) = trace w) -> emits P m.
Proof. intros H w; exists []; rewrite H, app_nil_r; auto. Qed.

Lemma emits_open_w (pe : Pipe) (path : str) : emits P (open_w pe path).
Proof.
  apply emits_silent; intros w; unfold open_w.
  destruct (open_error pe); reflexivity.
Qed.

Lemma emits_run_gzip (pe : Pipe) (path : str) : emits P (run_gzip pe path).
Proof.
  apply emits_silent; intros w; unfold run_gzip.
  destruct (gzip_error pe); reflexivity.
Qed.

Lemma emits_os_remove (pe : Pipe) (path : str) : emits P (os_remove pe path).
Proof.
  apply emits_silent; intros w; unfold os_remove.
  destruct (remove_error pe); [reflexivity|].
  destruct (file_exists path (files w)); reflexivity.
Qed.

Lemma emits_smtp_send (re : RunEnv) (msg : Mail) : emits P (smtp_send re msg).
Proof.
  apply emits_silent; intros w; unfold smtp_send.
  destruct (smtp re); reflexivity.
Qed.

Lemma emits_upload_file (pe : Pipe) (local_file key : str) :
  P (ReqPut key) -> emits P (upload_file pe local_file key).
Proof.
  intros H. unfold upload_file.
  apply emits_bind; [apply emits_record; exact H|]. intros _.
  apply emits_silent; intros w.
  destruct (transfer_error pe); [reflexivity|].
  destruct (file_exists local_file (files w)); reflexivity.
Qed.

Lemma emits_put_object_tagging (pe : Pipe) (key : str) tags :
  P (ReqTag key) -> emits P (put_object_tagging pe key tags).
Proof.
  intros H. unfold put_object_tagging.
  apply emits_bind; [apply emits_record; exact H|]. intros _.
  apply emits_silent; intros w.
  destruct (tagging_error pe); reflexivity.
Qed.

Lemma emits_list_objects_v2 (pe : Pipe) (prefix : str) :
  P (ReqList prefix) -> emits P (list_objects_v2 pe prefix).
Proof.
  intros H. unfold list_objects_v2.
  apply emits_bind; [apply emits_record; exact H|]. intros _.
  apply emits_silent; intros w.
  destruct (list_error pe); reflexivity.
Qed.

Lemma emits_delete_object (pe : Pipe) (key : str) :
  P (ReqDelete key) -> emits P (delete_object pe key).
Proof.
  intros H. unfold delete_object.
  apply emits_bind; [apply emits_record; exact H|]. intros _.
  apply emits_silent; intros w.
  destruct (delete_error pe key); reflexivity.
Qed.

End EmitsBasic.

(** ** The retention step *)

Lemma cleanup_loop_run (pe : Pipe) (c : datetime) :
  forall contents n w,
    let s := sweep pe c contents in
    let r := cleanup_loop pe c contents n w in
    fst r = match snd s with
            | None => Ok (n + Z.of_nat (List.length (fst s)))
            | Some (_, e) => Raise e
            end
    /\ trace (snd r) = trace w ++ map ReqDelete (requested s)
    /\ bucket (snd r) = remove_objects (fst s) (bucket w)
    /\ log (snd r) = log w ++ map removed_line (fst s)
    /\ files (snd r) = files w
    /\ outbox (snd r) = outbox w.
Proof.
  induction contents as [|o rest IH]; intros n w; simpl.
  - rewrite Z.add_0_r, !app_nil_r. repeat split; reflexivity.
  - destruct (is_old c o); [|apply IH].
    unfold delete_object. munfold. simpl.
    destruct (delete_error pe (Key o)) as [e|]; simpl.
    + rewrite app_nil_r. repeat split; reflexivity.
    + match goal with
      | |- context [cleanup_loop pe c rest ?m ?v] =>
        destruct (IH m v) as (H1 & H2 & H3 & H4 & H5 & H6)
      end.
      simpl in *. unfold requested in *. simpl.
      rewrite H1, H2, H3, H4, H5, H6. repeat split.
      * destruct (snd (sweep pe c rest)) as [[k e]|]; auto.
        f_equal. lia.
      * rewrite <- app_assoc. reflexivity.
      * rewrite <- app_assoc. reflexivity.
Qed.

Lemma sweep_requested_in (pe : Pipe) (c : datetime) contents k :
  In k (requested (sweep pe c contents)) ->
  exists o, In o contents /\ Key o = k /\ is_old c o = true.
Proof.
  unfold requested.
  induction contents as [|o rest IH]; simpl; [tauto|].
  destruct (is_old c o) eqn:Ho.
  - destruct (delete_error pe (Key o)); simpl.
    + intros [<-|[]]. exists o; auto.
    + intros [<-|H]; [exists o; auto|].
      destruct (IH H) as [o' [? ?]]. exists o'; auto.
  - intros H. destruct (IH H) as [o' [? ?]]. exists o'; auto.
Qed.

(** When no delete fails, every old object of the listing is deleted. *)
Lemma sweep_all (pe : Pipe) (c : datetime) contents :
  (forall k, delete_error pe k = None) ->
  sweep pe c contents = (map Key (filter (is_old c) contents), None).
Proof.
  intros Hd. induction contents as [|o rest IH]; simpl; auto.
  destruct (is_old c o); auto.
  rewrite Hd, IH. reflexivity.
Qed.

Lemma in_remove_object (k : str) (b : list RemoteObject) (o : RemoteObject) :
  In o (remove_object k b) <-> In o b /\ Key o <> k.
Proof.
  unfold remove_object. rewrite filter_In, negb_true_iff, str_eqb_neq.
  intuition congruence.
Qed.

Lemma in_remove_objects (ks : list str) :
  forall b o, In o (remove_objects ks b) <-> In o b /\ ~ In (Key o) ks.
Proof.
  unfold remove_objects.
  induction ks as [|k ks IH]; intros b o; simpl; [tauto|].
  rewrite IH, in_remove_object. intuition congruence.
Qed.

Section Cleanup.

Variable cfg : Config.

Lemma contents_first_page (prefix : str) (b : list RemoteObject) :
  match Contents (list_response prefix b) with
  | None => first_page prefix b = []
  | Some contents => contents = first_page prefix b
  end.
Proof.
  unfold list_response, first_page.
  destruct (matching prefix b); reflexivity.
Qed.

(** [cleanup_old_backups] returns normally whatever happens, and touches
    neither the local files nor the outgoing mail. *)
Lemma cleanup_old_backups_frame (pe : Pipe) (database : str) (w : World) :
  let r := cleanup_old_backups cfg pe database w in
  fst r = Ok tt /\ files (snd r) = files w /\ outbox (snd r) = outbox w.
Proof.
  unfold cleanup_old_backups, list_objects_v2. munfold.
  cbn [fst snd].
  destruct (cutoff (now_cleanup pe) (retention_days cfg)) as [c|e];
    [|repeat split; reflexivity].
  destruct (list_error pe) as [e|]; [repeat split; reflexivity|].
  match goal with
  | |- context [list_response ?p ?b] =>
    destruct (Contents (list_response p b)) as [contents|]
  end; [|repeat split; reflexivity].
  match goal with
  | |- context [cleanup_loop pe c contents ?n ?v] =>
    destruct (cleanup_loop_run pe c contents n v) as (H1 & _ & _ & _ & H5 & H6);
    destruct (cleanup_loop pe c contents n v) as [[k|e] w3]
  end; cbn [fst snd] in *.
  - destruct (0 <? k); cbn; repeat split; assumption.
  - cbn; repeat split; assumption.
Qed.

(** The run of the retention step when the cut-off date is computed and
    the listing succeeds. *)
Lemma cleanup_old_backups_listed (pe : Pipe) (database : str) (w : World)
  (c : datetime) :
  cutoff (now_cleanup pe) (retention_days cfg) = Ok c ->
  list_error pe = None ->
  let s := sweep pe c (first_page (retention_prefix database) (bucket w)) in
  let w' := snd (cleanup_old_backups cfg pe database w) in
  trace w' = trace w ++ CallCleanup database
                        :: ReqList (retention_prefix database)
                        :: map ReqDelete (requested s)
  /\ bucket w' = remove_objects (fst s) (bucket w)
  /\ log w' = log w ++ map removed_line (fst s)
                    ++ match snd s with
                       | Some (_, e) => [cleanup_error_line e]
                       | None =>
                         if 0 <? Z.of_nat (List.length (fst s))
                         then [cleanup_done_line
                                 (Z.of_nat (List.length (fst s)))]
                         else []
                       end.
Proof.
  intros Hc Hl.
  unfold cleanup_old_backups, list_objects_v2. munfold.
  cbn [fst snd]. rewrite Hc, Hl.
  change (lit "mysql_backups/" ++ database ++ lit "/")
    with (retention_prefix database).
  pose proof (contents_first_page (retention_prefix database) (bucket w)) as Hp.
  cbn [bucket set_trace] in *.
  destruct (Contents (list_response (retention_prefix database) (bucket w)))
    as [contents|].
  - subst contents.
    match goal with
    | |- context [cleanup_loop pe c ?l ?n ?v] =>
      destruct (cleanup_loop_run pe c l n v) as (H1 & H2 & H3 & H4 & _ & _);
      destruct (cleanup_loop pe c l n v) as [[k|e] w3]
    end; cbn [fst snd] in *.
    + destruct (snd (sweep pe c (first_page (retention_prefix database)
                                            (bucket w)))) as [[k' e']|];
        [discriminate|].
      injection H1 as ->. cbn in H2, H3, H4.
      destruct (0 <? Z.of_nat _); cbn; rewrite ?H2, ?H3, ?H4; cbn;
        rewrite <- ?app_assoc; repeat split; try reflexivity.
      rewrite app_nil_r. reflexivity.
    + destruct (snd (sweep pe c (first_page (retention_prefix database)
                                            (bucket w)))) as [[k' e']|];
        [|discriminate].
      injection H1 as ->. cbn in H2, H3, H4.
      cbn; rewrite ?H2, ?H3, ?H4; cbn;
        rewrite <- ?app_assoc; repeat split; reflexivity.
  - rewrite Hp. cbn. rewrite !app_nil_r.
    rewrite <- app_assoc. repeat split; reflexivity.
Qed.

End Cleanup.

Lemma in_firstn {X} (n : nat) (l : list X) (x : X) :
  In x (firstn n l) -> In x l.
Proof.
  intros H. rewrite <- (firstn_skipn n l). apply in_or_app. now left.
Qed.

Lemma in_first_page (prefix : str) (b : list RemoteObject) (o : RemoteObject) :
  In o (first_page prefix b) -> In o b /\ startswith (Key o) prefix = true.
Proof.
  intros H. apply in_firstn in H. unfold matching in H.
  apply filter_In in H. exact H.
Qed.

(** ** One entry of the database list *)

Section Pipeline.

Variable cfg : Config.

Create HintDb emits.

#[local] Hint Resolve emits_ret emits_raise emits_lift emits_logging_info
  emits_logging_error emits_open_w emits_run_gzip emits_os_remove
  emits_smtp_send emits_check : emits.

Ltac emits_step :=
  first
    [ apply emits_upload_file; split;
      [simpl; eexists; reflexivity | exact I]
    | apply emits_put_object_tagging; split;
      [simpl; eexists; reflexivity | exact I]
    | apply emits_record; split; simpl; solve [eauto]
    | solve [auto with emits]
    | apply emits_bind; [|intros ?]
    | apply emits_try_except; [|intros ?]
    | match goal with
      | |- emits _ (if ?b then _ else _) => destruct b
      end
    | solve [auto with emits] ].

Lemma emits_create_mysql_dump (pe : Pipe) (d : str) :
  emits_first (CallDump d) (within cfg d) (create_mysql_dump cfg pe d).
Proof.
  unfold create_mysql_dump.
  apply emits_first_record.
  repeat emits_step.
Qed.

Lemma emits_upload_to_s3 (pe : Pipe) (f d : str) :
  emits (within cfg d) (upload_to_s3 cfg pe f d).
Proof.
  unfold upload_to_s3. cbv zeta. repeat emits_step.
Qed.

Lemma emits_cleanup_old_backups (pe : Pipe) (d : str) :
  emits (within cfg d) (cleanup_old_backups cfg pe d).
Proof.
  intros w.
  destruct (cutoff (now_cleanup pe) (retention_days cfg)) as [c|e] eqn:Hc.
  - destruct (list_error pe) as [e|] eqn:Hl.
    + exists [CallCleanup d; ReqList (retention_prefix d)].
      unfold cleanup_old_backups, list_objects_v2. munfold.
      cbn [fst snd]. rewrite Hc, Hl. cbn. rewrite <- app_assoc.
      split; [reflexivity|]. repeat constructor.
    + destruct (cleanup_old_backups_listed cfg pe d w c Hc Hl) as (H & _).
      eexists. split; [exact H|].
      constructor; [split; simpl; auto|].
      constructor; [split; simpl; auto|].
      apply Forall_forall. intros x Hx. apply in_map_iff in Hx.
      destruct Hx as [k [<- Hk]].
      apply sweep_requested_in in Hk. destruct Hk as [o [Ho [<- _]]].
      apply in_first_page in Ho. split; simpl; tauto.
  - exists [CallCleanup d].
    unfold cleanup_old_backups. munfold.
    cbn [fst snd]. rewrite Hc. cbn.
    split; [reflexivity|]. repeat constructor.
Qed.

Lemma emits_backup_one (pe : Pipe) (database : str) (t : Tally) :
  emits_first (CallDump (strip database)) (within cfg (strip database))
              (backup_one cfg pe database t).
Proof.
  unfold backup_one.
  apply emits_first_try_except; [|intros e; repeat emits_step].
  apply emits_first_bind; [apply emits_create_mysql_dump|]. intros f.
  apply emits_bind; [apply emits_upload_to_s3|]. intros k.
  apply emits_bind; [apply emits_cleanup_old_backups|]. intros _.
  repeat emits_step.
Qed.

End Pipeline.

Section Loop.

Variable cfg : Config.

(** One entry is always processed to the end: the handler of the loop
    turns every failure into a detail line. *)
Lemma backup_one_result (pe : Pipe) (database : str) (t : Tally) (w : World) :
  fst (backup_one cfg pe database t w) = Ok (tally_step cfg pe database t).
Proof.
  unfold backup_one, tally_step, detail_line, healthy, first_failure,
    success_line, failure_line.
  set (d := strip database).
  unfold try_except, bind at 1 2 3 4.
  pose proof (create_mysql_dump_result cfg pe d w) as R1.
  pose proof (create_mysql_dump_files cfg pe d w) as F1.
  destruct (create_mysql_dump cfg pe d w) as [[f|e] w1]; cbn [fst snd] in *;
    destruct (dump_failure pe) as [e1|]; try discriminate;
    [|injection R1 as ->; unfold logging_error, bind, ret; cbn;
      rewrite ?Z.add_0_r; reflexivity].
  injection R1 as ->. specialize (F1 eq_refl).
  pose proof (upload_to_s3_result cfg pe _ d w1 F1) as R2.
  pose proof (upload_to_s3_files cfg pe
                (dump_path cfg d (now_dump pe) ++ lit ".gz") d w1) as F2.
  destruct (upload_to_s3 cfg pe _ d w1) as [[k|e] w2]; cbn [fst snd] in *;
    destruct (upload_failure pe) as [e2|]; try discriminate;
    [|injection R2 as ->; unfold logging_error, bind, ret; cbn;
      rewrite ?Z.add_0_r; reflexivity].
  destruct (cleanup_old_backups_frame cfg pe d w2) as (R3 & F3 & _).
  destruct (cleanup_old_backups cfg pe d w2) as [[[]|e] w3];
    cbn [fst snd] in *; try discriminate.
  unfold os_remove, ret, logging_error, bind.
  destruct (remove_error pe) as [e4|]; cbn;
    [rewrite ?Z.add_0_r; reflexivity|].
  rewrite F3, F2, F1. cbn. rewrite ?Z.add_0_r. reflexivity.
Qed.

Lemma backup_loop_result (pipes : nat -> Pipe) :
  forall dbs i t w,
    fst (backup_loop cfg pipes i dbs t w) = Ok (tally_loop cfg pipes i dbs t).
Proof.
  induction dbs as [|database rest IH]; intros i t w; simpl; auto.
  unfold bind.
  pose proof (backup_one_result (pipes i) database t w) as R.
  destruct (backup_one cfg (pipes i) database t w) as [[t'|e] w1];
    cbn [fst] in R; [|discriminate].
  injection R as ->. apply IH.
Qed.

(** The positions of the list are numbered from [i]. *)
Lemma tally_loop_details (pipes : nat -> Pipe) :
  forall dbs i t,
    backup_details (tally_loop cfg pipes i dbs t)
    = backup_details t
      ++ map (fun p => detail_line cfg (pipes (fst p)) (snd p))
             (combine (seq i (List.length dbs)) dbs).
Proof.
  induction dbs as [|database rest IH]; intros i t; simpl.
  - now rewrite app_nil_r.
  - rewrite IH. simpl. rewrite <- app_assoc. reflexivity.
Qed.

Lemma tally_loop_counts (pipes : nat -> Pipe) :
  forall dbs i t,
    let n := List.length dbs in
    let t' := tally_loop cfg pipes i dbs t in
    error_count t' = error_count t + Z.of_nat (failures pipes i n)
    /\ success_count t'
       = success_count t + Z.of_nat n - Z.of_nat (failures pipes i n).
Proof.
  unfold failures.
  induction dbs as [|database rest IH]; intros i t; simpl.
  - lia.
  - destruct (IH (S i) (tally_step cfg (pipes i) database t)) as [E S'].
    rewrite E, S'. simpl.
    destruct (healthy (pipes i)); simpl List.length; lia.
Qed.

Lemma failures_zero (pipes : nat -> Pipe) (i n : nat) :
  failures pipes i n = 0%nat
  <-> forall j, (i <= j < i + n)%nat -> healthy (pipes j) = true.
Proof.
  unfold failures. split.
  - intros H j Hj.
    destruct (healthy (pipes j)) eqn:E; auto.
    assert (In j (filter (fun j => negb (healthy (pipes j))) (seq i n))).
    { apply filter_In. split; [apply in_seq; lia | now rewrite E]. }
    destruct (filter _ _); [contradiction | discriminate].
  - intros H.
    destruct (filter (fun j => negb (healthy (pipes j))) (seq i n))
      as [|j l] eqn:E; auto.
    assert (Hj : In j (filter (fun j => negb (healthy (pipes j))) (seq i n)))
      by (rewrite E; now left).
    apply filter_In in Hj. destruct Hj as [Hj Hn].
    apply in_seq in Hj. rewrite (H j Hj) in Hn. discriminate.
Qed.

End Loop.

(** ** The whole run *)

Section Run.

Variable cfg : Config.

Lemma within_no_dump (d : str) (tr : list Call) :
  Forall (within cfg d) tr -> dumps_of tr = [].
Proof.
  induction 1 as [|c tr [_ Hc] _ IH]; simpl; auto.
  destruct c; simpl in *; try contradiction; exact IH.
Qed.

Lemma from_list_no_notify (dbs : list str) (tr : list Call) :
  Forall (from_list cfg dbs) tr -> notifies_of tr = [].
Proof.
  induction 1 as [|c tr [d [_ Hc]] _ IH]; simpl; auto.
  destruct c; simpl in *; try contradiction; exact IH.
Qed.

Lemma from_list_weaken (d : str) (dbs : list str) (tr : list Call) :
  Forall (from_list cfg dbs) tr -> Forall (from_list cfg (d :: dbs)) tr.
Proof.
  apply Forall_impl. intros c [x [Hx Hc]]. exists x. split; [now right|auto].
Qed.

Lemma backup_loop_trace (pipes : nat -> Pipe) :
  forall dbs i t w, exists tr,
    trace (snd (backup_loop cfg pipes i dbs t w)) = trace w ++ tr
    /\ Forall (from_list cfg dbs) tr
    /\ dumps_of tr = map strip dbs.
Proof.
  induction dbs as [|database rest IH]; intros i t w; simpl.
  - exists []. rewrite app_nil_r. auto.
  - unfold bind.
    destruct (emits_backup_one cfg (pipes i) database t w) as [tr1 [E1 F1]].
    pose proof (backup_one_result cfg (pipes i) database t w) as R.
    destruct (backup_one cfg (pipes i) database t w) as [[t'|e] w1];
      cbn [fst snd] in *; [|discriminate].
    destruct (IH (S i) t' w1) as [tr2 [E2 [F2 D2]]].
    exists (CallDump (strip database) :: tr1 ++ tr2).
    rewrite E2, E1, <- app_assoc. simpl.
    split; [reflexivity|]. split.
    + constructor.
      * exists database. split; [now left | reflexivity].
      * apply Forall_app. split.
        -- revert F1. apply Forall_impl. intros c [Hc _].
           exists database. split; [now left | exact Hc].
        -- apply from_list_weaken, F2.
    + unfold dumps_of in *. simpl. rewrite flat_map_app.
      fold (dumps_of tr1). rewrite (within_no_dump _ _ F1). simpl.
      now rewrite D2.
Qed.

Lemma send_notification_run (re : RunEnv) (subject message : str)
  (is_error : bool) (w : World) :
  let r := send_notification cfg re subject message is_error w in
  fst r = Ok tt
  /\ trace (snd r) = trace w ++ [CallNotify subject is_error]
  /\ files (snd r) = files w
  /\ bucket (snd r) = bucket w.
Proof.
  unfold send_notification, smtp_send. munfold. cbn [fst snd].
  destruct is_error; destruct (smtp re); cbn; repeat split; reflexivity.
Qed.

Lemma run_backup_run (pipes : nat -> Pipe) (re : RunEnv) (w : World) :
  let t := tally_loop cfg pipes 0 (databases cfg) tally0 in
  exists w' tr,
    run_backup cfg pipes re w
    = (Ok (success_count t =? Z.of_nat (List.length (databases cfg))), w')
    /\ trace w'
       = trace w ++ tr ++ [CallNotify (subject_of t) (0 <? error_count t)]
    /\ Forall (from_list cfg (databases cfg)) tr
    /\ dumps_of tr = map strip (databases cfg).
Proof.
  unfold run_backup, subject_of.
  unfold bind. unfold logging_info at 1. cbn [fst snd].
  match goal with
  | |- context [backup_loop cfg pipes 0 (databases cfg) tally0 ?v] =>
    pose proof (backup_loop_result cfg pipes (databases cfg) 0 tally0 v) as R;
    destruct (backup_loop_trace pipes (databases cfg) 0 tally0 v)
      as [tr [E [F D]]];
    destruct (backup_loop cfg pipes 0 (databases cfg) tally0 v) as [[t|e] w1]
  end; cbn [fst snd] in *; [|discriminate].
  injection R as ->.
  set (t := tally_loop cfg pipes 0 (databases cfg) tally0) in *.
  unfold logging_info at 1. cbn [fst snd].
  destruct (0 <? error_count t);
    match goal with
    | |- context [send_notification cfg re ?s ?m ?b ?v] =>
      destruct (send_notification_run re s m b v) as (R1 & T1 & _);
      destruct (send_notification cfg re s m b v) as [[[]|e] w2]
    end; cbn [fst snd] in *; try discriminate; unfold ret;
    exists w2, tr; (split; [reflexivity|]);
    rewrite T1; cbn; rewrite E; cbn; rewrite <- app_assoc; auto.
Qed.

End Run.

(** ** The exit status *)

Lemma success_iff_no_error (cfg : Config) (pipes : nat -> Pipe) :
  let t := tally_loop cfg pipes 0 (databases cfg) tally0 in
  (success_count t =? Z.of_nat (List.length (databases cfg)))
  = (error_count t =? 0).
Proof.
  intros t.
  destruct (tally_loop_counts cfg pipes (databases cfg) 0 tally0) as [E S'].
  fold t in E, S'. simpl in E, S'.
  destruct (error_count t =? 0) eqn:H.
  - apply Z.eqb_eq in H. apply Z.eqb_eq. lia.
  - apply Z.eqb_neq in H. apply Z.eqb_neq. lia.
Qed.

Lemma main_exit (ie : InitEnv) (pipes : nat -> Pipe) (re : RunEnv)
  (w : World) :
  fst (main ie pipes re w)
  = match fst (init ie w) with
    | Raise _ => 1
    | Ok cfg =>
      if error_count (tally_loop cfg pipes 0 (databases cfg) tally0) =? 0
      then 0 else 1
    end.
Proof.
  unfold main, main_body, try_except.
  unfold bind at 1 2.
  destruct (init ie w) as [[cfg|e] w1]; cbn [fst]; [|reflexivity].
  destruct (run_backup_run cfg pipes re w1) as (w2 & tr & E & _).
  rewrite E, success_iff_no_error.
  destruct (error_count _ =? 0); reflexivity.
Qed.

(** [C3] The exit status of the process is 0 exactly when the manager
    could be constructed and no entry of the database list failed, that
    is when the error count of the run is zero; it is 1 in every other
    case: when at least one entry failed, and when the construction of
    the manager raised before the loop started.  The error count is zero
    exactly when every entry went through all its steps. *)
Theorem exit_code_reflects_failures (ie : InitEnv) (pipes : nat -> Pipe)
  (re : RunEnv) (w : World) :
  let code := fst (main ie pipes re w) in
  match init ie w with
  | (Raise _, _) => code = 1
  | (Ok cfg, w1) =>
    exists t,
      (forall v, fst (backup_loop cfg pipes 0 (databases cfg) tally0 v) = Ok t)
      /\ (code = 0 <-> error_count t = 0)
      /\ (code = 1 <-> error_count t <> 0)
      /\ (error_count t = 0 <->
          forall i, (i < List.length (databases cfg))%nat ->
                    healthy (pipes i) = true)
  end.
Proof.
  intros code. subst code. rewrite main_exit.
  destruct (init ie w) as [[cfg|e] w1]; cbn [fst]; [|reflexivity].
  exists (tally_loop cfg pipes 0 (databases cfg) tally0).
  split; [intros v; apply backup_loop_result|].
  destruct (tally_loop_counts cfg pipes (databases cfg) 0 tally0) as [E _].
  cbn zeta in E. simpl error_count at 2 in E.
  set (t := tally_loop cfg pipes 0 (databases cfg) tally0) in *.
  assert (Hz : error_count t = 0 <->
               forall i, (i < List.length (databases cfg))%nat ->
                         healthy (pipes i) = true).
  { rewrite E. split.
    - intros H i Hi.
      apply (proj1 (failures_zero pipes 0 (List.length (databases cfg))));
        lia.
    - intros H.
      rewrite (proj2 (failures_zero pipes 0 (List.length (databases cfg))));
        [reflexivity|].
      intros j Hj. apply H. lia. }
  destruct (error_count t =? 0) eqn:H.
  - apply Z.eqb_eq in H.
    split; [tauto|]. split; [|exact Hz].
    split; [discriminate | intros; contradiction].
  - apply Z.eqb_neq in H.
    split; [split; [discriminate | intros; contradiction]|].
    split; [tauto | exact Hz].
Qed.

(** ** Isolation of the entries of the list *)

Lemma nth_error_details (cfg : Config) (pipes : nat -> Pipe) :
  forall dbs i0 t i d,
    nth_error dbs i = Some d ->
    nth_error (backup_details (tally_loop cfg pipes i0 dbs t))
              (List.length (backup_details t) + i)
    = Some (detail_line cfg (pipes (i0 + i)%nat) d).
Proof.
  induction dbs as [|x rest IH]; intros i0 t i d H.
  - destruct i; discriminate.
  - destruct i as [|i]; simpl in *.
    + injection H as ->.
      rewrite tally_loop_details. simpl.
      rewrite <- app_assoc, !Nat.add_0_r.
      rewrite nth_error_app2 by lia. rewrite Nat.sub_diag. reflexivity.
    + specialize (IH (S i0) (tally_step cfg (pipes i0) x t) i d H).
      simpl in IH. rewrite length_app in IH. simpl in IH.
      replace (List.length (backup_details t) + S i)%nat
        with (List.length (backup_details t) + 1 + i)%nat by lia.
      replace (i0 + S i)%nat with (S i0 + i)%nat by lia.
      exact IH.
Qed.

(** [C2] Whatever the outside answers for each entry of the database
    list, the loop of [run_backup] returns normally after the last entry:
    it has started the pipeline of every entry, in order, it holds
    exactly one detail line per entry, and the line of an entry depends
    only on what the outside answered for that entry; an entry whose
    steps all succeed gets its success line whatever happened to the
    entries before and after it.  Successes and failures add up to the
    length of the list, the failures being the entries with a failing
    step. *)
Theorem failures_are_isolated (cfg : Config) (pipes : nat -> Pipe)
  (dbs : list str) (w : World) :
  exists t w' tr,
    backup_loop cfg pipes 0 dbs tally0 w = (Ok t, w')
    /\ trace w' = trace w ++ tr
    /\ dumps_of tr = map strip dbs
    /\ List.length (backup_details t) = List.length dbs
    /\ success_count t + error_count t = Z.of_nat (List.length dbs)
    /\ error_count t = Z.of_nat (failures pipes 0 (List.length dbs))
    /\ forall i d,
         nth_error dbs i = Some d ->
         nth_error (backup_details t) i = Some (detail_line cfg (pipes i) d)
         /\ (healthy (pipes i) = true ->
             nth_error (backup_details t) i
             = Some (success_line cfg (pipes i) d)).
Proof.
  pose proof (backup_loop_result cfg pipes dbs 0 tally0 w) as R.
  destruct (backup_loop_trace cfg pipes dbs 0 tally0 w) as [tr [E [_ D]]].
  destruct (backup_loop cfg pipes 0 dbs tally0 w) as [[t|e] w'];
    cbn [fst snd] in *; [|discriminate].
  injection R as ->.
  exists (tally_loop cfg pipes 0 dbs tally0), w', tr.
  destruct (tally_loop_counts cfg pipes dbs 0 tally0) as [Ec Sc].
  cbn zeta in Ec, Sc. simpl in Ec, Sc.
  repeat split; auto.
  - rewrite tally_loop_details. simpl.
    rewrite length_map, length_combine, length_seq. lia.
  - lia.
  - apply (nth_error_details cfg pipes dbs 0 tally0 i d H).
  - intros Hh.
    pose proof (nth_error_details cfg pipes dbs 0 tally0 i d H) as N.
    simpl in N. rewrite N.
    unfold detail_line. unfold healthy in Hh.
    destruct (first_failure (pipes i)); [discriminate | reflexivity].
Qed.

(** ** The notification *)

(** [C7] In every run the notifier is entered exactly once, after the
    loop, with the error flag set exactly when the error count of the run
    is positive.  Whether the message can be sent has no influence on
    the value [run_backup] returns nor on the exit status: both are the
    same for every answer of the SMTP server, and are decided by the
    error count alone. *)
Theorem notifier_called_once (cfg : Config) (pipes : nat -> Pipe)
  (re : RunEnv) (w : World) :
  exists t w' tr,
    (forall v, fst (backup_loop cfg pipes 0 (databases cfg) tally0 v) = Ok t)
    /\ run_backup cfg pipes re w = (Ok (error_count t =? 0), w')
    /\ trace w' = trace w ++ tr
    /\ notifies_of tr = [(subject_of t, 0 <? error_count t)]
    /\ (forall re', fst (run_backup cfg pipes re' w)
                    = fst (run_backup cfg pipes re w))
    /\ (forall ie re', fst (main ie pipes re' w) = fst (main ie pipes re w)).
Proof.
  destruct (run_backup_run cfg pipes re w) as (w' & tr & E & T & F & _).
  exists (tally_loop cfg pipes 0 (databases cfg) tally0), w'.
  eexists. split; [intros v; apply backup_loop_result|].
  rewrite success_iff_no_error in E.
  split; [exact E|]. split; [exact T|]. split.
  - unfold notifies_of. rewrite flat_map_app. simpl.
    fold (notifies_of tr). rewrite (from_list_no_notify cfg _ _ F).
    reflexivity.
  - split.
    + intros re'.
      destruct (run_backup_run cfg pipes re' w) as (w2 & tr2 & E2 & _).
      rewrite E2, E, success_iff_no_error. reflexivity.
    + intros ie re'. rewrite !main_exit. reflexivity.
Qed.

(** ** The retention rule *)

Lemma skipn_length_app {X} (a b : list X) :
  skipn (List.length a) (a ++ b) = b.
Proof. induction a; simpl; auto. Qed.

Lemma delete_requests_map (ks : list str) :
  delete_requests (map ReqDelete ks) = ks.
Proof. induction ks; simpl; congruence. Qed.

Lemma cutoff_ok (now : datetime) (days : Z) (c : datetime) :
  cutoff now days = Ok c -> c = now - days * us_per_day.
Proof.
  unfold cutoff, timedelta_days, datetime_sub.
  destruct (Z.abs days <=? max_delta_days); [|discriminate].
  destruct (in_range (now - days * us_per_day)); [|discriminate].
  congruence.
Qed.

(** With a window that is not negative, the cut-off date can only fail
    to exist by lying before the year 1. *)
Lemma cutoff_raise (now : datetime) (days : Z) (e : str) :
  in_range now = true -> 0 <= days ->
  cutoff now days = Raise e -> now - days * us_per_day < 0.
Proof.
  unfold cutoff, timedelta_days, datetime_sub, in_range.
  unfold max_delta_days, max_ordinal, us_per_day, us_per_second.
  intros Hn Hd.
  apply andb_true_iff in Hn. destruct Hn as [Hn0 Hn1].
  apply Z.leb_le in Hn0. apply Z.ltb_lt in Hn1.
  destruct (Z.abs days <=? 999999999) eqn:Ha.
  - destruct ((0 <=? now - days * (86400 * 1000000))
              && (now - days * (86400 * 1000000)
                  <? 3652059 * (86400 * 1000000))) eqn:Hr;
      [discriminate|].
    intros _. apply andb_false_iff in Hr. destruct Hr as [Hr|Hr].
    + apply Z.leb_gt in Hr. exact Hr.
    + apply Z.ltb_ge in Hr. lia.
  - intros _. apply Z.leb_gt in Ha. lia.
Qed.

Lemma key_unique (b : list RemoteObject) (o o' : RemoteObject) :
  NoDup (map Key b) -> In o b -> In o' b -> Key o = Key o' -> o = o'.
Proof.
  induction b as [|x b IH]; simpl; [tauto|].
  intros Hn [->|Ho] [->|Ho'] Hk; auto; inversion Hn; subst.
  - exfalso. apply H1. rewrite Hk. now apply in_map.
  - exfalso. apply H1. rewrite <- Hk. now apply in_map.
  - auto.
Qed.

Section Retention.

Variable cfg : Config.

(** When the cut-off date cannot be computed or the listing fails, the
    step deletes nothing. *)
Lemma cleanup_old_backups_skipped (pe : Pipe) (database : str) (w : World) :
  (exists e, cutoff (now_cleanup pe) (retention_days cfg) = Raise e)
  \/ (exists e, list_error pe = Some e) ->
  let w' := snd (cleanup_old_backups cfg pe database w) in
  bucket w' = bucket w
  /\ delete_requests (trace w') = delete_requests (trace w).
Proof.
  intros H.
  unfold cleanup_old_backups, list_objects_v2. munfold. cbn [fst snd].
  destruct (cutoff (now_cleanup pe) (retention_days cfg)) as [c|e];
    [|cbn; unfold delete_requests; rewrite flat_map_app, app_nil_r; auto].
  destruct H as [[e H]|[e H]]; [discriminate|].
  rewrite H. cbn. unfold delete_requests.
  rewrite !flat_map_app, !app_nil_r; auto.
Qed.

Lemma selected_listed (pe : Pipe) (database : str) (w : World) (c : datetime) :
  cutoff (now_cleanup pe) (retention_days cfg) = Ok c ->
  list_error pe = None ->
  selected cfg pe database w
  = requested (sweep pe c (first_page (retention_prefix database) (bucket w))).
Proof.
  intros Hc Hl. unfold selected.
  destruct (cleanup_old_backups_listed cfg pe database w c Hc Hl) as (T & _).
  cbn zeta in T. rewrite T.
  unfold delete_requests. rewrite flat_map_app. simpl.
  fold (delete_requests (trace w)).
  fold (delete_requests
          (map ReqDelete
               (requested (sweep pe c (first_page (retention_prefix database)
                                                  (bucket w)))))).
  rewrite delete_requests_map. apply skipn_length_app.
Qed.

Lemma selected_skipped (pe : Pipe) (database : str) (w : World) :
  (exists e, cutoff (now_cleanup pe) (retention_days cfg) = Raise e)
  \/ (exists e, list_error pe = Some e) ->
  selected cfg pe database w = [].
Proof.
  intros H. unfold selected.
  destruct (cleanup_old_backups_skipped pe database w H) as [_ D].
  cbn zeta in D. rewrite D. apply skipn_all.
Qed.

End Retention.

(** The test of the loop, read as a condition on the difference of the
    clock and the stamp of the object. *)
Lemma is_old_iff_age (pe : Pipe) (days : Z) (c : datetime) (o : RemoteObject) :
  cutoff (now_cleanup pe) days = Ok c ->
  is_old c o = true <-> days * us_per_day < apparent_age pe o.
Proof.
  intros Hc. apply cutoff_ok in Hc. subst c.
  unfold is_old, apparent_age. rewrite Z.ltb_lt. lia.
Qed.

(** [C1, as the code has it] The retention step for a database, with a
    retention window of [W >= 0] days, compares with the window the
    difference [apparent_age] of the host's local clock and the time
    stamp of the object read without its time zone, which is the age of
    the object when the host's clock shows UTC.  In every run and for
    every object of a bucket with one object for a key, a delete request
    for the object is sent only if that difference exceeds [W] days
    strictly, and an object for which the difference is at most [W] days
    -- in particular exactly [W] days -- is still in the bucket
    afterwards.  For an object of the listing the step obtained, when
    the listing and the deletes succeed, the object is selected if and
    only if the difference exceeds [W] days, and it is retained if and
    only if the difference is at most [W] days.  The time stamps are
    those Python's [datetime] holds: the clock is in its range and the
    stamp is not before the year 1. *)
Theorem retention_is_strict (cfg : Config) (pe : Pipe) (database : str)
  (w : World) (o : RemoteObject) :
  let W := retention_days cfg in
  let w' := snd (cleanup_old_backups cfg pe database w) in
  in_range (now_cleanup pe) = true ->
  0 <= LastModified o ->
  0 <= W ->
  NoDup (map Key (bucket w)) ->
  In o (bucket w) ->
  (In (Key o) (selected cfg pe database w) -> W * us_per_day < apparent_age pe o)
  /\ (apparent_age pe o <= W * us_per_day -> In o (bucket w'))
  /\ (In o (first_page (retention_prefix database) (bucket w)) ->
      list_error pe = None -> (forall k, delete_error pe k = None) ->
      (In (Key o) (selected cfg pe database w) <-> W * us_per_day < apparent_age pe o)
      /\ (In o (bucket w') <-> apparent_age pe o <= W * us_per_day)).
Proof.
  intros W w' Hnow Hlm HW Hnd Hb. subst W w'.
  destruct (cutoff (now_cleanup pe) (retention_days cfg)) as [c|e] eqn:Hc.
  - pose proof (is_old_iff_age pe _ c o Hc) as Hold.
    destruct (list_error pe) as [e|] eqn:Hl.
    + rewrite (selected_skipped cfg pe database w) by (right; eauto).
      destruct (cleanup_old_backups_skipped cfg pe database w) as [B _];
        [right; eauto|]. cbn zeta in B. rewrite B.
      split; [intros []|]. split; [auto | discriminate].
    + rewrite (selected_listed cfg pe database w c Hc Hl).
      destruct (cleanup_old_backups_listed cfg pe database w c Hc Hl)
        as (_ & B & _). cbn zeta in B. rewrite B.
      set (page := first_page (retention_prefix database) (bucket w)) in *.
      assert (Hsel : In (Key o) (requested (sweep pe c page)) ->
                     retention_days cfg * us_per_day < apparent_age pe o).
      { intros Hk. apply sweep_requested_in in Hk.
        destruct Hk as [o' [Ho' [Hk Ho'old]]].
        pose proof (in_first_page _ _ _ Ho') as [Hb' _].
        rewrite (key_unique _ _ _ Hnd Hb Hb' (eq_sym Hk)).
        apply (is_old_iff_age pe _ c o' Hc). exact Ho'old. }
      assert (Hkeep : apparent_age pe o <= retention_days cfg * us_per_day ->
                      In o (remove_objects (fst (sweep pe c page)) (bucket w))).
      { intros Ha. apply in_remove_objects. split; [exact Hb|].
        intros Hk. assert (In (Key o) (requested (sweep pe c page))).
        { unfold requested. apply in_or_app. now left. }
        apply Hsel in H. lia. }
      split; [exact Hsel|]. split; [exact Hkeep|].
      intros Hin _ Hd. rewrite (sweep_all pe c page Hd) in *.
      unfold requested in *. cbn [fst snd] in *. rewrite app_nil_r in *.
      assert (Hall : retention_days cfg * us_per_day < apparent_age pe o ->
                     In (Key o) (map Key (filter (is_old c) page))).
      { intros Ha. apply in_map. apply filter_In. split; [exact Hin|].
        apply Hold. exact Ha. }
      split; [split; auto|].
      split; [|exact Hkeep].
      intros Ho. apply in_remove_objects in Ho. destruct Ho as [_ Hn].
      destruct (Z_le_gt_dec (apparent_age pe o) (retention_days cfg * us_per_day));
        [assumption|].
      exfalso. apply Hn, Hall. lia.
  - pose proof (cutoff_raise _ _ _ Hnow HW Hc) as Hneg.
    rewrite (selected_skipped cfg pe database w) by (left; eauto).
    destruct (cleanup_old_backups_skipped cfg pe database w) as [B _];
      [left; eauto|]. cbn zeta in B. rewrite B.
    unfold apparent_age.
    split; [intros []|]. split; [auto|].
    intros _ _ _. split; [split; [intros [] | lia] | split; [lia | auto]].
Qed.

Lemma retention_is_strict_witness :
  let o := Fixture.obj "mysql_backups/orders/orders_20240101_020000.sql.gz"
                       (mk_datetime 2024 1 1 2 0 0 0) in
  In (Key o) (selected Fixture.cfg0 Fixture.fine (lit "orders") Fixture.w1)
  <-> 30 * us_per_day < apparent_age Fixture.fine o.
Proof.
  intros o.
  refine (proj1 (proj2 (proj2
            (retention_is_strict Fixture.cfg0 Fixture.fine (lit "orders")
                                 Fixture.w1 o _ _ _ _ _))
            _ eq_refl (fun _ => eq_refl))).
  - reflexivity.
  - vm_compute; discriminate.
  - vm_compute; discriminate.
  - repeat constructor; vm_compute; intuition discriminate.
  - vm_compute. left. reflexivity.
  - vm_compute. left. reflexivity.
Defined.

(** The scenario of a 30 day window on 2024-03-01: the backup of
    2024-01-01 is selected and the one of 2024-02-05 is kept; a backup
    that is exactly 30 days old is kept as well. *)
Example retention_scenario :
  selected Fixture.cfg0 Fixture.fine (lit "orders") Fixture.w1
  = [lit "mysql_backups/orders/orders_20240101_020000.sql.gz"]
  /\ map Key (bucket (snd (cleanup_old_backups Fixture.cfg0 Fixture.fine
                             (lit "orders") Fixture.w1)))
     = [lit "mysql_backups/orders/orders_20240205_020000.sql.gz"]
  /\ selected Fixture.cfg0 Fixture.fine (lit "orders")
       (set_bucket [Fixture.obj "mysql_backups/orders/a.sql.gz"
                      (Fixture.t_run - 30 * us_per_day);
                    Fixture.obj "mysql_backups/orders/b.sql.gz"
                      (Fixture.t_run - 30 * us_per_day - 1)] Fixture.w0)
     = [lit "mysql_backups/orders/b.sql.gz"].
Proof. split; [|split]; vm_compute; reflexivity. Qed.

(** ** The listing behind the retention step *)

Lemma list_requests_map_delete (ks : list str) :
  list_requests (map ReqDelete ks) = [].
Proof. induction ks; simpl; auto. Qed.

Lemma existsb_str_false (k : str) (l : list str) :
  existsb (str_eqb k) l = false -> ~ In k l.
Proof.
  intros H Hin.
  assert (E : existsb (str_eqb k) l = true).
  { apply existsb_exists. exists k. split; [exact Hin | apply str_eqb_refl]. }
  congruence.
Qed.

Lemma str_ltb_irrefl (a : str) : str_ltb a a = false.
Proof.
  induction a as [|x a IH]; simpl; auto.
  now rewrite N.ltb_irrefl.
Qed.

Lemma str_ltb_trans (a b c : str) :
  str_ltb a b = true -> str_ltb b c = true -> str_ltb a c = true.
Proof.
  revert b c. induction a as [|x a IH]; intros [|y b] [|z c]; simpl; auto;
    try discriminate.
  destruct (x <? y)%N eqn:Exy.
  - intros _. apply N.ltb_lt in Exy.
    destruct (y <? z)%N eqn:Eyz.
    + intros _. apply N.ltb_lt in Eyz.
      assert (H : (x <? z)%N = true) by (apply N.ltb_lt; lia).
      now rewrite H.
    + destruct (z <? y)%N eqn:Ezy; [discriminate|].
      apply N.ltb_ge in Eyz, Ezy.
      assert (H : (x <? z)%N = true) by (apply N.ltb_lt; lia).
      now rewrite H.
  - destruct (y <? x)%N eqn:Eyx; [discriminate|].
    apply N.ltb_ge in Exy, Eyx. assert (x = y) by lia. subst y.
    intros Hab.
    destruct (x <? z)%N; auto.
    destruct (z <? x)%N; auto.
    apply IH. exact Hab.
Qed.

(** Keys in strictly increasing order are distinct. *)
Lemma key_sorted_NoDup (ks : list str) : key_sorted ks = true -> NoDup ks.
Proof.
  assert (H : forall ks k, key_sorted (k :: ks) = true ->
                           Forall (fun k' => str_ltb k k' = true) ks).
  { induction ks0 as [|k' ks0 IH]; intros k Hk; constructor.
    - simpl in Hk. apply andb_true_iff in Hk. tauto.
    - simpl in Hk. apply andb_true_iff in Hk. destruct Hk as [Hk Hs].
      specialize (IH k' Hs). revert IH. apply Forall_impl.
      intros x Hx. exact (str_ltb_trans _ _ _ Hk Hx). }
  induction ks as [|k ks IH]; intros Hs; constructor.
  - intros Hin. pose proof (H ks k Hs) as F.
    rewrite Forall_forall in F. specialize (F k Hin).
    rewrite str_ltb_irrefl in F. discriminate.
  - apply IH. destruct ks as [|k' ks]; auto.
    simpl in Hs. apply andb_true_iff in Hs. tauto.
Qed.

Lemma list_requests_app (a b : list Call) :
  list_requests (a ++ b) = list_requests a ++ list_requests b.
Proof. unfold list_requests. apply flat_map_app. Qed.

(** The retention step sends its one list request once the cut-off date
    is computed, and none when it is not. *)
Lemma listings_run (cfg : Config) (pe : Pipe) (database : str) (w : World) :
  listings cfg pe database w
  = match cutoff (now_cleanup pe) (retention_days cfg) with
    | Ok _ => [retention_prefix database]
    | Raise _ => []
    end.
Proof.
  unfold listings.
  destruct (cutoff (now_cleanup pe) (retention_days cfg)) as [c|e] eqn:Hc.
  - destruct (list_error pe) as [e|] eqn:Hl.
    + unfold cleanup_old_backups, list_objects_v2. munfold.
      cbn [fst snd]. rewrite Hc, Hl. cbn.
      rewrite !list_requests_app. cbn. rewrite app_nil_r.
      apply skipn_length_app.
    + destruct (cleanup_old_backups_listed cfg pe database w c Hc Hl)
        as (T & _). cbn zeta in T. rewrite T.
      rewrite list_requests_app. cbn.
      fold (list_requests
              (map ReqDelete
                   (requested (sweep pe c (first_page (retention_prefix database)
                                                      (bucket w)))))).
      rewrite list_requests_map_delete. apply skipn_length_app.
  - unfold cleanup_old_backups. munfold.
    cbn [fst snd]. rewrite Hc. cbn.
    rewrite !list_requests_app. cbn. rewrite !app_nil_r.
    apply skipn_all.
Qed.

(** The bucket with 1001 old backups of [orders]: its keys are distinct,
    the cut-off date of a 30 day window on 2024-03-01 is 2024-01-31, and
    the last object is not in the first page of the listing. *)
Lemma crowded_keys_distinct : NoDup (map Key Fixture.crowded).
Proof. apply key_sorted_NoDup. vm_compute. reflexivity. Qed.

Lemma crowded_last_in_bucket : In (Fixture.numbered 1000) Fixture.crowded.
Proof.
  unfold Fixture.crowded. apply in_map. apply in_seq.
  split; [apply Nat.le_0_l | apply Nat.ltb_lt; vm_compute; reflexivity].
Qed.

Lemma cutoff_of_fixture :
  cutoff (now_cleanup Fixture.fine) (retention_days Fixture.cfg0)
  = Ok (Fixture.t_run - 30 * us_per_day).
Proof. vm_compute. reflexivity. Qed.

Lemma crowded_last_not_listed :
  ~ In (Key (Fixture.numbered 1000))
       (map Key (first_page (retention_prefix (lit "orders"))
                            Fixture.crowded)).
Proof. apply existsb_str_false. vm_compute. reflexivity. Qed.

(** [C9, as the code has it] The retention step sends at most one list
    request, for the prefix of the database: exactly one when the cut-off
    date can be computed, whatever the listing and the deletes answer,
    and none when it cannot.  It reads the single response it gets, which
    holds at most [max_keys] objects, all of the bucket and under the
    prefix.  In a bucket with one object for a key, in every run, a
    delete request is sent for an object only if the object is in that
    first page and older than the cut-off date, and every other object
    stays in the bucket, whether its key begins with the prefix or not;
    when the listing and the deletes succeed, the objects selected, and
    the objects removed, are exactly the objects of the first page that
    are older than the cut-off date. *)
Theorem retention_reads_one_page (cfg : Config) (pe : Pipe) (database : str)
  (w : World) :
  let prefix := retention_prefix database in
  let page := first_page prefix (bucket w) in
  let w' := snd (cleanup_old_backups cfg pe database w) in
  let old_in_page (o : RemoteObject) :=
    match cutoff (now_cleanup pe) (retention_days cfg) with
    | Ok c => In o page /\ is_old c o = true
    | Raise _ => False
    end in
  listings cfg pe database w
  = match cutoff (now_cleanup pe) (retention_days cfg) with
    | Ok _ => [prefix]
    | Raise _ => []
    end
  /\ (List.length page <= max_keys)%nat
  /\ (forall x, In x page ->
                In x (bucket w) /\ startswith (Key x) prefix = true)
  /\ (NoDup (map Key (bucket w)) ->
      forall o, In o (bucket w) ->
        (In (Key o) (selected cfg pe database w) -> old_in_page o)
        /\ (~ old_in_page o -> In o (bucket w'))
        /\ (list_error pe = None -> (forall k, delete_error pe k = None) ->
            (In (Key o) (selected cfg pe database w) <-> old_in_page o)
            /\ (In o (bucket w') <-> ~ old_in_page o))).
Proof.
  intros prefix page w' old_in_page. subst w' old_in_page. cbv beta.
  split; [apply listings_run|].
  split; [unfold page, first_page; rewrite length_firstn; apply Nat.le_min_l|].
  split; [intros x; apply in_first_page|].
  intros Hnd o Hb.
  destruct (cutoff (now_cleanup pe) (retention_days cfg)) as [c|e] eqn:Hc.
  - destruct (list_error pe) as [e|] eqn:Hl.
    + rewrite (selected_skipped cfg pe database w) by (right; eauto).
      destruct (cleanup_old_backups_skipped cfg pe database w) as [B _];
        [right; eauto|]. cbn zeta in B. rewrite B.
      split; [intros []|]. split; [auto | discriminate].
    + rewrite (selected_listed cfg pe database w c Hc Hl).
      destruct (cleanup_old_backups_listed cfg pe database w c Hc Hl)
        as (_ & B & _). cbn zeta in B. rewrite B. fold prefix page.
      assert (Hsel : In (Key o) (requested (sweep pe c page)) ->
                     In o page /\ is_old c o = true).
      { intros Hk. apply sweep_requested_in in Hk.
        destruct Hk as [o' [Ho' [Hk Ho'old]]].
        pose proof (in_first_page _ _ _ Ho') as [Hb' _].
        rewrite (key_unique _ _ _ Hnd Hb Hb' (eq_sym Hk)). auto. }
      assert (Hkeep : ~ (In o page /\ is_old c o = true) ->
                      In o (remove_objects (fst (sweep pe c page)) (bucket w))).
      { intros Hn. apply in_remove_objects. split; [exact Hb|].
        intros Hk. apply Hn, Hsel. unfold requested.
        apply in_or_app. now left. }
      split; [exact Hsel|]. split; [exact Hkeep|].
      intros _ Hd. rewrite (sweep_all pe c page Hd) in *.
      unfold requested in *. cbn [fst snd] in *. rewrite app_nil_r in *.
      assert (Hall : In o page /\ is_old c o = true ->
                     In (Key o) (map Key (filter (is_old c) page))).
      { intros [Hp Hold]. apply in_map. apply filter_In. auto. }
      split; [split; auto|].
      split; [|exact Hkeep].
      intros Ho. apply in_remove_objects in Ho. destruct Ho as [_ Hn].
      intros Hp. apply Hn, Hall, Hp.
  - rewrite (selected_skipped cfg pe database w) by (left; eauto).
    destruct (cleanup_old_backups_skipped cfg pe database w) as [B _];
      [left; eauto|]. cbn zeta in B. rewrite B.
    split; [intros []|]. split; [auto|].
    intros _ _. split; [tauto | tauto].
Qed.

(** In the bucket with 1001 old backups of [orders] one list request is
    sent, and the last backup, which the response does not hold, stays. *)
Lemma retention_reads_one_page_witness :
  let w := set_bucket Fixture.crowded Fixture.w0 in
  let o := Fixture.numbered 1000 in
  listings Fixture.cfg0 Fixture.fine (lit "orders") w
  = [retention_prefix (lit "orders")]
  /\ In o (bucket (snd (cleanup_old_backups Fixture.cfg0 Fixture.fine
                          (lit "orders") w))).
Proof.
  intros w o.
  pose proof (retention_reads_one_page Fixture.cfg0 Fixture.fine
                (lit "orders") w) as H.
  cbv beta zeta in H. rewrite cutoff_of_fixture in H.
  destruct H as (Hl & _ & _ & H).
  split; [exact Hl|].
  destruct (H crowded_keys_distinct o crowded_last_in_bucket)
    as (_ & Hk & _).
  apply Hk. intros [Hp _]. apply crowded_last_not_listed.
  apply in_map. exact Hp.
Defined.

(** When the listing and every delete succeed, the step deletes the old
    objects of the first page and nothing else. *)
Lemma cleanup_old_backups_all (cfg : Config) (pe : Pipe) (database : str)
  (w : World) (c : datetime) :
  cutoff (now_cleanup pe) (retention_days cfg) = Ok c ->
  list_error pe = None ->
  (forall k, delete_error pe k = None) ->
  let old := map Key (filter (is_old c)
                        (first_page (retention_prefix database) (bucket w))) in
  selected cfg pe database w = old
  /\ bucket (snd (cleanup_old_backups cfg pe database w))
     = remove_objects old (bucket w).
Proof.
  intros Hc Hl Hd old.
  destruct (cleanup_old_backups_listed cfg pe database w c Hc Hl)
    as (_ & B & _). cbn zeta in B.
  rewrite (selected_listed cfg pe database w c Hc Hl), B.
  rewrite (sweep_all pe c _ Hd). unfold requested. cbn [fst snd].
  rewrite app_nil_r. split; reflexivity.
Qed.

(** [C9, as stated, fails] With 1001 old backups under the prefix of
    [orders], the single response is truncated after 1000 objects: the
    last object is under the prefix and far older than the window, the
    listing and every delete succeed, yet the object is neither selected
    nor removed. *)
Lemma later_pages_are_not_examined :
  let w := set_bucket Fixture.crowded Fixture.w0 in
  let o := Fixture.numbered 1000 in
  let w' := snd (cleanup_old_backups Fixture.cfg0 Fixture.fine
                   (lit "orders") w) in
  In o (bucket w)
  /\ startswith (Key o) (retention_prefix (lit "orders")) = true
  /\ retention_days Fixture.cfg0 * us_per_day < apparent_age Fixture.fine o
  /\ IsTruncated (list_response (retention_prefix (lit "orders")) (bucket w))
     = true
  /\ ~ In (Key o) (selected Fixture.cfg0 Fixture.fine (lit "orders") w)
  /\ In o (bucket w').
Proof.
  intros w o w'.
  pose proof crowded_last_in_bucket as Hb.
  assert (Hn : ~ In (Key o)
                 (map Key
                    (filter (is_old (Fixture.t_run - 30 * us_per_day))
                       (first_page (retention_prefix (lit "orders"))
                                   (bucket w))))).
  { apply existsb_str_false. vm_compute. reflexivity. }
  destruct (cleanup_old_backups_all Fixture.cfg0 Fixture.fine (lit "orders")
              w _ cutoff_of_fixture eq_refl (fun _ => eq_refl)) as [S B].
  split; [exact Hb|].
  split; [vm_compute; reflexivity|].
  split; [vm_compute; reflexivity|].
  split; [vm_compute; reflexivity|].
  split.
  - exact (eq_ind_r (fun l => ~ In (Key o) l) Hn S).
  - refine (eq_ind_r (fun b => In o b) _ B).
    exact (proj2 (in_remove_objects _ _ _) (conj Hb Hn)).
Qed.

(** ** Where the rule of the retention step does not hold *)

(** [C1, as stated, fails] Five runs of the retention step for [orders]
    with a window of 30 days on 2024-03-01 02:00, except where said.

    - The bucket holds the backups of 2023-12-01 and of 2024-01-01 and
      the delete of the first is refused: the listing succeeds and holds
      the second, which is 60 days old, yet the only delete request is
      the refused one, and both objects stay.
    - The bucket holds 1001 backups of 2023-01-01: the listing and every
      delete succeed, yet the last object, which is under the prefix, is
      neither selected nor removed.
    - The listing fails: nothing is selected.
    - The window is of -3000000 days: the cut-off date is beyond the
      year 9999, and nothing is selected, although the difference of the
      clock and the stamp of every object exceeds the window.
    - The host reads its clock one hour after the clock of the store:
      the backup that the store stamped on 2024-01-31 02:30 is less than
      30 days old until half an hour after the upload of the entry, yet
      it is selected and removed. *)
Lemma expired_objects_are_kept :
  (* a delete is refused *)
  (let pe := Fixture.with_delete_error Fixture.refused Fixture.fine in
   let w := set_bucket Fixture.stale Fixture.w0 in
   let o := Fixture.obj "mysql_backups/orders/orders_20240101_020000.sql.gz"
                        (mk_datetime 2024 1 1 2 0 0 0) in
   let w' := snd (cleanup_old_backups Fixture.cfg0 pe (lit "orders") w) in
   In o (first_page (retention_prefix (lit "orders")) (bucket w))
   /\ list_error pe = None
   /\ retention_days Fixture.cfg0 * us_per_day < apparent_age pe o
   /\ selected Fixture.cfg0 pe (lit "orders") w
      = [lit "mysql_backups/orders/orders_20231201_020000.sql.gz"]
   /\ bucket w' = bucket w)
  (* the object is beyond the first page of the listing *)
  /\ (let w := set_bucket Fixture.crowded Fixture.w0 in
      let o := Fixture.numbered 1000 in
      let w' := snd (cleanup_old_backups Fixture.cfg0 Fixture.fine
                       (lit "orders") w) in
      In o (bucket w)
      /\ startswith (Key o) (retention_prefix (lit "orders")) = true
      /\ list_error Fixture.fine = None
      /\ (forall k, delete_error Fixture.fine k = None)
      /\ retention_days Fixture.cfg0 * us_per_day
         < apparent_age Fixture.fine o
      /\ ~ In (Key o) (selected Fixture.cfg0 Fixture.fine (lit "orders") w)
      /\ In o (bucket w'))
  (* the listing fails *)
  /\ (let pe := Fixture.with_list_error (Some (lit "SlowDown")) Fixture.fine in
      let o := Fixture.obj "mysql_backups/orders/orders_20240101_020000.sql.gz"
                           (mk_datetime 2024 1 1 2 0 0 0) in
      let w' := snd (cleanup_old_backups Fixture.cfg0 pe (lit "orders")
                       Fixture.w1) in
      In o (bucket Fixture.w1)
      /\ retention_days Fixture.cfg0 * us_per_day < apparent_age pe o
      /\ selected Fixture.cfg0 pe (lit "orders") Fixture.w1 = []
      /\ bucket w' = bucket Fixture.w1)
  (* the window is negative and the cut-off date beyond the year 9999 *)
  /\ (let cfg := with_retention (-3000000) Fixture.cfg0 in
      let o := Fixture.obj "mysql_backups/orders/orders_20240101_020000.sql.gz"
                           (mk_datetime 2024 1 1 2 0 0 0) in
      let w' := snd (cleanup_old_backups cfg Fixture.fine (lit "orders")
                       Fixture.w1) in
      In o (bucket Fixture.w1)
      /\ retention_days cfg * us_per_day < apparent_age Fixture.fine o
      /\ selected cfg Fixture.fine (lit "orders") Fixture.w1 = []
      /\ bucket w' = bucket Fixture.w1)
  (* the clock of the host is one hour ahead of the clock of the store *)
  /\ (let pe := ahead Fixture.fine in
      let w := set_bucket [Fixture.recent] Fixture.w0 in
      let w' := snd (cleanup_old_backups Fixture.cfg0 pe (lit "orders") w) in
      now_cleanup pe = upload_time pe + 3600 * us_per_second
      /\ (forall u, u <= upload_time pe + 1800 * us_per_second ->
                    age_at u Fixture.recent
                    <= retention_days Fixture.cfg0 * us_per_day)
      /\ selected Fixture.cfg0 pe (lit "orders") w = [Key Fixture.recent]
      /\ bucket w' = []).
Proof.
  split; [|split; [|split; [|split]]].
  - cbv zeta.
    split; [vm_compute; right; left; reflexivity|].
    split; [reflexivity|].
    split; [vm_compute; reflexivity|].
    split; vm_compute; reflexivity.
  - intros w o w'.
    pose proof crowded_last_in_bucket as Hb.
    assert (Hn : ~ In (Key o)
                   (map Key
                      (filter (is_old (Fixture.t_run - 30 * us_per_day))
                         (first_page (retention_prefix (lit "orders"))
                                     (bucket w))))).
    { apply existsb_str_false. vm_compute. reflexivity. }
    destruct (cleanup_old_backups_all Fixture.cfg0 Fixture.fine (lit "orders")
                w _ cutoff_of_fixture eq_refl (fun _ => eq_refl)) as [S B].
    split; [exact Hb|].
    split; [vm_compute; reflexivity|].
    split; [reflexivity|].
    split; [intros k; reflexivity|].
    split; [vm_compute; reflexivity|].
    split.
    + exact (eq_ind_r (fun l => ~ In (Key o) l) Hn S).
    + refine (eq_ind_r (fun b => In o b) _ B).
      exact (proj2 (in_remove_objects _ _ _) (conj Hb Hn)).
  - cbv zeta.
    split; [vm_compute; left; reflexivity|].
    split; [vm_compute; reflexivity|].
    split; vm_compute; reflexivity.
  - cbv zeta.
    split; [vm_compute; left; reflexivity|].
    split; [vm_compute; reflexivity|].
    split; vm_compute; reflexivity.
  - cbv zeta.
    split; [vm_compute; reflexivity|].
    split.
    + intros u Hu. unfold age_at.
      change (upload_time (ahead Fixture.fine)) with Fixture.t_run in Hu.
      assert (E1 : Fixture.t_run = 63844855200000000)
        by (vm_compute; reflexivity).
      assert (E2 : LastModified Fixture.recent = 63842265000000000)
        by (vm_compute; reflexivity).
      assert (E3 : us_per_second = 1000000) by reflexivity.
      assert (E4 : retention_days Fixture.cfg0 * us_per_day = 2592000000000)
        by (vm_compute; reflexivity).
      rewrite E4, E2. rewrite E1, E3 in Hu. lia.
    + split; vm_compute; reflexivity.
Qed.

(** ** The upload *)

Lemma has_object_put (o : RemoteObject) (b : list RemoteObject) :
  has_object (Key o) (put_object o b) = true.
Proof.
  unfold has_object.
  induction b as [|x b IH]; simpl.
  - now rewrite str_eqb_refl.
  - destruct (str_eqb (Key x) (Key o)) eqn:E; simpl.
    + now rewrite str_eqb_refl.
    + destruct (str_ltb (Key o) (Key x)); simpl.
      * now rewrite str_eqb_refl.
      * rewrite IH. apply orb_true_r.
Qed.

Lemma has_object_set_tags (k k' : str) tags (b : list RemoteObject) :
  has_object k (set_tags k' tags b) = has_object k b.
Proof.
  unfold has_object, set_tags.
  induction b as [|x b IH]; simpl; auto.
  rewrite IH. destruct (str_eqb k' (Key x)); reflexivity.
Qed.

Section Upload.

Variable cfg : Config.

(** Once the bytes are transferred the object is in the bucket, whether
    the tags can be attached or not. *)
Lemma upload_to_s3_stored (pe : Pipe) (f d : str) (w : World) :
  file_exists f (files w) = true ->
  transfer_error pe = None ->
  has_object (s3_key_of d (basename f))
             (bucket (snd (upload_to_s3 cfg pe f d w))) = true.
Proof.
  intros Hf Ht.
  unfold upload_to_s3, upload_file, put_object_tagging. munfold. simpl.
  rewrite Ht. simpl. rewrite Hf. simpl.
  destruct (tagging_error pe); simpl.
  - apply (has_object_put
             {| Key := s3_key_of d (basename f);
                LastModified := upload_time pe; TagSet := [] |}).
  - rewrite has_object_set_tags.
    apply (has_object_put
             {| Key := s3_key_of d (basename f);
                LastModified := upload_time pe; TagSet := [] |}).
Qed.

Lemma upload_to_s3_failed_log (pe : Pipe) (f d : str) (w : World) (e : str) :
  file_exists f (files w) = true ->
  upload_failure pe = Some e ->
  In (upload_error_line e) (log (snd (upload_to_s3 cfg pe f d w))).
Proof.
  intros Hf. unfold upload_failure.
  unfold upload_to_s3, upload_file, put_object_tagging. munfold. simpl.
  destruct (transfer_error pe) as [e1|]; simpl.
  - intros H; injection H as ->. apply in_or_app. right. now left.
  - rewrite Hf. simpl. intros ->. simpl.
    apply in_or_app. right. now left.
Qed.

End Upload.

(** [C6, as the code has it] A failure of [put_object_tagging] after a
    successful transfer fails the upload: [upload_to_s3] logs the error
    and raises it again, although the object is already in the bucket,
    and the entry is recorded as a failure with the message of the
    tagging error.  A failure of the transfer fails the upload as well. *)
Theorem tagging_failure_fails_upload (cfg : Config) (pe : Pipe) (e : str) :
  (transfer_error pe = Some e ->
   forall f d w, fst (upload_to_s3 cfg pe f d w) = Raise e)
  /\ (transfer_error pe = None -> tagging_error pe = Some e ->
      (forall f d w,
          file_exists f (files w) = true ->
          let r := upload_to_s3 cfg pe f d w in
          fst r = Raise e
          /\ has_object (s3_key_of d (basename f)) (bucket (snd r)) = true
          /\ In (upload_error_line e) (log (snd r)))
      /\ (dump_failure pe = None ->
          forall database t w,
            fst (backup_one cfg pe database t w)
            = Ok {| success_count := success_count t;
                    error_count := error_count t + 1;
                    backup_details :=
                      backup_details t ++ [failure_line database e] |})).
Proof.
  split.
  - intros Ht f d w.
    unfold upload_to_s3, upload_file. munfold. simpl. rewrite Ht. reflexivity.
  - intros Ht Hg.
    assert (Hu : upload_failure pe = Some e)
      by (unfold upload_failure; rewrite Ht; exact Hg).
    split.
    + intros f d w Hf r. subst r. split; [|split].
      * rewrite (upload_to_s3_result cfg pe f d w Hf), Hu. reflexivity.
      * apply upload_to_s3_stored; assumption.
      * apply upload_to_s3_failed_log; assumption.
    + intros Hdump database t w.
      rewrite backup_one_result.
      unfold tally_step, detail_line, healthy, first_failure.
      rewrite Hdump, Hu. rewrite Z.add_0_r. reflexivity.
Qed.

Lemma tagging_failure_fails_upload_witness :
  fst (upload_to_s3 Fixture.cfg0
         (Fixture.with_tagging_error (Some (lit "AccessDenied")) Fixture.fine)
         Fixture.orders_gz (lit "orders")
         (set_files [Fixture.orders_gz] Fixture.w0))
  = Raise (lit "AccessDenied").
Proof.
  refine (proj1 (proj1 (proj2
            (tagging_failure_fails_upload Fixture.cfg0
               (Fixture.with_tagging_error (Some (lit "AccessDenied"))
                                           Fixture.fine)
               (lit "AccessDenied")) eq_refl eq_refl)
            Fixture.orders_gz (lit "orders")
            (set_files [Fixture.orders_gz] Fixture.w0) _)).
  vm_compute. reflexivity.
Defined.

(** [C6, as stated, fails] The transfer of the dump of [orders] succeeds
    and the object is in the bucket, the tagging is refused: the upload
    raises instead of returning the key, and the entry is counted as an
    error. *)
Lemma tagging_failure_is_fatal :
  let pe := Fixture.with_tagging_error (Some (lit "AccessDenied"))
                                       Fixture.fine in
  let w := set_files [Fixture.orders_gz] Fixture.w0 in
  let key := lit "mysql_backups/orders/orders_20240301_020000.sql.gz" in
  transfer_error pe = None
  /\ has_object key
       (bucket (snd (upload_to_s3 Fixture.cfg0 pe Fixture.orders_gz
                       (lit "orders") w))) = true
  /\ fst (upload_to_s3 Fixture.cfg0 pe Fixture.orders_gz (lit "orders") w)
     <> Ok key
  /\ fst (backup_one Fixture.cfg0 pe (lit "orders") tally0 Fixture.w0)
     = Ok {| success_count := 0; error_count := 1;
             backup_details := [lit "❌ orders: AccessDenied"] |}.
Proof.
  intros pe w key.
  split; [reflexivity|].
  split; [vm_compute; reflexivity|].
  split; [vm_compute; discriminate|].
  vm_compute; reflexivity.
Qed.

(** ** The layout of the remote keys *)

(** [C5, as the code has it] [upload_to_s3] stores the artifact under
    [mysql_backups/{database}/{filename}], where [filename] is the base
    name of the local file; for the file [create_mysql_dump] produces for
    a database whose name holds no ['/'], that base name is
    [{database}_{YYYYMMDD_HHMMSS}.sql.gz], the time stamp being the one
    of the dump. *)
Theorem upload_key_layout (cfg : Config) (pe : Pipe) :
  (upload_failure pe = None ->
   forall f d w,
     file_exists f (files w) = true ->
     let key := lit "mysql_backups/" ++ d ++ lit "/" ++ basename f in
     fst (upload_to_s3 cfg pe f d w) = Ok key
     /\ has_object key (bucket (snd (upload_to_s3 cfg pe f d w))) = true)
  /\ (dump_failure pe = None ->
      forall d w,
        no_slash d ->
        exists f,
          fst (create_mysql_dump cfg pe d w) = Ok f
          /\ file_exists f (files (snd (create_mysql_dump cfg pe d w))) = true
          /\ basename f
             = d ++ lit "_" ++ strftime_stamp (now_dump pe) ++ lit ".sql.gz").
Proof.
  split.
  - intros Hu f d w Hf key. subst key. split.
    + rewrite (upload_to_s3_result cfg pe f d w Hf), Hu. reflexivity.
    + apply (upload_to_s3_stored cfg pe f d w Hf).
      unfold upload_failure in Hu.
      destruct (transfer_error pe); [discriminate | reflexivity].
  - intros Hd d w Hs.
    exists (dump_path cfg d (now_dump pe) ++ lit ".gz").
    split; [|split].
    + rewrite create_mysql_dump_result, Hd. reflexivity.
    + apply create_mysql_dump_files. exact Hd.
    + apply basename_dump_path. exact Hs.
Qed.

Lemma upload_key_layout_witness :
  fst (upload_to_s3 Fixture.cfg0 Fixture.fine Fixture.orders_gz (lit "orders")
         (set_files [Fixture.orders_gz] Fixture.w0))
  = Ok (lit "mysql_backups/" ++ lit "orders" ++ lit "/"
        ++ basename Fixture.orders_gz).
Proof.
  refine (proj1 (proj1 (upload_key_layout Fixture.cfg0 Fixture.fine) eq_refl
                   Fixture.orders_gz (lit "orders")
                   (set_files [Fixture.orders_gz] Fixture.w0) _)).
  vm_compute. reflexivity.
Defined.

(** [C5, as stated, fails] The dump of [orders] taken on 2024-03-01 at
    02:00:00 is stored under [mysql_backups/orders/], not under
    [backups/orders/]; and for a database name with a ['/'] the file
    name in the key is not the database name followed by the time
    stamp. *)
Lemma key_prefix_is_mysql_backups :
  let w := set_files [Fixture.orders_gz] Fixture.w0 in
  fst (upload_to_s3 Fixture.cfg0 Fixture.fine Fixture.orders_gz
         (lit "orders") w)
  = Ok (lit "mysql_backups/orders/orders_20240301_020000.sql.gz")
  /\ fst (upload_to_s3 Fixture.cfg0 Fixture.fine Fixture.orders_gz
            (lit "orders") w)
     <> Ok (lit "backups/orders/orders_20240301_020000.sql.gz")
  /\ fst (create_mysql_dump Fixture.cfg0 Fixture.fine (lit "eu/orders")
            Fixture.w0)
     = Ok (lit "/tmp/mysql_backups/eu/orders_20240301_020000.sql.gz")
  /\ basename (lit "/tmp/mysql_backups/eu/orders_20240301_020000.sql.gz")
     <> lit "eu/orders_20240301_020000.sql.gz".
Proof.
  intros w.
  split; [vm_compute; reflexivity|].
  split; [vm_compute; discriminate|].
  split; [vm_compute; reflexivity|].
  vm_compute; discriminate.
Qed.

(** ** The names of the databases *)

Lemma config_get_required (ie : InitEnv) (section name v : str) :
  config_get ie section name None = Ok v -> ini ie section name = Found v.
Proof.
  unfold config_get. destruct (ini ie section name); congruence.
Qed.

(** The list of the manager is the option [databases] of the section
    [mysql], cut at the commas. *)
Lemma init_databases (ie : InitEnv) (w w' : World) (cfg : Config) :
  init ie w = (Ok cfg, w') ->
  exists raw,
    ini ie (lit "mysql") (lit "databases") = Found raw
    /\ databases cfg = split comma raw.
Proof.
  unfold init, get, bind, lift, check, ret, raise.
  repeat match goal with
         | |- context [config_get ie ?s ?n ?f] =>
           let E := fresh "E" in
           destruct (config_get ie s n f) eqn:E; [|discriminate]
         | |- context [py_int ie ?s] =>
           destruct (py_int ie s); [|discriminate]
         end.
  destruct (boto3_error ie); [discriminate|].
  destruct (mkdir_error ie); [discriminate|].
  intros H. injection H as <- _.
  eexists. split; [|reflexivity].
  apply config_get_required. eassumption.
Qed.

(** A bind whose first part can only return [a0]. *)
Lemma emits_first_bind_ok {A B} (P : Call -> Prop) (c : Call) (m : M A)
  (f : A -> M B) (a0 : A) :
  emits_first c P m -> (forall w a, fst (m w) = Ok a -> a = a0) ->
  emits P (f a0) -> emits_first c P (bind m f).
Proof.
  intros Hm Ha Hf w. unfold bind.
  destruct (Hm w) as [tr [E F]].
  pose proof (Ha w) as Ha'.
  destruct (m w) as [[a|e] w1]; simpl in *.
  - rewrite (Ha' a eq_refl).
    destruct (Hf w1) as [tr' [E' F']].
    exists (tr ++ tr'). rewrite E', E, <- app_assoc.
    split; [reflexivity | apply Forall_app; auto].
  - exists tr; auto.
Qed.

(** The call a computation starts with may be counted with the others. *)
Lemma emits_of_first {A} (c : Call) (P : Call -> Prop) (m : M A) :
  P c -> emits_first c P m -> emits P m.
Proof.
  intros H Hm w. destruct (Hm w) as [tr [E F]].
  exists (c :: tr). split; [exact E|]. constructor; auto.
Qed.

Section Names.

Variable cfg : Config.

Create HintDb drives.

#[local] Hint Resolve emits_ret emits_raise emits_lift emits_logging_info
  emits_logging_error emits_open_w emits_run_gzip emits_os_remove
  emits_check : drives.

Ltac drives_step :=
  first
    [ apply emits_upload_file; reflexivity
    | apply emits_put_object_tagging; reflexivity
    | apply emits_record; simpl; solve [auto]
    | solve [auto with drives]
    | apply emits_bind; [|intros ?]
    | apply emits_try_except; [|intros ?]
    | match goal with
      | |- emits _ (if ?b then _ else _) => destruct b
      end ].

Lemma drives_create_mysql_dump (pe : Pipe) (d : str) :
  emits_first (CallDump d) (drives cfg pe d) (create_mysql_dump cfg pe d).
Proof.
  unfold create_mysql_dump.
  apply emits_first_record.
  repeat drives_step.
Qed.

Lemma drives_upload_to_s3 (pe : Pipe) (d : str) :
  emits (drives cfg pe d) (upload_to_s3 cfg pe (dump_gz cfg pe d) d).
Proof.
  unfold upload_to_s3. cbv zeta.
  apply emits_bind; [apply emits_record; simpl; auto|]. intros _.
  repeat drives_step.
Qed.

(** The retention step announces itself and then sends requests for the
    prefix of the database only. *)
Lemma cleanup_old_backups_requests (pe : Pipe) (d : str) :
  emits_first (CallCleanup d) (retention_request d)
              (cleanup_old_backups cfg pe d).
Proof.
  intros w.
  destruct (cutoff (now_cleanup pe) (retention_days cfg)) as [c|e] eqn:Hc.
  - destruct (list_error pe) as [e|] eqn:Hl.
    + exists [ReqList (retention_prefix d)].
      unfold cleanup_old_backups, list_objects_v2. munfold.
      cbn [fst snd]. rewrite Hc, Hl. cbn. rewrite <- app_assoc.
      split; [reflexivity|]. repeat constructor.
    + destruct (cleanup_old_backups_listed cfg pe d w c Hc Hl) as (H & _).
      eexists. split; [exact H|].
      constructor; [reflexivity|].
      apply Forall_forall. intros x Hx. apply in_map_iff in Hx.
      destruct Hx as [k [<- Hk]].
      apply sweep_requested_in in Hk. destruct Hk as [o [Ho [<- _]]].
      apply in_first_page in Ho. simpl. tauto.
  - exists [].
    unfold cleanup_old_backups. munfold.
    cbn [fst snd]. rewrite Hc. cbn.
    split; [reflexivity|]. constructor.
Qed.

Lemma retention_request_drives (pe : Pipe) (d : str) (c : Call) :
  retention_request d c -> drives cfg pe d c.
Proof. destruct c; simpl; tauto. Qed.

Lemma drives_cleanup_old_backups (pe : Pipe) (d : str) :
  emits (drives cfg pe d) (cleanup_old_backups cfg pe d).
Proof.
  apply (emits_of_first (CallCleanup d)); [reflexivity|].
  intros w. destruct (cleanup_old_backups_requests pe d w) as [tr [E F]].
  exists tr. split; [exact E|]. revert F. apply Forall_impl.
  apply retention_request_drives.
Qed.

Lemma create_mysql_dump_value (pe : Pipe) (d : str) (w : World) (f : str) :
  fst (create_mysql_dump cfg pe d w) = Ok f -> f = dump_gz cfg pe d.
Proof.
  rewrite create_mysql_dump_result.
  destruct (dump_failure pe); [discriminate|].
  intros H. injection H as <-. reflexivity.
Qed.

Lemma drives_backup_one (pe : Pipe) (database : str) (t : Tally) :
  emits_first (CallDump (strip database)) (drives cfg pe (strip database))
              (backup_one cfg pe database t).
Proof.
  unfold backup_one.
  apply emits_first_try_except; [|intros e; repeat drives_step].
  apply (emits_first_bind_ok _ _ _ _ (dump_gz cfg pe (strip database)));
    [apply drives_create_mysql_dump | apply create_mysql_dump_value |].
  apply emits_bind; [apply drives_upload_to_s3|]. intros k.
  apply emits_bind; [apply drives_cleanup_old_backups|]. intros _.
  repeat drives_step.
Qed.

Lemma from_entry_head (pipes : nat -> Pipe) (i : nat) (database : str)
  (rest : list str) (c : Call) :
  drives cfg (pipes i) (strip database) c ->
  from_entry cfg pipes i (database :: rest) c.
Proof.
  intros H. exists 0%nat, database. rewrite Nat.add_0_r. split; [reflexivity | exact H].
Qed.

Lemma from_entry_tail (pipes : nat -> Pipe) (i : nat) (database : str)
  (rest : list str) (c : Call) :
  from_entry cfg pipes (S i) rest c ->
  from_entry cfg pipes i (database :: rest) c.
Proof.
  intros [j [x [Hj H]]]. exists (S j), x.
  rewrite Nat.add_succ_r. split; [exact Hj | exact H].
Qed.

Lemma drives_backup_loop (pipes : nat -> Pipe) :
  forall dbs i t w, exists tr,
    trace (snd (backup_loop cfg pipes i dbs t w)) = trace w ++ tr
    /\ Forall (from_entry cfg pipes i dbs) tr.
Proof.
  induction dbs as [|database rest IH]; intros i t w; simpl.
  - exists []. rewrite app_nil_r. auto.
  - unfold bind.
    destruct (drives_backup_one (pipes i) database t w) as [tr1 [E1 F1]].
    pose proof (backup_one_result cfg (pipes i) database t w) as R.
    destruct (backup_one cfg (pipes i) database t w) as [[t'|e] w1];
      cbn [fst snd] in *; [|discriminate].
    destruct (IH (S i) t' w1) as [tr2 [E2 F2]].
    exists (CallDump (strip database) :: tr1 ++ tr2).
    rewrite E2, E1, <- app_assoc. simpl.
    split; [reflexivity|].
    constructor; [apply from_entry_head; reflexivity|].
    apply Forall_app. split.
    + revert F1. apply Forall_impl. intros c. apply from_entry_head.
    + revert F2. apply Forall_impl. intros c. apply from_entry_tail.
Qed.

Lemma create_mysql_dump_trace (pe : Pipe) (d : str) (w : World) :
  dump_failure pe = None ->
  trace (snd (create_mysql_dump cfg pe d w))
  = trace w ++ [ CallDump d; Exec (mysqldump_cmd cfg d);
                 Exec [lit "gzip"; dump_path cfg d (now_dump pe)] ].
Proof.
  unfold create_mysql_dump, dump_failure, open_w, run_gzip. munfold.
  destruct (open_error pe); simpl; try discriminate.
  destruct (mysqldump pe) as [[rc err]|e]; simpl; try discriminate.
  destruct (rc =? 0); simpl; try discriminate.
  destruct (gzip_error pe); simpl; try discriminate.
  intros _. rewrite <- !app_assoc. reflexivity.
Qed.

Lemma upload_to_s3_trace (pe : Pipe) (f d : str) (w : World) :
  file_exists f (files w) = true ->
  upload_failure pe = None ->
  trace (snd (upload_to_s3 cfg pe f d w))
  = trace w ++ [ CallUpload f d; ReqPut (s3_key_of d (basename f));
                 ReqTag (s3_key_of d (basename f)) ].
Proof.
  intros Hf.
  unfold upload_to_s3, upload_failure, upload_file, put_object_tagging.
  munfold. simpl.
  destruct (transfer_error pe); simpl; try discriminate.
  rewrite Hf; simpl.
  destruct (tagging_error pe); simpl; try discriminate.
  intros _. rewrite <- !app_assoc. reflexivity.
Qed.

(** The calls of an entry whose dump and upload succeed. *)
Lemma backup_one_calls (pe : Pipe) (database : str) (t : Tally) (w : World) :
  dump_failure pe = None -> upload_failure pe = None ->
  exists tr,
    trace (snd (backup_one cfg pe database t w))
    = trace w ++ entry_calls cfg pe (strip database) ++ tr
    /\ Forall (retention_request (strip database)) tr.
Proof.
  intros Hd Hu. unfold backup_one, entry_calls, entry_key, dump_gz.
  set (d := strip database).
  unfold try_except, bind at 1 2 3 4.
  pose proof (create_mysql_dump_result cfg pe d w) as R1.
  pose proof (create_mysql_dump_files cfg pe d w Hd) as F1.
  pose proof (create_mysql_dump_trace pe d w Hd) as T1.
  rewrite Hd in R1.
  destruct (create_mysql_dump cfg pe d w) as [[f|e] w1]; cbn [fst snd] in *;
    [|discriminate].
  injection R1 as ->.
  pose proof (upload_to_s3_result cfg pe _ d w1 F1) as R2.
  pose proof (upload_to_s3_trace pe _ d w1 F1 Hu) as T2.
  rewrite Hu in R2.
  destruct (upload_to_s3 cfg pe _ d w1) as [[k|e] w2]; cbn [fst snd] in *;
    [|discriminate].
  destruct (cleanup_old_backups_frame cfg pe d w2) as (R3 & _ & _).
  destruct (cleanup_old_backups_requests pe d w2) as [tr [E F]].
  destruct (cleanup_old_backups cfg pe d w2) as [[[]|e] w3];
    cbn [fst snd] in *; [|discriminate].
  exists tr. split; [|exact F].
  unfold os_remove, ret, logging_error, bind.
  destruct (remove_error pe);
    [|destruct (file_exists (dump_path cfg d (now_dump pe) ++ lit ".gz")
                            (files w3))];
    cbn; rewrite E, T2, T1, <- !app_assoc; reflexivity.
Qed.

Lemma entry_key_layout (pe : Pipe) (d : str) :
  no_slash d ->
  entry_key cfg pe d
  = lit "mysql_backups/" ++ d ++ lit "/" ++ d ++ lit "_"
    ++ strftime_stamp (now_dump pe) ++ lit ".sql.gz".
Proof.
  intros H. unfold entry_key, dump_gz, s3_key_of.
  now rewrite basename_dump_path.
Qed.

End Names.

(** [C10] Every entry of the database list is stripped of leading and
    trailing white space before it is used, and the stripped name is
    what every step gets.  Each call the loop makes is a call of the
    entry at some position of the list, with the arguments of the
    stripped name at that position: the entry into the dump, the
    [mysqldump] command line, the file given to [gzip] and to the upload,
    the key put and tagged, the entry into the cleanup, the prefix listed
    and the keys deleted; the dumps are started for the stripped entries
    in order.  An entry whose dump and upload succeed makes exactly the
    calls of [entry_calls] for its stripped name, followed by the
    requests of the retention step for the prefix of that name.  The
    remote key is [mysql_backups/<name>/<name>_<stamp>.sql.gz] for a name
    without ['/'], and [strip d] begins and ends with no white space.  The
    list is the configured string cut at the commas, so that
    ["orders, users"] drives the steps with [orders] and [users]. *)
Theorem names_are_stripped :
  (forall (cfg : Config) (pipes : nat -> Pipe) (dbs : list str) (t : Tally)
          (w : World),
      exists tr,
        trace (snd (backup_loop cfg pipes 0 dbs t w)) = trace w ++ tr
        /\ Forall (from_entry cfg pipes 0 dbs) tr
        /\ dumps_of tr = map strip dbs)
  /\ (forall (cfg : Config) (pe : Pipe) (database : str) (t : Tally)
             (w : World),
         dump_failure pe = None -> upload_failure pe = None ->
         exists tr,
           trace (snd (backup_one cfg pe database t w))
           = trace w ++ entry_calls cfg pe (strip database) ++ tr
           /\ Forall (retention_request (strip database)) tr)
  /\ (forall (cfg : Config) (pe : Pipe) (d : str),
         no_slash d ->
         entry_key cfg pe d
         = lit "mysql_backups/" ++ d ++ lit "/" ++ d ++ lit "_"
           ++ strftime_stamp (now_dump pe) ++ lit ".sql.gz")
  /\ (forall d, stripped (strip d))
  /\ (forall ie w cfg w',
         init ie w = (Ok cfg, w') ->
         exists raw,
           ini ie (lit "mysql") (lit "databases") = Found raw
           /\ databases cfg = split comma raw)
  /\ map strip (split comma (lit "orders, users"))
     = [lit "orders"; lit "users"].
Proof.
  split; [|split; [|split; [|split; [|split]]]].
  - intros cfg pipes dbs t w.
    destruct (backup_loop_trace cfg pipes dbs 0 t w) as [tr [E [_ D]]].
    destruct (drives_backup_loop cfg pipes dbs 0 t w) as [tr' [E' F']].
    rewrite E in E'. apply app_inv_head in E'. subst tr'.
    exists tr. auto.
  - intros cfg. apply backup_one_calls.
  - intros cfg. apply entry_key_layout.
  - apply strip_stripped.
  - intros ie w cfg w'. apply init_databases.
  - vm_compute. reflexivity.
Qed.

(** The calls of a run over ["orders, users"] in which every step
    succeeds. *)
Example trace_orders_users :
  trace (snd (backup_loop Fixture.cfg0 (fun _ => Fixture.fine) 0
                (databases Fixture.cfg0) tally0 Fixture.w0))
  = [ CallDump (lit "orders");
      Exec (mysqldump_cmd Fixture.cfg0 (lit "orders"));
      Exec [lit "gzip"; Fixture.orders_sql];
      CallUpload Fixture.orders_gz (lit "orders");
      ReqPut (lit "mysql_backups/orders/orders_20240301_020000.sql.gz");
      ReqTag (lit "mysql_backups/orders/orders_20240301_020000.sql.gz");
      CallCleanup (lit "orders");
      ReqList (lit "mysql_backups/orders/");
      CallDump (lit "users");
      Exec (mysqldump_cmd Fixture.cfg0 (lit "users"));
      Exec [lit "gzip"; lit "/tmp/mysql_backups/users_20240301_020000.sql"];
      CallUpload (lit "/tmp/mysql_backups/users_20240301_020000.sql.gz")
                 (lit "users");
      ReqPut (lit "mysql_backups/users/users_20240301_020000.sql.gz");
      ReqTag (lit "mysql_backups/users/users_20240301_020000.sql.gz");
      CallCleanup (lit "users");
      ReqList (lit "mysql_backups/users/") ].
Proof. vm_compute. reflexivity. Qed.

(** ** A delete that fails *)

Lemma sweep_deleted_ok (pe : Pipe) (c : datetime) contents :
  Forall (fun k => delete_error pe k = None) (fst (sweep pe c contents)).
Proof.
  induction contents as [|o rest IH]; simpl; [constructor|].
  destruct (is_old c o); [|exact IH].
  destruct (delete_error pe (Key o)) eqn:E; simpl; [constructor|].
  constructor; assumption.
Qed.

(** A requested key whose delete fails is the one that stops the loop. *)
Lemma sweep_failed (pe : Pipe) (c : datetime) contents (k e : str) :
  In k (requested (sweep pe c contents)) ->
  delete_error pe k = Some e ->
  snd (sweep pe c contents) = Some (k, e).
Proof.
  unfold requested.
  induction contents as [|o rest IH]; simpl; [tauto|].
  destruct (is_old c o); [|exact IH].
  destruct (delete_error pe (Key o)) as [e0|] eqn:E; simpl.
  - intros [<-|[]] He. congruence.
  - intros [<-|H] He; [congruence|]. apply IH; assumption.
Qed.

Section DeleteFailure.

Variable cfg : Config.

(** The world after an entry that succeeds: the one the retention step
    left, without the compressed dump. *)
Lemma backup_one_world (pe : Pipe) (database : str) (t : Tally) (w : World) :
  first_failure pe = None ->
  let d := strip database in
  let f := dump_path cfg d (now_dump pe) ++ lit ".gz" in
  let w2 := snd (upload_to_s3 cfg pe f d (snd (create_mysql_dump cfg pe d w))) in
  let w3 := snd (cleanup_old_backups cfg pe d w2) in
  snd (backup_one cfg pe database t w)
  = set_files (file_remove f (files w3)) w3.
Proof.
  unfold first_failure. intros H.
  destruct (dump_failure pe) as [e1|] eqn:Hd; [discriminate|].
  destruct (upload_failure pe) as [e2|] eqn:Hu; [discriminate|].
  cbv zeta. unfold backup_one.
  set (d := strip database).
  unfold try_except, bind at 1 2 3 4.
  pose proof (create_mysql_dump_result cfg pe d w) as R1.
  pose proof (create_mysql_dump_files cfg pe d w Hd) as F1.
  rewrite Hd in R1.
  destruct (create_mysql_dump cfg pe d w) as [[f|e] w1]; cbn [fst snd] in *;
    [|discriminate].
  injection R1 as ->.
  pose proof (upload_to_s3_result cfg pe _ d w1 F1) as R2.
  pose proof (upload_to_s3_files cfg pe
                (dump_path cfg d (now_dump pe) ++ lit ".gz") d w1) as F2.
  rewrite Hu in R2.
  destruct (upload_to_s3 cfg pe _ d w1) as [[k|e] w2]; cbn [fst snd] in *;
    [|discriminate].
  destruct (cleanup_old_backups_frame cfg pe d w2) as (R3 & F3 & _).
  destruct (cleanup_old_backups cfg pe d w2) as [[[]|e] w3];
    cbn [fst snd] in *; [|discriminate].
  unfold os_remove, ret, bind. rewrite H.
  rewrite F3, F2, F1. reflexivity.
Qed.

End DeleteFailure.

(** [C8, as the code has it] When the dump, the upload and the removal
    of the local file succeed, a delete of an expired key that fails
    during the retention step leaves the entry a success: it is counted
    as one, and its detail line in the report is the success line, which
    says nothing of the delete.  The failure is written to the log as one
    [ERROR] record with the message of the error, and it ends the
    retention step: the failing request is the last one sent, and the
    object stays in the bucket. *)
Theorem delete_failure_is_only_logged (cfg : Config) (pe : Pipe)
  (database : str) (t : Tally) (w : World) (k e : str) :
  let d := strip database in
  let f := dump_path cfg d (now_dump pe) ++ lit ".gz" in
  let w2 := snd (upload_to_s3 cfg pe f d (snd (create_mysql_dump cfg pe d w))) in
  let r := backup_one cfg pe database t w in
  first_failure pe = None ->
  In k (selected cfg pe d w2) ->
  delete_error pe k = Some e ->
  fst r = Ok {| success_count := success_count t + 1;
                error_count := error_count t;
                backup_details :=
                  backup_details t ++ [success_line cfg pe database] |}
  /\ In (cleanup_error_line e) (log (snd r))
  /\ (exists ks, selected cfg pe d w2 = ks ++ [k]
                 /\ Forall (fun k' => delete_error pe k' = None) ks)
  /\ (forall o, In o (bucket w2) -> Key o = k -> In o (bucket (snd r))).
Proof.
  intros d f w2 r Hff Hk He. subst r.
  rewrite (backup_one_world cfg pe database t w Hff).
  fold d f w2.
  split.
  - rewrite backup_one_result.
    unfold tally_step, detail_line, healthy. rewrite Hff.
    rewrite Z.add_0_r. reflexivity.
  - destruct (cutoff (now_cleanup pe) (retention_days cfg)) as [c|e0] eqn:Hc;
      [|rewrite (selected_skipped cfg pe d w2) in Hk by (left; eauto);
        destruct Hk].
    destruct (list_error pe) as [e0|] eqn:Hl;
      [rewrite (selected_skipped cfg pe d w2) in Hk by (right; eauto);
       destruct Hk|].
    rewrite (selected_listed cfg pe d w2 c Hc Hl) in *.
    destruct (cleanup_old_backups_listed cfg pe d w2 c Hc Hl) as (_ & B & L).
    cbn zeta in B, L.
    pose proof (sweep_failed pe c _ k e Hk He) as Hs.
    pose proof (sweep_deleted_ok pe c
                  (first_page (retention_prefix d) (bucket w2))) as Hok.
    rewrite Hs in L. unfold requested. rewrite Hs.
    cbn [log bucket set_files].
    split; [|split].
    + rewrite L. apply in_or_app. right. apply in_or_app. right. now left.
    + eexists. split; [reflexivity | exact Hok].
    + intros o Ho Hko. rewrite B. apply in_remove_objects.
      split; [exact Ho|]. intros Hin.
      rewrite Forall_forall in Hok. specialize (Hok _ Hin).
      rewrite Hko in Hok. congruence.
Qed.

Lemma delete_failure_is_only_logged_witness :
  In (cleanup_error_line (lit "AccessDenied"))
     (log (snd (backup_one Fixture.cfg0
                  (Fixture.with_delete_error
                     (fun _ => Some (lit "AccessDenied")) Fixture.fine)
                  (lit "orders") tally0 Fixture.w1))).
Proof.
  refine (proj1 (proj2
            (delete_failure_is_only_logged Fixture.cfg0
               (Fixture.with_delete_error
                  (fun _ => Some (lit "AccessDenied")) Fixture.fine)
               (lit "orders") tally0 Fixture.w1
               (lit "mysql_backups/orders/orders_20240101_020000.sql.gz")
               (lit "AccessDenied") _ _ _))).
  - vm_compute. reflexivity.
  - vm_compute. left. reflexivity.
  - reflexivity.
Defined.

(** [C8, as stated, fails] The delete of the expired backup of [orders]
    is refused.  The run succeeds and both entries are reported as
    successes, but the details of the run hold the two success lines
    only and the report that is mailed mentions neither the error nor
    the key: the failed delete is recorded in the log alone. *)
Lemma failed_delete_is_not_reported :
  let pe := Fixture.with_delete_error (fun _ => Some (lit "AccessDenied"))
                                      Fixture.fine in
  let old := lit "mysql_backups/orders/orders_20240101_020000.sql.gz" in
  let loop := backup_loop Fixture.cfg0 (fun _ => pe) 0
                (databases Fixture.cfg0) tally0 Fixture.w1 in
  let run := run_backup Fixture.cfg0 (fun _ => pe) Fixture.re0 Fixture.w1 in
  fst loop
  = Ok {| success_count := 2; error_count := 0;
          backup_details :=
            [ lit "✅ orders: orders_20240301_020000.sql.gz";
              lit "✅ users: users_20240301_020000.sql.gz" ] |}
  /\ delete_requests (trace (snd loop)) = [old]
  /\ has_object old (bucket (snd loop)) = true
  /\ fst run = Ok true
  /\ map (fun m => contains (Body m) (lit "AccessDenied")
                   || contains (Body m) old) (outbox (snd run))
     = [false]
  /\ existsb (fun l => contains (snd l) (lit "AccessDenied")) (log (snd run))
     = true.
Proof.
  intros pe old loop run.
  split; [vm_compute; reflexivity|].
  split; [vm_compute; reflexivity|].
  split; [vm_compute; reflexivity|].
  split; [vm_compute; reflexivity|].
  split; [vm_compute; reflexivity|].
  vm_compute; reflexivity.
Qed.

(** ** Local files after an entry *)

(** Whenever the upload fails after a successful dump, the compressed
    dump is still on the local disk when the entry is done: the handler
    of the loop only counts and logs. *)
Lemma upload_failure_leaves_dump (cfg : Config) (pe : Pipe) (database : str)
  (t : Tally) (w : World) (e : str) :
  dump_failure pe = None ->
  upload_failure pe = Some e ->
  file_exists (dump_path cfg (strip database) (now_dump pe) ++ lit ".gz")
              (files (snd (backup_one cfg pe database t w))) = true.
Proof.
  intros Hd Hu. unfold backup_one.
  set (d := strip database).
  unfold try_except, bind at 1 2 3 4.
  pose proof (create_mysql_dump_result cfg pe d w) as R1.
  pose proof (create_mysql_dump_files cfg pe d w Hd) as F1.
  rewrite Hd in R1.
  destruct (create_mysql_dump cfg pe d w) as [[f|e1] w1]; cbn [fst snd] in *;
    [|discriminate].
  injection R1 as ->.
  pose proof (upload_to_s3_result cfg pe _ d w1 F1) as R2.
  pose proof (upload_to_s3_files cfg pe
                (dump_path cfg d (now_dump pe) ++ lit ".gz") d w1) as F2.
  rewrite Hu in R2.
  destruct (upload_to_s3 cfg pe _ d w1) as [[k|e2] w2]; cbn [fst snd] in *;
    [discriminate|].
  unfold logging_error, bind, ret. cbn. rewrite F2. exact F1.
Qed.

(** [C4: what the code does] The compressed dump is removed after a
    successful upload only.  With an empty scratch directory before the
    entry [orders]: a refused upload leaves the compressed dump, a
    failing [mysqldump] and a failing [gzip] leave the raw dump, and only
    the entry that succeeds leaves nothing. *)
Theorem local_files_left_on_failure :
  let after pe :=
    files (snd (backup_one Fixture.cfg0 pe (lit "orders") tally0
                  Fixture.w0)) in
  after (Fixture.with_transfer_error (Some (lit "timed out")) Fixture.fine)
  = [Fixture.orders_gz]
  /\ after (Fixture.with_tagging_error (Some (lit "AccessDenied"))
                                       Fixture.fine)
     = [Fixture.orders_gz]
  /\ after (Fixture.with_mysqldump (Ok (2, lit "Access denied for user"))
                                   Fixture.fine)
     = [Fixture.orders_sql]
  /\ after (Fixture.with_gzip_error (Some (lit "No space left on device"))
                                    Fixture.fine)
     = [Fixture.orders_sql]
  /\ after Fixture.fine = [].
Proof.
  intros after.
  split; [vm_compute; reflexivity|].
  split; [vm_compute; reflexivity|].
  split; [vm_compute; reflexivity|].
  split; [vm_compute; reflexivity|].
  vm_compute; reflexivity.
Qed.

(** * Further properties of the script *)

(** ** Components of the world a computation leaves alone *)

Section Keeps.

Context {X A B : Type} (f : World -> X).

Lemma keeps_ret (a : A) : keeps f (ret a).
Proof. intros w; reflexivity. Qed.

Lemma keeps_raise (e : str) : keeps f (@raise A e).
Proof. intros w; reflexivity. Qed.

Lemma keeps_lift (r : result A) : keeps f (lift r).
Proof. intros w; reflexivity. Qed.

Lemma keeps_bind (m : M A) (k : A -> M B) :
  keeps f m -> (forall a, keeps f (k a)) -> keeps f (bind m k).
Proof.
  intros Hm Hk w. unfold bind. specialize (Hm w).
  destruct (m w) as [[a|e] w1]; cbn [snd] in *; [|exact Hm].
  rewrite (Hk a w1). exact Hm.
Qed.

Lemma keeps_try_except (m : M A) (h : str -> M A) :
  keeps f m -> (forall e, keeps f (h e)) -> keeps f (try_except m h).
Proof.
  intros Hm Hh w. unfold try_except. specialize (Hm w).
  destruct (m w) as [[a|e] w1]; cbn [snd] in *; [exact Hm|].
  rewrite (Hh e w1). exact Hm.
Qed.

End Keeps.

Lemma keeps_check {X} (f : World -> X) (e : option str) : keeps f (check e).
Proof. destruct e; intros w; reflexivity. Qed.

(** ** Construction of the manager *)

Ltac keeps_step :=
  first
    [ apply keeps_ret | apply keeps_raise | apply keeps_lift
    | apply keeps_check
    | apply keeps_bind; [|intros ?]
    | apply keeps_try_except; [|intros ?] ].

(** [__init__] acts on nothing the model follows: it only reads.  The
    records that libraries write through the root logger while the S3
    client is created are not part of [log], which holds the records of
    the script; statements on the log after [__init__] speak of its last
    records only. *)
Lemma init_keeps_world (ie : InitEnv) : keeps (fun w => w) (init ie).
Proof. unfold init, get. repeat keeps_step. Qed.

Lemma config_get_required_iff (ie : InitEnv) (section name v : str) :
  config_get ie section name None = Ok v <-> ini ie section name = Found v.
Proof.
  unfold config_get. destruct (ini ie section name); split; congruence.
Qed.

Lemma config_get_fallback_iff (ie : InitEnv) (section name : string)
  (d : string) (v : str) :
  config_get ie (lit section) (lit name) (Some (lit d)) = Ok v
  <-> usable ie section name /\ v = option_or ie section name d.
Proof.
  unfold config_get, usable, option_or.
  destruct (ini ie (lit section) (lit name)); split.
  all: try (intros H; injection H as <-; split; [congruence | reflexivity]).
  all: try (intros [_ ->]; reflexivity).
  - discriminate.
  - intros [H _]. exfalso. apply (H e). reflexivity.
Qed.

(** [X1] The manager is constructed exactly when the seven required
    options are in the file, no lookup of an option with a fallback
    breaks, both numbers are accepted by [int], and neither the S3 client
    nor the scratch directory raise.  The fields are then the values
    found, with [localhost], [us-east-1], [/tmp/mysql_backups], [30],
    [smtp.gmail.com] and [587] for the options that are not there, and
    the database list is the option [databases] cut at the commas. *)
Theorem init_succeeds_iff (ie : InitEnv) (w : World) (cfg : Config) :
  fst (init ie w) = Ok cfg
  <-> (usable ie "mysql" "host"
       /\ mysql_host cfg = option_or ie "mysql" "host" "localhost")
      /\ ini ie (lit "mysql") (lit "user") = Found (mysql_user cfg)
      /\ ini ie (lit "mysql") (lit "password") = Found (mysql_password cfg)
      /\ (exists raw, ini ie (lit "mysql") (lit "databases") = Found raw
                      /\ databases cfg = split comma raw)
      /\ ini ie (lit "aws") (lit "s3_bucket") = Found (s3_bucket cfg)
      /\ (usable ie "aws" "region"
          /\ aws_region cfg = option_or ie "aws" "region" "us-east-1")
      /\ (usable ie "backup" "local_dir"
          /\ backup_dir cfg
             = option_or ie "backup" "local_dir" "/tmp/mysql_backups")
      /\ (usable ie "backup" "retention_days"
          /\ py_int ie (option_or ie "backup" "retention_days" "30")
             = Ok (retention_days cfg))
      /\ (usable ie "email" "smtp_server"
          /\ smtp_server cfg
             = option_or ie "email" "smtp_server" "smtp.gmail.com")
      /\ (usable ie "email" "smtp_port"
          /\ py_int ie (option_or ie "email" "smtp_port" "587")
             = Ok (smtp_port cfg))
      /\ ini ie (lit "email") (lit "user") = Found (email_user cfg)
      /\ ini ie (lit "email") (lit "password") = Found (email_password cfg)
      /\ ini ie (lit "email") (lit "notification_email")
         = Found (notification_email cfg)
      /\ boto3_error ie = None
      /\ mkdir_error ie = None.
Proof.
  split.
  - unfold init, get, bind, lift, check, ret, raise.
    destruct (config_get ie (lit "mysql") (lit "host") _) eqn:E1;
      [|discriminate].
    destruct (config_get ie (lit "mysql") (lit "user") _) eqn:E2;
      [|discriminate].
    destruct (config_get ie (lit "mysql") (lit "password") _) eqn:E3;
      [|discriminate].
    destruct (config_get ie (lit "mysql") (lit "databases") _) eqn:E4;
      [|discriminate].
    destruct (config_get ie (lit "aws") (lit "s3_bucket") _) eqn:E5;
      [|discriminate].
    destruct (config_get ie (lit "aws") (lit "region") _) eqn:E6;
      [|discriminate].
    destruct (config_get ie (lit "backup") (lit "local_dir") _) eqn:E7;
      [|discriminate].
    destruct (config_get ie (lit "backup") (lit "retention_days") _) eqn:E8;
      [|discriminate].
    destruct (py_int ie a6) eqn:P1; [|discriminate].
    destruct (config_get ie (lit "email") (lit "smtp_server") _) eqn:E9;
      [|discriminate].
    destruct (config_get ie (lit "email") (lit "smtp_port") _) eqn:E10;
      [|discriminate].
    destruct (py_int ie a9) eqn:P2; [|discriminate].
    destruct (config_get ie (lit "email") (lit "user") _) eqn:E11;
      [|discriminate].
    destruct (config_get ie (lit "email") (lit "password") _) eqn:E12;
      [|discriminate].
    destruct (config_get ie (lit "email") (lit "notification_email") _)
      eqn:E13; [|discriminate].
    destruct (boto3_error ie) eqn:B; [discriminate|].
    destruct (mkdir_error ie) eqn:D; [discriminate|].
    cbn [fst]. intros H. injection H as <-. cbn.
    apply config_get_fallback_iff in E1, E6, E7, E8, E9, E10.
    apply config_get_required_iff in E2, E3, E4, E5, E11, E12, E13.
    destruct E1 as [? ->], E6 as [? ->], E7 as [? ->], E8 as [? ->],
             E9 as [? ->], E10 as [? ->].
    repeat (split; try assumption; try reflexivity).
    exists a2. split; [assumption | reflexivity].
  - destruct cfg; cbn.
    intros ([U1 ->] & E2 & E3 & [raw [E4 ->]] & E5 & [U6 ->] & [U7 ->]
            & [U8 P1] & [U9 ->] & [U10 P2] & E11 & E12 & E13 & B & D).
    apply config_get_required_iff in E2, E3, E4, E5, E11, E12, E13.
    unfold init, get, bind, lift, check, ret, raise.
    rewrite (proj2 (config_get_fallback_iff ie "mysql" "host" "localhost" _)
                   (conj U1 eq_refl)).
    rewrite E2, E3, E4, E5.
    rewrite (proj2 (config_get_fallback_iff ie "aws" "region" "us-east-1" _)
                   (conj U6 eq_refl)).
    rewrite (proj2 (config_get_fallback_iff ie "backup" "local_dir"
                      "/tmp/mysql_backups" _) (conj U7 eq_refl)).
    rewrite (proj2 (config_get_fallback_iff ie "backup" "retention_days"
                      "30" _) (conj U8 eq_refl)).
    rewrite P1.
    rewrite (proj2 (config_get_fallback_iff ie "email" "smtp_server"
                      "smtp.gmail.com" _) (conj U9 eq_refl)).
    rewrite (proj2 (config_get_fallback_iff ie "email" "smtp_port"
                      "587" _) (conj U10 eq_refl)).
    rewrite P2, E11, E12, E13, B, D. reflexivity.
Qed.

(** ** A configuration error *)

(** [X2] When the construction of the manager raises, [main] exits with
    status 1 and the last record of the log is the [ERROR] record with
    the message of the exception; it starts no dump, sends no request to
    the bucket and no notification, and leaves the local files alone. *)
Theorem config_error_aborts (ie : InitEnv) (pipes : nat -> Pipe)
  (re : RunEnv) (w : World) (e : str) :
  fst (init ie w) = Raise e ->
  let r := main ie pipes re w in
  fst r = 1
  /\ (exists l,
        log (snd r)
        = l ++ [(ERROR, lit "Erro crítico no processo de backup: " ++ e)])
  /\ trace (snd r) = trace w
  /\ files (snd r) = files w
  /\ bucket (snd r) = bucket w
  /\ outbox (snd r) = outbox w.
Proof.
  intros H r.
  assert (E : r = (1, set_log (log w ++ [(ERROR,
                                         lit "Erro crítico no processo de backup: "
                                         ++ e)]) w)).
  { subst r. unfold main, main_body, try_except. unfold bind at 1.
    pose proof (init_keeps_world ie w) as K. cbv beta in K.
    destruct (init ie w) as [[cfg|e'] w1]; cbn [fst snd] in *; [discriminate|].
    injection H as ->. subst w1. reflexivity. }
  rewrite E. cbn [fst snd log trace files bucket outbox set_log].
  split; [reflexivity|]. split; [eexists; reflexivity|].
  repeat split; reflexivity.
Qed.

Lemma config_error_aborts_witness :
  let r := main no_file (fun _ => Fixture.fine) Fixture.re0 Fixture.w0 in
  fst r = 1
  /\ (exists l,
        log (snd r)
        = l ++ [(ERROR, lit "Erro crítico no processo de backup: "
                        ++ lit "No section: 'mysql'")])
  /\ trace (snd r) = trace Fixture.w0
  /\ files (snd r) = files Fixture.w0
  /\ bucket (snd r) = bucket Fixture.w0
  /\ outbox (snd r) = outbox Fixture.w0.
Proof.
  apply (config_error_aborts no_file (fun _ => Fixture.fine) Fixture.re0
           Fixture.w0 (lit "No section: 'mysql'")).
  vm_compute. reflexivity.
Defined.

Example init_sample_file :
  init sample_file Fixture.w0 = (Ok Fixture.cfg0, Fixture.w0).
Proof. vm_compute. reflexivity. Qed.

(** ** The database list *)

Lemma split_not_nil (c : N) (s : str) : split c s <> [].
Proof.
  destruct s as [|x r]; simpl; [discriminate|].
  destruct (x =? c)%N; [discriminate|].
  destruct (split c r); discriminate.
Qed.

Lemma split_length (c : N) (s : str) :
  List.length (split c s) = S (count_char c s).
Proof.
  induction s as [|x r IH]; simpl; auto.
  destruct (x =? c)%N; simpl; [now rewrite IH|].
  pose proof (split_not_nil c r) as Hn.
  destruct (split c r); [contradiction | exact IH].
Qed.

Lemma split_join (c : N) (s : str) : join [c] (split c s) = s.
Proof.
  induction s as [|x r IH]; simpl; auto.
  destruct (x =? c)%N eqn:E.
  - apply N.eqb_eq in E. subst x.
    pose proof (split_not_nil c r) as Hn.
    destruct (split c r) as [|h t]; [contradiction|].
    simpl in *. now rewrite IH.
  - pose proof (split_not_nil c r) as Hn.
    destruct (split c r) as [|h t]; [contradiction|].
    simpl in *. destruct t; simpl in *; now rewrite <- IH.
Qed.

Lemma split_no_separator (c : N) (s : str) :
  Forall (fun item => ~ In c item) (split c s).
Proof.
  induction s as [|x r IH]; simpl.
  - constructor; [intros [] | constructor].
  - destruct (x =? c)%N eqn:E.
    + constructor; [intros [] | exact IH].
    + apply N.eqb_neq in E.
      destruct (split c r) as [|h t]; [repeat constructor; intros [H|[]]; auto|].
      inversion IH; subst. constructor; auto.
      intros [H|H]; auto.
Qed.

(** [X3] The database list of a manager is never empty: it has one entry
    more than the configured string has commas, no entry holds a comma,
    and the entries joined by commas give the configured string back.
    An empty option therefore yields one entry, the empty name, which the
    loop processes like any other. *)
Theorem database_list_shape (ie : InitEnv) (w w' : World) (cfg : Config) :
  init ie w = (Ok cfg, w') ->
  exists raw,
    ini ie (lit "mysql") (lit "databases") = Found raw
    /\ List.length (databases cfg) = S (count_char comma raw)
    /\ Forall (fun d => ~ In comma d) (databases cfg)
    /\ join [comma] (databases cfg) = raw.
Proof.
  intros H. destruct (init_databases ie w w' cfg H) as [raw [E ->]].
  exists raw. split; [exact E|]. split; [apply split_length|].
  split; [apply split_no_separator | apply split_join].
Qed.

Lemma database_list_shape_witness :
  exists raw,
    ini sample_file (lit "mysql") (lit "databases") = Found raw
    /\ List.length (databases Fixture.cfg0) = S (count_char comma raw)
    /\ Forall (fun d => ~ In comma d) (databases Fixture.cfg0)
    /\ join [comma] (databases Fixture.cfg0) = raw.
Proof.
  apply (database_list_shape sample_file Fixture.w0 Fixture.w0 Fixture.cfg0).
  vm_compute. reflexivity.
Defined.

(** ** The scratch directory after a successful entry *)

Lemma file_remove_absent (p : str) (fs : list str) :
  file_exists p fs = false -> file_remove p fs = fs.
Proof.
  unfold file_exists, file_remove.
  induction fs as [|q fs IH]; simpl; auto.
  destruct (str_eqb p q); simpl; [discriminate|].
  intros H. now rewrite IH.
Qed.

Lemma file_remove_add (p : str) (fs : list str) :
  file_remove p (file_add p fs) = file_remove p fs.
Proof.
  unfold file_add. destruct (file_exists p fs); auto.
  unfold file_remove. rewrite filter_app. simpl.
  rewrite str_eqb_refl. simpl. apply app_nil_r.
Qed.

Lemma create_mysql_dump_files_eq (cfg : Config) (pe : Pipe) (d : str)
  (w : World) :
  dump_failure pe = None ->
  files (snd (create_mysql_dump cfg pe d w))
  = file_add (dump_path cfg d (now_dump pe) ++ lit ".gz")
      (file_remove (dump_path cfg d (now_dump pe))
         (file_add (dump_path cfg d (now_dump pe)) (files w))).
Proof.
  unfold create_mysql_dump, dump_failure, open_w, run_gzip. munfold.
  destruct (open_error pe); simpl; try discriminate.
  destruct (mysqldump pe) as [[rc err]|e]; simpl; try discriminate.
  destruct (rc =? 0); simpl; try discriminate.
  destruct (gzip_error pe); simpl; try discriminate.
  reflexivity.
Qed.

(** [X4] An entry whose steps all succeed leaves neither its raw dump
    nor its compressed dump in the scratch directory and touches no other
    file: when neither file was there before, the local files are the
    same after the entry as before. *)
Theorem healthy_entry_restores_disk (cfg : Config) (pe : Pipe)
  (database : str) (t : Tally) (w : World) :
  let sql := dump_path cfg (strip database) (now_dump pe) in
  let gz := sql ++ lit ".gz" in
  let after := files (snd (backup_one cfg pe database t w)) in
  first_failure pe = None ->
  after = file_remove gz (file_remove sql (files w))
  /\ (file_exists sql (files w) = false ->
      file_exists gz (files w) = false -> after = files w).
Proof.
  intros sql gz after Hff. subst after.
  assert (Hd : dump_failure pe = None).
  { unfold first_failure in Hff. destruct (dump_failure pe); congruence. }
  rewrite (backup_one_world cfg pe database t w Hff). cbn [files set_files].
  destruct (cleanup_old_backups_frame cfg pe (strip database)
              (snd (upload_to_s3 cfg pe gz (strip database)
                      (snd (create_mysql_dump cfg pe (strip database) w)))))
    as (_ & F3 & _).
  fold sql gz. rewrite F3, upload_to_s3_files.
  rewrite (create_mysql_dump_files_eq cfg pe (strip database) w Hd).
  fold sql gz. rewrite !file_remove_add.
  split; [reflexivity|].
  intros Hs Hg. rewrite (file_remove_absent sql _ Hs).
  apply file_remove_absent. exact Hg.
Qed.

Lemma healthy_entry_restores_disk_witness :
  files (snd (backup_one Fixture.cfg0 Fixture.fine (lit "orders") tally0
                Fixture.w1))
  = files Fixture.w1.
Proof.
  refine (proj2 (healthy_entry_restores_disk Fixture.cfg0 Fixture.fine
                   (lit "orders") tally0 Fixture.w1 _) _ _).
  - vm_compute. reflexivity.
  - vm_compute. reflexivity.
  - vm_compute. reflexivity.
Defined.

(** ** An entry that fails *)

Ltac keeps_prim :=
  intros ?w;
  unfold logging_info, logging_error, record, open_w, run_gzip, os_remove,
    upload_file, put_object_tagging, list_objects_v2, delete_object,
    smtp_send, bind;
  repeat match goal with
         | |- context [match ?x with _ => _ end] => destruct x
         end;
  reflexivity.

Ltac keeps_all :=
  repeat first
    [ apply keeps_ret | apply keeps_raise | apply keeps_lift
    | apply keeps_check
    | apply keeps_bind; [|intros ?]
    | apply keeps_try_except; [|intros ?]
    | match goal with
      | |- keeps _ (if ?b then _ else _) => destruct b
      end
    | solve [keeps_prim] ].

Ltac emits_all side :=
  repeat first
    [ apply emits_ret | apply emits_raise | apply emits_lift
    | apply emits_logging_info | apply emits_logging_error
    | apply emits_open_w | apply emits_run_gzip | apply emits_os_remove
    | apply emits_upload_file; side
    | apply emits_put_object_tagging; side
    | apply emits_record; side
    | match goal with
      | |- emits _ (if ?b then _ else _) => destruct b
      end
    | apply emits_bind; [|intros ?]
    | apply emits_try_except; [|intros ?] ].

Section FailedEntry.

Variable cfg : Config.

Lemma create_mysql_dump_keeps_bucket (pe : Pipe) (d : str) :
  keeps bucket (create_mysql_dump cfg pe d).
Proof. unfold create_mysql_dump. keeps_all. Qed.

Lemma create_mysql_dump_keeps_outbox (pe : Pipe) (d : str) :
  keeps outbox (create_mysql_dump cfg pe d).
Proof. unfold create_mysql_dump. keeps_all. Qed.

Lemma create_mysql_dump_processes (pe : Pipe) (d : str) :
  emits_first (CallDump d) is_exec (create_mysql_dump cfg pe d).
Proof.
  unfold create_mysql_dump. apply emits_first_record.
  emits_all ltac:(exact I).
Qed.

Lemma create_mysql_dump_failed_log (pe : Pipe) (d : str) (w : World) (e : str) :
  dump_failure pe = Some e ->
  log (snd (create_mysql_dump cfg pe d w))
  = log w ++ [dump_start_line d; dump_error_line d e].
Proof.
  unfold create_mysql_dump, dump_failure, open_w, run_gzip,
    dump_start_line, dump_error_line. munfold.
  destruct (open_error pe); simpl.
  { intros H; injection H as ->. now rewrite <- app_assoc. }
  destruct (mysqldump pe) as [[rc err]|e0]; simpl.
  2:{ intros H; injection H as ->. now rewrite <- app_assoc. }
  destruct (rc =? 0); simpl.
  2:{ intros H; injection H as <-. now rewrite <- app_assoc. }
  destruct (gzip_error pe); simpl; [|discriminate].
  intros H; injection H as ->. now rewrite <- app_assoc.
Qed.

Lemma backup_one_dump_failed (pe : Pipe) (database : str) (t : Tally)
  (w : World) (e : str) :
  dump_failure pe = Some e ->
  let w1 := snd (create_mysql_dump cfg pe (strip database) w) in
  snd (backup_one cfg pe database t w)
  = set_log (log w1 ++ [entry_error_line database e]) w1.
Proof.
  intros Hd. cbv zeta. unfold backup_one.
  unfold try_except, bind at 1 2 3 4.
  pose proof (create_mysql_dump_result cfg pe (strip database) w) as R1.
  rewrite Hd in R1.
  destruct (create_mysql_dump cfg pe (strip database) w) as [[f|e1] w1];
    cbn [fst snd] in *; [discriminate|].
  injection R1 as ->. reflexivity.
Qed.

Lemma backup_one_upload_failed (pe : Pipe) (database : str) (t : Tally)
  (w : World) (e : str) :
  dump_failure pe = None ->
  upload_failure pe = Some e ->
  let d := strip database in
  let gz := dump_path cfg d (now_dump pe) ++ lit ".gz" in
  let w2 := snd (upload_to_s3 cfg pe gz d
                   (snd (create_mysql_dump cfg pe d w))) in
  snd (backup_one cfg pe database t w)
  = set_log (log w2 ++ [entry_error_line database e]) w2.
Proof.
  intros Hd Hu. cbv zeta. unfold backup_one.
  set (d := strip database).
  unfold try_except, bind at 1 2 3 4.
  pose proof (create_mysql_dump_result cfg pe d w) as R1.
  pose proof (create_mysql_dump_files cfg pe d w Hd) as F1.
  rewrite Hd in R1.
  destruct (create_mysql_dump cfg pe d w) as [[f|e1] w1]; cbn [fst snd] in *;
    [|discriminate].
  injection R1 as ->.
  pose proof (upload_to_s3_result cfg pe _ d w1 F1) as R2.
  rewrite Hu in R2.
  destruct (upload_to_s3 cfg pe _ d w1) as [[k|e2] w2]; cbn [fst snd] in *;
    [discriminate|].
  injection R2 as ->. reflexivity.
Qed.

End FailedEntry.

(** [X5] When the dump of an entry fails -- the dump file cannot be
    opened, [mysqldump] cannot be started or exits with a status other
    than 0, or [gzip] fails -- the entry ends there: apart from the entry
    into the dump the only calls are the processes started, no request
    reaches the bucket, which is unchanged, no mail is sent, and the log
    gains the start record, the error of the dump and the error of the
    entry, both with the same message. *)
Theorem failed_dump_stops_entry (cfg : Config) (pe : Pipe) (database : str)
  (t : Tally) (w : World) (e : str) :
  let d := strip database in
  let w' := snd (backup_one cfg pe database t w) in
  dump_failure pe = Some e ->
  bucket w' = bucket w
  /\ outbox w' = outbox w
  /\ (exists tr, trace w' = trace w ++ CallDump d :: tr /\ Forall is_exec tr)
  /\ log w' = log w ++ [dump_start_line d; dump_error_line d e;
                        entry_error_line database e].
Proof.
  intros d w' Hd. subst w'.
  rewrite (backup_one_dump_failed cfg pe database t w e Hd).
  cbn [bucket outbox trace log set_log]. fold d.
  split; [apply create_mysql_dump_keeps_bucket|].
  split; [apply create_mysql_dump_keeps_outbox|].
  split; [apply create_mysql_dump_processes|].
  rewrite (create_mysql_dump_failed_log cfg pe d w e Hd).
  rewrite <- app_assoc. reflexivity.
Qed.

Lemma failed_dump_stops_entry_witness :
  bucket (snd (backup_one Fixture.cfg0
                 (Fixture.with_mysqldump (Ok (2, lit "Access denied"))
                                         Fixture.fine)
                 (lit "orders") tally0 Fixture.w1))
  = bucket Fixture.w1.
Proof.
  refine (proj1 (failed_dump_stops_entry Fixture.cfg0
                   (Fixture.with_mysqldump (Ok (2, lit "Access denied"))
                                           Fixture.fine)
                   (lit "orders") tally0 Fixture.w1
                   (lit "Erro no mysqldump: " ++ lit "Access denied") _)).
  vm_compute. reflexivity.
Defined.

(** ** The bucket after an upload *)

Lemma str_eqb_sym (a b : str) : str_eqb a b = str_eqb b a.
Proof.
  destruct (str_eqb a b) eqn:E.
  - apply str_eqb_eq in E. subst. symmetry. apply str_eqb_refl.
  - destruct (str_eqb b a) eqn:E'; auto.
    apply str_eqb_eq in E'. subst. now rewrite str_eqb_refl in E.
Qed.

Lemma in_put_object_other (n o : RemoteObject) (b : list RemoteObject) :
  Key o <> Key n -> (In o (put_object n b) <-> In o b).
Proof.
  intros Hk. induction b as [|x b IH]; simpl.
  - split; [intros [->|[]]; congruence | intros []].
  - destruct (str_eqb (Key x) (Key n)) eqn:E.
    + apply str_eqb_eq in E. simpl.
      split; (intros [<-|H]; [congruence | now right]).
    + destruct (str_ltb (Key n) (Key x)); simpl.
      * split; [intros [<-|H]; [congruence | exact H] | now right].
      * rewrite IH. tauto.
Qed.

Lemma in_put_object (n o : RemoteObject) (b : list RemoteObject) :
  In o (put_object n b) -> o = n \/ In o b.
Proof.
  induction b as [|x b IH]; simpl.
  - intros [<-|[]]; auto.
  - destruct (str_eqb (Key x) (Key n)); simpl.
    + intros [<-|H]; auto.
    + destruct (str_ltb (Key n) (Key x)); simpl.
      * intros [<-|H]; auto.
      * intros [<-|H]; auto. destruct (IH H); auto.
Qed.

Lemma in_set_tags_other (k : str) tags (o : RemoteObject)
  (b : list RemoteObject) :
  Key o <> k -> (In o (set_tags k tags b) <-> In o b).
Proof.
  intros Hk. unfold set_tags. rewrite in_map_iff. split.
  - intros [x [E Hx]].
    destruct (str_eqb k (Key x)) eqn:Ex; [|now subst].
    apply str_eqb_eq in Ex. subst o. simpl in Hk. congruence.
  - intros Ho. exists o. split; [|exact Ho].
    destruct (str_eqb k (Key o)) eqn:Eo; auto.
    apply str_eqb_eq in Eo. congruence.
Qed.

Lemma lookup_put_object (n : RemoteObject) (b : list RemoteObject) :
  lookup (Key n) (put_object n b) = Some n.
Proof.
  unfold lookup. induction b as [|x b IH]; simpl.
  - now rewrite str_eqb_refl.
  - destruct (str_eqb (Key x) (Key n)) eqn:E; simpl.
    + now rewrite str_eqb_refl.
    + destruct (str_ltb (Key n) (Key x)); simpl.
      * now rewrite str_eqb_refl.
      * rewrite str_eqb_sym, E. exact IH.
Qed.

Lemma lookup_set_tags (k : str) tags (b : list RemoteObject) :
  lookup k (set_tags k tags b)
  = option_map (fun o => {| Key := Key o; LastModified := LastModified o;
                            TagSet := tags |}) (lookup k b).
Proof.
  unfold lookup, set_tags. induction b as [|x b IH]; simpl; auto.
  destruct (str_eqb k (Key x)) eqn:E; simpl; rewrite E; auto.
Qed.

Section UploadBucket.

Variable cfg : Config.

Lemma upload_to_s3_bucket (pe : Pipe) (f d : str) (w : World) :
  file_exists f (files w) = true ->
  let key := s3_key_of d (basename f) in
  bucket (snd (upload_to_s3 cfg pe f d w))
  = match transfer_error pe with
    | Some _ => bucket w
    | None =>
      match tagging_error pe with
      | Some _ => put_object (stored_object pe key) (bucket w)
      | None => set_tags key (backup_tags pe d)
                  (put_object (stored_object pe key) (bucket w))
      end
    end.
Proof.
  intros Hf.
  unfold upload_to_s3, upload_file, put_object_tagging. munfold. simpl.
  destruct (transfer_error pe); simpl; auto.
  rewrite Hf. simpl.
  destruct (tagging_error pe); simpl; reflexivity.
Qed.

Lemma upload_to_s3_failed_log_eq (pe : Pipe) (f d : str) (w : World)
  (e : str) :
  file_exists f (files w) = true ->
  upload_failure pe = Some e ->
  log (snd (upload_to_s3 cfg pe f d w))
  = log w ++ [upload_start_line f; upload_error_line e].
Proof.
  intros Hf. unfold upload_failure.
  unfold upload_to_s3, upload_file, put_object_tagging,
    upload_start_line, upload_error_line. munfold. simpl.
  destruct (transfer_error pe) as [e1|]; simpl.
  - intros H; injection H as ->. now rewrite <- app_assoc.
  - rewrite Hf. simpl. intros ->. simpl. now rewrite <- app_assoc.
Qed.

Lemma upload_to_s3_before_cleanup (pe : Pipe) (f d : str) :
  emits before_cleanup (upload_to_s3 cfg pe f d).
Proof.
  unfold upload_to_s3. cbv zeta. emits_all ltac:(exact I).
Qed.

Lemma create_mysql_dump_before_cleanup (pe : Pipe) (d : str) :
  emits before_cleanup (create_mysql_dump cfg pe d).
Proof.
  unfold create_mysql_dump. emits_all ltac:(exact I).
Qed.

End UploadBucket.

(** [X6] A successful upload stores exactly one object: under the key
    of the artifact the bucket then holds an object with the time stamp
    of the store and the three tags [Type=mysql_backup],
    [Database={database}] and [Date={YYYY-MM-DD}] of the day of the
    upload; the objects under every other key are the same as before. *)
Theorem upload_stores_tagged_object (cfg : Config) (pe : Pipe) (f d : str)
  (w : World) :
  let key := s3_key_of d (basename f) in
  let w' := snd (upload_to_s3 cfg pe f d w) in
  upload_failure pe = None ->
  file_exists f (files w) = true ->
  lookup key (bucket w')
  = Some {| Key := key; LastModified := upload_time pe;
            TagSet := [ (lit "Type", lit "mysql_backup");
                        (lit "Database", d);
                        (lit "Date", strftime_date (now_tag pe)) ] |}
  /\ (forall o, Key o <> key -> (In o (bucket w') <-> In o (bucket w))).
Proof.
  intros key w' Hu Hf. subst w'.
  rewrite (upload_to_s3_bucket cfg pe f d w Hf). cbv zeta. fold key.
  unfold upload_failure in Hu.
  destruct (transfer_error pe); [discriminate|]. rewrite Hu.
  split.
  - rewrite lookup_set_tags.
    rewrite (lookup_put_object (stored_object pe key)). reflexivity.
  - intros o Ho. rewrite in_set_tags_other by exact Ho.
    apply (in_put_object_other (stored_object pe key)). exact Ho.
Qed.

Lemma upload_stores_tagged_object_witness :
  lookup (s3_key_of (lit "orders") (basename Fixture.orders_gz))
    (bucket (snd (upload_to_s3 Fixture.cfg0 Fixture.fine Fixture.orders_gz
                    (lit "orders")
                    (set_files [Fixture.orders_gz] Fixture.w1))))
  = Some {| Key := s3_key_of (lit "orders") (basename Fixture.orders_gz);
            LastModified := upload_time Fixture.fine;
            TagSet := [ (lit "Type", lit "mysql_backup");
                        (lit "Database", lit "orders");
                        (lit "Date", strftime_date (now_tag Fixture.fine)) ] |}.
Proof.
  refine (proj1 (upload_stores_tagged_object Fixture.cfg0 Fixture.fine
                   Fixture.orders_gz (lit "orders")
                   (set_files [Fixture.orders_gz] Fixture.w1) _ _)).
  - reflexivity.
  - vm_compute. reflexivity.
Defined.

(** [X7] When the upload of an entry fails after a successful dump, the
    retention step is not run for that entry: no list and no delete
    request is sent, every object of the bucket under another key than
    the one of the artifact is still there, nothing is added under
    another key, and the log ends with the error of the upload followed
    by the error of the entry, both with the same message. *)
Theorem failed_upload_skips_retention (cfg : Config) (pe : Pipe)
  (database : str) (t : Tally) (w : World) (e : str) :
  let d := strip database in
  let gz := dump_path cfg d (now_dump pe) ++ lit ".gz" in
  let key := s3_key_of d (basename gz) in
  let w' := snd (backup_one cfg pe database t w) in
  dump_failure pe = None ->
  upload_failure pe = Some e ->
  (exists tr, trace w' = trace w ++ tr /\ Forall before_cleanup tr)
  /\ (forall o, Key o <> key -> (In o (bucket w') <-> In o (bucket w)))
  /\ (exists l, log w' = l ++ [upload_start_line gz; upload_error_line e;
                               entry_error_line database e]).
Proof.
  intros d gz key w' Hd Hu. subst w'.
  rewrite (backup_one_upload_failed cfg pe database t w e Hd Hu).
  cbn [bucket trace log set_log]. fold d gz.
  pose proof (create_mysql_dump_files cfg pe d w Hd) as F1. fold gz in F1.
  split; [|split].
  - destruct (create_mysql_dump_before_cleanup cfg pe d w) as [tr1 [E1 P1]].
    destruct (upload_to_s3_before_cleanup cfg pe gz d
                (snd (create_mysql_dump cfg pe d w))) as [tr2 [E2 P2]].
    exists (tr1 ++ tr2). rewrite E2, E1, app_assoc.
    split; [reflexivity | apply Forall_app; auto].
  - intros o Ho.
    rewrite (upload_to_s3_bucket cfg pe gz d _ F1). cbv zeta. fold key.
    rewrite (create_mysql_dump_keeps_bucket cfg pe d w).
    destruct (transfer_error pe); [tauto|].
    destruct (tagging_error pe).
    + apply (in_put_object_other (stored_object pe key)). exact Ho.
    + rewrite in_set_tags_other by exact Ho.
      apply (in_put_object_other (stored_object pe key)). exact Ho.
  - rewrite (upload_to_s3_failed_log_eq cfg pe gz d _ e F1 Hu).
    eexists. rewrite <- app_assoc. reflexivity.
Qed.

Lemma failed_upload_skips_retention_witness :
  exists tr,
    trace (snd (backup_one Fixture.cfg0
                  (Fixture.with_transfer_error (Some (lit "timed out"))
                                               Fixture.fine)
                  (lit "orders") tally0 Fixture.w1))
    = trace Fixture.w1 ++ tr
    /\ Forall before_cleanup tr.
Proof.
  refine (proj1 (failed_upload_skips_retention Fixture.cfg0
                   (Fixture.with_transfer_error (Some (lit "timed out"))
                                                Fixture.fine)
                   (lit "orders") tally0 Fixture.w1 (lit "timed out") _ _)).
  - reflexivity.
  - reflexivity.
Defined.

(** ** More on the retention step *)

Lemma sweep_nothing_old (pe : Pipe) (c : datetime) contents :
  (forall o, In o contents -> is_old c o = false) ->
  sweep pe c contents = ([], None).
Proof.
  induction contents as [|o rest IH]; simpl; auto.
  intros H. rewrite (H o) by now left.
  apply IH. intros x Hx. apply H. now right.
Qed.

Lemma cleanup_old_backups_no_cutoff (cfg : Config) (pe : Pipe)
  (database : str) (w : World) (e : str) :
  cutoff (now_cleanup pe) (retention_days cfg) = Raise e ->
  snd (cleanup_old_backups cfg pe database w)
  = set_log (log w ++ [cleanup_error_line e])
      (set_trace (trace w ++ [CallCleanup database]) w).
Proof.
  intros Hc. unfold cleanup_old_backups. munfold. cbn [fst snd].
  rewrite Hc. reflexivity.
Qed.

(** [X8] The retention step only ever removes objects whose key begins
    with the prefix of its database: in every run, whatever fails, the
    bucket after the step is a part of the bucket before, every object
    under another prefix is still there, the step returns normally, and
    the local files and the outgoing mail are untouched. *)
Theorem cleanup_stays_under_prefix (cfg : Config) (pe : Pipe)
  (database : str) (w : World) :
  let r := cleanup_old_backups cfg pe database w in
  fst r = Ok tt
  /\ files (snd r) = files w
  /\ outbox (snd r) = outbox w
  /\ (forall o, In o (bucket (snd r)) -> In o (bucket w))
  /\ (forall o, In o (bucket w) ->
                startswith (Key o) (retention_prefix database) = false ->
                In o (bucket (snd r))).
Proof.
  intros r. subst r.
  destruct (cleanup_old_backups_frame cfg pe database w) as (R & F & O).
  split; [exact R|]. split; [exact F|]. split; [exact O|].
  destruct (cutoff (now_cleanup pe) (retention_days cfg)) as [c|e] eqn:Hc.
  - destruct (list_error pe) as [e|] eqn:Hl.
    + destruct (cleanup_old_backups_skipped cfg pe database w) as [B _];
        [right; eauto|]. cbn zeta in B. rewrite B. auto.
    + destruct (cleanup_old_backups_listed cfg pe database w c Hc Hl)
        as (_ & B & _). cbn zeta in B. rewrite B.
      split.
      * intros o Ho. apply in_remove_objects in Ho. tauto.
      * intros o Ho Hp. apply in_remove_objects. split; [exact Ho|].
        intros Hk.
        assert (Hr : In (Key o)
                       (requested (sweep pe c
                          (first_page (retention_prefix database)
                                      (bucket w))))).
        { unfold requested. apply in_or_app. now left. }
        apply sweep_requested_in in Hr. destruct Hr as [o' [Ho' [Hk' _]]].
        apply in_first_page in Ho'. destruct Ho' as [_ Hs].
        rewrite Hk' in Hs. congruence.
  - destruct (cleanup_old_backups_skipped cfg pe database w) as [B _];
      [left; eauto|]. cbn zeta in B. rewrite B. auto.
Qed.

(** [X9] When no object of the listing is older than the cut-off date --
    in particular when the listing is empty and the response has no
    [Contents] -- the retention step sends its list request and nothing
    else: it deletes nothing and writes nothing to the log. *)
Theorem cleanup_without_old_objects (cfg : Config) (pe : Pipe)
  (database : str) (w : World) (c : datetime) :
  let w' := snd (cleanup_old_backups cfg pe database w) in
  cutoff (now_cleanup pe) (retention_days cfg) = Ok c ->
  list_error pe = None ->
  (forall o, In o (first_page (retention_prefix database) (bucket w)) ->
             is_old c o = false) ->
  bucket w' = bucket w
  /\ log w' = log w
  /\ trace w' = trace w ++ [CallCleanup database;
                            ReqList (retention_prefix database)].
Proof.
  intros w' Hc Hl Hn. subst w'.
  destruct (cleanup_old_backups_listed cfg pe database w c Hc Hl)
    as (T & B & L). cbn zeta in T, B, L.
  rewrite (sweep_nothing_old pe c _ Hn) in T, B, L.
  cbn in T, B, L. rewrite app_nil_r in L. auto.
Qed.

Lemma cleanup_without_old_objects_witness :
  log (snd (cleanup_old_backups Fixture.cfg0 Fixture.fine (lit "users")
              Fixture.w1))
  = log Fixture.w1.
Proof.
  refine (proj1 (proj2 (cleanup_without_old_objects Fixture.cfg0 Fixture.fine
                          (lit "users") Fixture.w1
                          (Fixture.t_run - 30 * us_per_day) _ _ _))).
  - vm_compute. reflexivity.
  - reflexivity.
  - intros o Ho. vm_compute in Ho. destruct Ho.
Defined.

(** [X10] When the listing and the deletes succeed and at least one
    object of the listing is older than the cut-off date, the step
    deletes these objects in the order of the listing, writes one record
    per deleted key and closes with the record of the count, which is the
    number of the keys deleted. *)
Theorem cleanup_logs_count (cfg : Config) (pe : Pipe) (database : str)
  (w : World) (c : datetime) :
  let old := map Key (filter (is_old c)
                        (first_page (retention_prefix database) (bucket w))) in
  let w' := snd (cleanup_old_backups cfg pe database w) in
  cutoff (now_cleanup pe) (retention_days cfg) = Ok c ->
  list_error pe = None ->
  (forall k, delete_error pe k = None) ->
  old <> [] ->
  selected cfg pe database w = old
  /\ trace w' = trace w ++ CallCleanup database
                        :: ReqList (retention_prefix database)
                        :: map ReqDelete old
  /\ log w' = log w ++ map removed_line old
                    ++ [cleanup_done_line (Z.of_nat (List.length old))].
Proof.
  intros old w' Hc Hl Hd Hne. subst w'.
  destruct (cleanup_old_backups_all cfg pe database w c Hc Hl Hd) as [S _].
  destruct (cleanup_old_backups_listed cfg pe database w c Hc Hl)
    as (T & _ & L). cbn zeta in S, T, L.
  rewrite (sweep_all pe c _ Hd) in T, L.
  unfold requested in T. cbn [fst snd] in T, L. rewrite app_nil_r in T.
  fold old in S, T, L.
  split; [exact S|]. split; [exact T|].
  rewrite L. destruct old as [|k ks]; [congruence|].
  reflexivity.
Qed.

Lemma cleanup_logs_count_witness :
  selected Fixture.cfg0 Fixture.fine (lit "orders") Fixture.w1
  = map Key (filter (is_old (Fixture.t_run - 30 * us_per_day))
               (first_page (retention_prefix (lit "orders"))
                           (bucket Fixture.w1))).
Proof.
  refine (proj1 (cleanup_logs_count Fixture.cfg0 Fixture.fine (lit "orders")
                   Fixture.w1 (Fixture.t_run - 30 * us_per_day) _ _ _ _)).
  - vm_compute. reflexivity.
  - reflexivity.
  - intros k. reflexivity.
  - vm_compute. discriminate.
Defined.

Lemma cutoff_raise_iff (now : datetime) (days : Z) :
  in_range now = true -> 0 <= days ->
  (exists e, cutoff now days = Raise e) <-> now < days * us_per_day.
Proof.
  intros Hn Hd. split.
  - intros [e He]. pose proof (cutoff_raise now days e Hn Hd He). lia.
  - intros Hlt. unfold cutoff, timedelta_days, datetime_sub.
    destruct (Z.abs days <=? max_delta_days); [|eauto].
    destruct (in_range (now - days * us_per_day)) eqn:Hr; [|eauto].
    unfold in_range in Hr. apply andb_true_iff in Hr.
    destruct Hr as [Hr _]. apply Z.leb_le in Hr. lia.
Qed.

(** [X11] With a retention window of [W >= 0] days, the cut-off date
    cannot be computed exactly when [W] days reach back before the year
    1.  The retention step then deletes nothing and sends no request: it
    writes one [ERROR] record and returns. *)
Theorem oversized_window_disables_retention (cfg : Config) (pe : Pipe)
  (database : str) (w : World) :
  let W := retention_days cfg in
  let w' := snd (cleanup_old_backups cfg pe database w) in
  in_range (now_cleanup pe) = true ->
  0 <= W ->
  ((exists e, cutoff (now_cleanup pe) W = Raise e)
   <-> now_cleanup pe < W * us_per_day)
  /\ (now_cleanup pe < W * us_per_day ->
      bucket w' = bucket w
      /\ trace w' = trace w ++ [CallCleanup database]
      /\ exists e, log w' = log w ++ [cleanup_error_line e]).
Proof.
  intros W w' Hn HW. subst W w'.
  split; [apply cutoff_raise_iff; assumption|].
  intros Hlt.
  destruct (proj2 (cutoff_raise_iff _ _ Hn HW) Hlt) as [e He].
  rewrite (cleanup_old_backups_no_cutoff cfg pe database w e He).
  cbn. split; [reflexivity|]. split; [reflexivity|]. eauto.
Qed.

Lemma oversized_window_disables_retention_witness :
  bucket (snd (cleanup_old_backups (with_retention 800000 Fixture.cfg0)
                 Fixture.fine (lit "orders") Fixture.w1))
  = bucket Fixture.w1.
Proof.
  refine (proj1 (proj2 (oversized_window_disables_retention
                          (with_retention 800000 Fixture.cfg0) Fixture.fine
                          (lit "orders") Fixture.w1 _ _) _)).
  - reflexivity.
  - vm_compute. discriminate.
  - vm_compute. reflexivity.
Defined.

(** ** The new backup and the retention step of the same entry *)

Lemma lookup_none_iff (k : str) (b : list RemoteObject) :
  lookup k b = None <-> forall o, In o b -> Key o <> k.
Proof.
  unfold lookup. split.
  - intros H o Ho Hk.
    pose proof (find_none _ _ H o Ho) as E. cbv beta in E.
    rewrite Hk, str_eqb_refl in E. discriminate.
  - intros H. destruct (find _ b) as [o|] eqn:E; auto.
    apply find_some in E. destruct E as [Ho Ek].
    apply str_eqb_eq in Ek. exfalso. apply (H o Ho). congruence.
Qed.

Lemma lookup_some_in (k : str) (b : list RemoteObject) (o : RemoteObject) :
  lookup k b = Some o -> In o b /\ Key o = k.
Proof.
  unfold lookup. intros E. apply find_some in E. destruct E as [Ho Ek].
  apply str_eqb_eq in Ek. auto.
Qed.

Lemma lookup_remove_object_other (k k' : str) (b : list RemoteObject) :
  k <> k' -> lookup k (remove_object k' b) = lookup k b.
Proof.
  intros Hk. unfold lookup, remove_object.
  induction b as [|x b IH]; simpl; auto.
  destruct (str_eqb k' (Key x)) eqn:E; simpl.
  - apply str_eqb_eq in E.
    destruct (str_eqb k (Key x)) eqn:E'; [|exact IH].
    apply str_eqb_eq in E'. congruence.
  - destruct (str_eqb k (Key x)); [reflexivity | exact IH].
Qed.

Lemma lookup_remove_objects_other (k : str) (ks : list str) :
  forall b, ~ In k ks -> lookup k (remove_objects ks b) = lookup k b.
Proof.
  unfold remove_objects.
  induction ks as [|k' ks IH]; intros b Hn; simpl; auto.
  rewrite IH by (intros H; apply Hn; now right).
  apply lookup_remove_object_other. intros ->. apply Hn. now left.
Qed.

Lemma lookup_remove_objects_in (k : str) (ks : list str)
  (b : list RemoteObject) :
  In k ks -> lookup k (remove_objects ks b) = None.
Proof.
  intros Hk. apply lookup_none_iff. intros o Ho Ek.
  apply in_remove_objects in Ho. destruct Ho as [_ Hn].
  apply Hn. now rewrite Ek.
Qed.

Section NewBackup.

Variable cfg : Config.

(** The bucket in which the retention step of a healthy entry starts
    holds the new backup under its key, and this is the only object
    under that key when the key was free before. *)
Lemma bucket_before_cleanup (pe : Pipe) (database : str) (w : World) :
  let d := strip database in
  let gz := dump_path cfg d (now_dump pe) ++ lit ".gz" in
  let key := s3_key_of d (basename gz) in
  let w2 := snd (upload_to_s3 cfg pe gz d
                   (snd (create_mysql_dump cfg pe d w))) in
  first_failure pe = None ->
  lookup key (bucket w2) = Some (backup_object pe d key)
  /\ (lookup key (bucket w) = None ->
      forall o, In o (bucket w2) -> Key o = key ->
                o = backup_object pe d key).
Proof.
  intros d gz key w2 Hff. subst w2.
  assert (Hd : dump_failure pe = None).
  { unfold first_failure in Hff. destruct (dump_failure pe); congruence. }
  assert (Hu : upload_failure pe = None).
  { unfold first_failure in Hff. rewrite Hd in Hff.
    destruct (upload_failure pe); congruence. }
  pose proof (create_mysql_dump_files cfg pe d w Hd) as F1. fold gz in F1.
  rewrite (upload_to_s3_bucket cfg pe gz d _ F1). cbv zeta. fold key.
  rewrite (create_mysql_dump_keeps_bucket cfg pe d w).
  unfold upload_failure in Hu.
  destruct (transfer_error pe); [discriminate|]. rewrite Hu.
  split.
  - rewrite lookup_set_tags.
    rewrite (lookup_put_object (stored_object pe key)). reflexivity.
  - intros Hfree o Ho Hk.
    unfold set_tags in Ho. apply in_map_iff in Ho.
    destruct Ho as [x [Ex Hx]].
    apply in_put_object in Hx. destruct Hx as [->|Hx].
    + cbn in Ex. rewrite str_eqb_refl in Ex. subst o. reflexivity.
    + exfalso. apply (proj1 (lookup_none_iff key (bucket w)) Hfree x Hx).
      destruct (str_eqb key (Key x)) eqn:E.
      * apply str_eqb_eq in E. congruence.
      * subst o. exact Hk.
Qed.

End NewBackup.

(** [X12] The backup of a healthy entry is in the bucket when the entry
    is done, with its time stamp and its tags, provided its key was free
    before and the store did not stamp it before the cut-off date of the
    retention step of the same entry (which is so whenever the cut-off
    date cannot be computed). *)
Theorem new_backup_is_kept (cfg : Config) (pe : Pipe) (database : str)
  (t : Tally) (w : World) :
  let d := strip database in
  let gz := dump_path cfg d (now_dump pe) ++ lit ".gz" in
  let key := s3_key_of d (basename gz) in
  let w' := snd (backup_one cfg pe database t w) in
  first_failure pe = None ->
  lookup key (bucket w) = None ->
  (forall c, cutoff (now_cleanup pe) (retention_days cfg) = Ok c ->
             c <= upload_time pe) ->
  lookup key (bucket w') = Some (backup_object pe d key).
Proof.
  intros d gz key w' Hff Hfree Hc. subst w'.
  rewrite (backup_one_world cfg pe database t w Hff).
  cbn [bucket set_files]. fold d gz.
  destruct (bucket_before_cleanup cfg pe database w Hff) as [Hl Hone].
  cbv zeta in Hl, Hone. fold d gz key in Hl, Hone.
  specialize (Hone Hfree).
  set (w2 := snd (upload_to_s3 cfg pe gz d
                    (snd (create_mysql_dump cfg pe d w)))) in *.
  destruct (cutoff (now_cleanup pe) (retention_days cfg)) as [c|e] eqn:Ec.
  - destruct (list_error pe) as [e|] eqn:El.
    + destruct (cleanup_old_backups_skipped cfg pe d w2) as [B _];
        [right; eauto|]. cbn zeta in B. rewrite B. exact Hl.
    + destruct (cleanup_old_backups_listed cfg pe d w2 c Ec El)
        as (_ & B & _). cbn zeta in B. rewrite B.
      rewrite lookup_remove_objects_other; [exact Hl|].
      intros Hin.
      assert (Hr : In key (requested (sweep pe c
                            (first_page (retention_prefix d) (bucket w2))))).
      { unfold requested. apply in_or_app. now left. }
      apply sweep_requested_in in Hr. destruct Hr as [o [Ho [Hk Hold]]].
      apply in_first_page in Ho. destruct Ho as [Ho _].
      rewrite (Hone o Ho Hk) in Hold.
      unfold is_old in Hold. cbn in Hold. apply Z.ltb_lt in Hold.
      specialize (Hc c eq_refl). lia.
  - destruct (cleanup_old_backups_skipped cfg pe d w2) as [B _];
      [left; eauto|]. cbn zeta in B. rewrite B. exact Hl.
Qed.

Lemma new_backup_is_kept_witness :
  lookup (s3_key_of (strip (lit "orders"))
            (basename (dump_path Fixture.cfg0 (strip (lit "orders"))
                         (now_dump Fixture.fine) ++ lit ".gz")))
         (bucket (snd (backup_one Fixture.cfg0 Fixture.fine (lit "orders")
                         tally0 Fixture.w1)))
  = Some (backup_object Fixture.fine (strip (lit "orders"))
            (s3_key_of (strip (lit "orders"))
               (basename (dump_path Fixture.cfg0 (strip (lit "orders"))
                            (now_dump Fixture.fine) ++ lit ".gz")))).
Proof.
  apply (new_backup_is_kept Fixture.cfg0 Fixture.fine (lit "orders") tally0
           Fixture.w1).
  - vm_compute. reflexivity.
  - vm_compute. reflexivity.
  - intros c Hc. vm_compute in Hc. injection Hc as <-.
    vm_compute. discriminate.
Defined.

(** [X13] The retention step compares the time stamp of the store with
    the local clock of the host.  When the store stamped the new backup
    before the cut-off date -- a window of 0 days on a host whose clock
    reads later than the stamp is enough -- and the listing and the
    deletes succeed, the entry deletes the backup it has just uploaded,
    and is still counted as a success. *)
Theorem eager_window_deletes_new_backup (cfg : Config) (pe : Pipe)
  (database : str) (t : Tally) (w : World) (c : datetime) :
  let d := strip database in
  let gz := dump_path cfg d (now_dump pe) ++ lit ".gz" in
  let key := s3_key_of d (basename gz) in
  let w2 := snd (upload_to_s3 cfg pe gz d
                   (snd (create_mysql_dump cfg pe d w))) in
  let r := backup_one cfg pe database t w in
  first_failure pe = None ->
  cutoff (now_cleanup pe) (retention_days cfg) = Ok c ->
  upload_time pe < c ->
  list_error pe = None ->
  (forall k, delete_error pe k = None) ->
  In (backup_object pe d key) (first_page (retention_prefix d) (bucket w2)) ->
  lookup key (bucket (snd r)) = None
  /\ fst r = Ok {| success_count := success_count t + 1;
                   error_count := error_count t;
                   backup_details :=
                     backup_details t ++ [success_line cfg pe database] |}.
Proof.
  intros d gz key w2 r Hff Hc Hlt Hl Hd Hin. subst r.
  split.
  - rewrite (backup_one_world cfg pe database t w Hff).
    cbn [bucket set_files]. fold d gz w2.
    destruct (cleanup_old_backups_all cfg pe d w2 c Hc Hl Hd) as [_ B].
    cbv zeta in B. rewrite B.
    apply lookup_remove_objects_in.
    apply (in_map Key _ (backup_object pe d key)).
    apply filter_In. split; [exact Hin|].
    unfold is_old. cbn. apply Z.ltb_lt. exact Hlt.
  - rewrite backup_one_result.
    unfold tally_step, detail_line, healthy. rewrite Hff.
    rewrite Z.add_0_r. reflexivity.
Qed.

Lemma eager_window_deletes_new_backup_witness :
  lookup (s3_key_of (strip (lit "orders"))
            (basename (dump_path (with_retention 0 Fixture.cfg0)
                         (strip (lit "orders"))
                         (now_dump (ahead Fixture.fine)) ++ lit ".gz")))
         (bucket (snd (backup_one (with_retention 0 Fixture.cfg0)
                         (ahead Fixture.fine) (lit "orders") tally0
                         Fixture.w1)))
  = None.
Proof.
  refine (proj1 (eager_window_deletes_new_backup
                   (with_retention 0 Fixture.cfg0) (ahead Fixture.fine)
                   (lit "orders") tally0 Fixture.w1
                   (Fixture.t_run + 3600 * us_per_second) _ _ _ _ _ _)).
  - vm_compute. reflexivity.
  - vm_compute. reflexivity.
  - vm_compute. reflexivity.
  - reflexivity.
  - intros k. reflexivity.
  - vm_compute. right. right. left. reflexivity.
Defined.

(** ** The mail of a run *)

Section Mail.

Variable cfg : Config.

Lemma send_notification_effect (re : RunEnv) (subject message : str)
  (is_error : bool) (w : World) :
  let w' := snd (send_notification cfg re subject message is_error w) in
  outbox w' = match smtp re with
              | FailedBeforeSend _ => outbox w
              | _ => outbox w ++ [mail_of cfg subject message is_error]
              end
  /\ log w' = log w ++ [notify_line re].
Proof.
  unfold send_notification, smtp_send, notify_line, mail_of. munfold.
  cbn [fst snd].
  destruct is_error; destruct (smtp re); cbn; split; reflexivity.
Qed.

Lemma upload_to_s3_keeps_outbox (pe : Pipe) (f d : str) :
  keeps outbox (upload_to_s3 cfg pe f d).
Proof. unfold upload_to_s3. cbv zeta. keeps_all. Qed.

Lemma cleanup_old_backups_keeps_outbox (pe : Pipe) (d : str) :
  keeps outbox (cleanup_old_backups cfg pe d).
Proof.
  intros w. destruct (cleanup_old_backups_frame cfg pe d w) as (_ & _ & O).
  exact O.
Qed.

Lemma backup_one_keeps_outbox (pe : Pipe) (database : str) (t : Tally) :
  keeps outbox (backup_one cfg pe database t).
Proof.
  unfold backup_one.
  apply keeps_try_except; [|intros e; keeps_all].
  apply keeps_bind; [apply create_mysql_dump_keeps_outbox|]. intros f.
  apply keeps_bind; [apply upload_to_s3_keeps_outbox|]. intros k.
  apply keeps_bind; [apply cleanup_old_backups_keeps_outbox|]. intros _.
  keeps_all.
Qed.

Lemma backup_loop_keeps_outbox (pipes : nat -> Pipe) :
  forall dbs i t, keeps outbox (backup_loop cfg pipes i dbs t).
Proof.
  induction dbs as [|database rest IH]; intros i t; simpl.
  - apply keeps_ret.
  - apply keeps_bind; [apply backup_one_keeps_outbox|]. intros t'. apply IH.
Qed.

End Mail.

(** The world after a run is the one the notifier leaves, entered in
    the world of the loop with the report logged. *)
Lemma run_backup_world (cfg : Config) (pipes : nat -> Pipe) (re : RunEnv)
  (w : World) :
  let t := tally_loop cfg pipes 0 (databases cfg) tally0 in
  let w1 := snd (backup_loop cfg pipes 0 (databases cfg) tally0
                   (set_log (log w ++ [(INFO, lit "=== Iniciando processo de backup MySQL ===")]) w)) in
  snd (run_backup cfg pipes re w)
  = snd (send_notification cfg re (subject_of t) (report_of cfg re t)
           (0 <? error_count t)
           (set_log (log w1 ++ [(INFO, report_of cfg re t)]) w1)).
Proof.
  cbv zeta. unfold run_backup, subject_of.
  unfold bind. unfold logging_info. cbn [fst snd].
  match goal with
  | |- context [backup_loop cfg pipes 0 (databases cfg) tally0 ?v] =>
    pose proof (backup_loop_result cfg pipes (databases cfg) 0 tally0 v) as R;
    destruct (backup_loop cfg pipes 0 (databases cfg) tally0 v) as [[t1|e] w1]
  end; cbn [fst snd] in *; [|discriminate].
  injection R as ->.
  destruct (0 <? error_count (tally_loop cfg pipes 0 (databases cfg) tally0));
    match goal with
    | |- context [send_notification cfg re ?s ?m ?b ?v] =>
      destruct (send_notification cfg re s m b v) as [[[]|e] w2]
    end; reflexivity.
Qed.

(** [X14] A run sends at most one mail, after the loop.  When the SMTP
    exchange gets as far as [send_message], the mail goes from
    [email_user] to [notification_email], its subject is
    [[MySQL Backup] Backup concluído] or
    [[MySQL Backup] Backup com N erro(s)] with [N] the error count, and
    its body is the report of the run under a heading that tells success
    from error; when the exchange fails earlier no mail is sent.  The
    log ends with the report followed by the record of the delivery or
    of its failure -- which is an error record as well when only the
    closing [quit] failed and the mail has gone out. *)
Theorem run_sends_one_mail (cfg : Config) (pipes : nat -> Pipe)
  (re : RunEnv) (w : World) :
  let t := tally_loop cfg pipes 0 (databases cfg) tally0 in
  let w' := snd (run_backup cfg pipes re w) in
  let mail := mail_of cfg (subject_of t) (report_of cfg re t)
                      (0 <? error_count t) in
  (forall v, fst (backup_loop cfg pipes 0 (databases cfg) tally0 v) = Ok t)
  /\ outbox w' = match smtp re with
                 | FailedBeforeSend _ => outbox w
                 | _ => outbox w ++ [mail]
                 end
  /\ exists l, log w' = l ++ [(INFO, report_of cfg re t); notify_line re].
Proof.
  intros t w' mail. subst w' mail.
  split; [intros v; apply backup_loop_result|].
  rewrite (run_backup_world cfg pipes re w). cbv zeta. fold t.
  match goal with
  | |- context [send_notification cfg re ?s ?m ?b ?v] =>
    destruct (send_notification_effect cfg re s m b v) as (O & L)
  end.
  cbv zeta in O, L. cbn [log outbox set_log] in O, L.
  rewrite O, L.
  rewrite (backup_loop_keeps_outbox cfg pipes (databases cfg) 0 tally0).
  cbn [outbox set_log].
  split; [reflexivity|]. eexists. rewrite <- app_assoc. reflexivity.
Qed.

Lemma main_world (ie : InitEnv) (pipes : nat -> Pipe) (re : RunEnv)
  (w w1 : World) (cfg : Config) :
  let t := tally_loop cfg pipes 0 (databases cfg) tally0 in
  let w2 := snd (run_backup cfg pipes re w1) in
  init ie w = (Ok cfg, w1) ->
  main ie pipes re w
  = (if error_count t =? 0 then 0 else 1,
     set_log (log w2 ++ [verdict_line t]) w2).
Proof.
  intros t w2 Hi. subst w2.
  unfold main, main_body, try_except. unfold bind at 1 2.
  rewrite Hi.
  destruct (run_backup_run cfg pipes re w1) as (w2 & tr & E & _).
  rewrite E, success_iff_no_error. fold t. unfold verdict_line.
  unfold logging_info, logging_error, bind, ret.
  destruct (error_count t =? 0); reflexivity.
Qed.

(** [X15] After a run, [main] closes the log with its verdict: the
    [INFO] record of success when no entry failed, the [ERROR] record
    that some backups failed otherwise; the exit status agrees with the
    record. *)
Theorem main_logs_verdict (ie : InitEnv) (pipes : nat -> Pipe) (re : RunEnv)
  (w w1 : World) (cfg : Config) :
  let t := tally_loop cfg pipes 0 (databases cfg) tally0 in
  init ie w = (Ok cfg, w1) ->
  (forall v, fst (backup_loop cfg pipes 0 (databases cfg) tally0 v) = Ok t)
  /\ (exists l, log (snd (main ie pipes re w)) = l ++ [verdict_line t])
  /\ fst (main ie pipes re w) = if error_count t =? 0 then 0 else 1.
Proof.
  intros t Hi.
  split; [intros v; apply backup_loop_result|].
  rewrite (main_world ie pipes re w w1 cfg Hi). cbv zeta. fold t.
  cbn [fst snd log set_log].
  split; [eexists; reflexivity | reflexivity].
Qed.

Lemma main_logs_verdict_witness :
  fst (main sample_file (fun _ => Fixture.fine) Fixture.re0 Fixture.w0)
  = if error_count (tally_loop Fixture.cfg0 (fun _ => Fixture.fine) 0
                      (databases Fixture.cfg0) tally0) =? 0
    then 0 else 1.
Proof.
  refine (proj2 (proj2 (main_logs_verdict sample_file (fun _ => Fixture.fine)
                          Fixture.re0 Fixture.w0 Fixture.w0 Fixture.cfg0 _))).
  vm_compute. reflexivity.
Defined.

(** A run whose SMTP server cannot be reached sends nothing and returns
    what the entries decided. *)
Example run_without_smtp :
  let r := run_backup Fixture.cfg0 (fun _ => Fixture.fine)
             (no_smtp Fixture.re0) Fixture.w1 in
  fst r = Ok true /\ outbox (snd r) = [].
Proof. split; vm_compute; reflexivity. Qed.

(** ** The removal of the local file *)

Lemma backup_one_remove_failed (cfg : Config) (pe : Pipe) (database : str)
  (t : Tally) (w : World) (e : str) :
  dump_failure pe = None ->
  upload_failure pe = None ->
  remove_error pe = Some e ->
  let d := strip database in
  let gz := dump_path cfg d (now_dump pe) ++ lit ".gz" in
  let w3 := snd (cleanup_old_backups cfg pe d
                   (snd (upload_to_s3 cfg pe gz d
                           (snd (create_mysql_dump cfg pe d w))))) in
  snd (backup_one cfg pe database t w)
  = set_log (log w3 ++ [entry_error_line database e]) w3.
Proof.
  intros Hd Hu Hr. cbv zeta. unfold backup_one.
  set (d := strip database).
  unfold try_except, bind at 1 2 3 4.
  pose proof (create_mysql_dump_result cfg pe d w) as R1.
  pose proof (create_mysql_dump_files cfg pe d w Hd) as F1.
  rewrite Hd in R1.
  destruct (create_mysql_dump cfg pe d w) as [[f|e1] w1]; cbn [fst snd] in *;
    [|discriminate].
  injection R1 as ->.
  pose proof (upload_to_s3_result cfg pe _ d w1 F1) as R2.
  rewrite Hu in R2.
  destruct (upload_to_s3 cfg pe _ d w1) as [[k|e2] w2]; cbn [fst snd] in *;
    [|discriminate].
  destruct (cleanup_old_backups_frame cfg pe d w2) as (R3 & _ & _).
  destruct (cleanup_old_backups cfg pe d w2) as [[[]|e3] w3];
    cbn [fst snd] in *; [|discriminate].
  unfold os_remove, ret, bind. rewrite Hr. reflexivity.
Qed.

(** [X16] When the dump is made, uploaded and tagged but the local file
    cannot be removed, the entry is recorded as a failure with the
    message of that error, although the upload had returned the key and
    the retention step has run; the compressed dump stays in the scratch
    directory. *)
Theorem remove_failure_fails_entry (cfg : Config) (pe : Pipe)
  (database : str) (t : Tally) (w : World) (e : str) :
  let d := strip database in
  let gz := dump_path cfg d (now_dump pe) ++ lit ".gz" in
  let w1 := snd (create_mysql_dump cfg pe d w) in
  let r := backup_one cfg pe database t w in
  dump_failure pe = None ->
  upload_failure pe = None ->
  remove_error pe = Some e ->
  fst (upload_to_s3 cfg pe gz d w1) = Ok (s3_key_of d (basename gz))
  /\ fst r = Ok {| success_count := success_count t;
                   error_count := error_count t + 1;
                   backup_details :=
                     backup_details t ++ [failure_line database e] |}
  /\ file_exists gz (files (snd r)) = true
  /\ (exists l, log (snd r) = l ++ [entry_error_line database e]).
Proof.
  intros d gz w1 r Hd Hu Hr. subst r w1.
  pose proof (create_mysql_dump_files cfg pe d w Hd) as F1. fold gz in F1.
  split; [|split; [|split]].
  - rewrite (upload_to_s3_result cfg pe gz d _ F1), Hu. reflexivity.
  - rewrite backup_one_result.
    unfold tally_step, detail_line, healthy, first_failure.
    rewrite Hd, Hu, Hr. rewrite Z.add_0_r. reflexivity.
  - rewrite (backup_one_remove_failed cfg pe database t w e Hd Hu Hr).
    cbn [files set_log]. fold d gz.
    destruct (cleanup_old_backups_frame cfg pe d
                (snd (upload_to_s3 cfg pe gz d
                        (snd (create_mysql_dump cfg pe d w)))))
      as (_ & F3 & _).
    rewrite F3, upload_to_s3_files. exact F1.
  - rewrite (backup_one_remove_failed cfg pe database t w e Hd Hu Hr).
    cbn [log set_log]. eexists. reflexivity.
Qed.

Lemma remove_failure_fails_entry_witness :
  file_exists (dump_path Fixture.cfg0 (strip (lit "orders"))
                 (now_dump (with_remove_error (Some (lit "Permission denied"))
                                              Fixture.fine)) ++ lit ".gz")
    (files (snd (backup_one Fixture.cfg0
                   (with_remove_error (Some (lit "Permission denied"))
                                      Fixture.fine)
                   (lit "orders") tally0 Fixture.w1)))
  = true.
Proof.
  refine (proj1 (proj2 (proj2
            (remove_failure_fails_entry Fixture.cfg0
               (with_remove_error (Some (lit "Permission denied"))
                                  Fixture.fine)
               (lit "orders") tally0 Fixture.w1 (lit "Permission denied")
               _ _ _)))).
  - reflexivity.
  - reflexivity.
  - reflexivity.
Defined.
